(** * polyTEOS10: polynomial TEOS-10 equation of state

    A shallow embedding of [polyTEOS10.py].  The four evaluators are
    straight-line arithmetic over the operations [+], [*], [/] and [sqrt]
    and decimal literals; they are written once, over any carrier that
    interprets these operations, and then read
    - over binary64 floating-point numbers (the arithmetic the Python
      code performs on float inputs), and
    - over the real numbers (the arithmetic the published formulas mean),
    and, for the coefficient tables alone, over the rationals.

    The translation keeps the source's names and its order of evaluation:
    every product and sum is nested as the Python expression parses.
    The coefficients, local variables of each Python function, are
    definitions of the module of that function ([Bsq], [Stif], [V55],
    [V75]); a Python literal such as [40.] is written [lit 40]; the
    returned tuple is a tuple. *)

From Stdlib Require Import ZArith QArith Qabs Qreals Reals Lra Lia List Bool.
From Stdlib Require Import Floats.
Import ListNotations.

(** ** Carriers *)

(** A decimal literal of the source, kept as the exact rational it denotes. *)
Class Lit (F : Type) := lit : Q -> F.

(** The four operations the evaluators use. *)
Class Arith (F : Type) := {
  fadd : F -> F -> F;
  fmul : F -> F -> F;
  fdiv : F -> F -> F;
  fsqrt : F -> F
}.

Arguments lit {F _} q%_Q.

Declare Scope num_scope.
Delimit Scope num_scope with num.
Infix "+" := fadd : num_scope.
Infix "*" := fmul : num_scope.
Infix "/" := fdiv : num_scope.

Close Scope Q_scope.
Close Scope R_scope.
Local Open Scope num_scope.

Module Bsq.
Section Evaluator.
Context {F : Type} {L : Lit F} {A : Arith F}.

Definition R00 : F := lit 4.6494977072e+01.
Definition R01 : F := lit (-5.2099962525e+00).
Definition R02 : F := lit 2.2601900708e-01.
Definition R03 : F := lit 6.4326772569e-02.
Definition R04 : F := lit 1.5616995503e-02.
Definition R05 : F := lit (-1.7243708991e-03).
Definition R000 : F := lit 8.0189615746e+02.
Definition R100 : F := lit 8.6672408165e+02.
Definition R200 : F := lit (-1.7864682637e+03).
Definition R300 : F := lit 2.0375295546e+03.
Definition R400 : F := lit (-1.2849161071e+03).
Definition R500 : F := lit 4.3227585684e+02.
Definition R600 : F := lit (-6.0579916612e+01).
Definition R010 : F := lit 2.6010145068e+01.
Definition R110 : F := lit (-6.5281885265e+01).
Definition R210 : F := lit 8.1770425108e+01.
Definition R310 : F := lit (-5.6888046321e+01).
Definition R410 : F := lit 1.7681814114e+01.
Definition R510 : F := lit (-1.9193502195e+00).
Definition R020 : F := lit (-3.7074170417e+01).
Definition R120 : F := lit 6.1548258127e+01.
Definition R220 : F := lit (-6.0362551501e+01).
Definition R320 : F := lit 2.9130021253e+01.
Definition R420 : F := lit (-5.4723692739e+00).
Definition R030 : F := lit 2.1661789529e+01.
Definition R130 : F := lit (-3.3449108469e+01).
Definition R230 : F := lit 1.9717078466e+01.
Definition R330 : F := lit (-3.1742946532e+00).
Definition R040 : F := lit (-8.3627885467e+00).
Definition R140 : F := lit 1.1311538584e+01.
Definition R240 : F := lit (-5.3563304045e+00).
Definition R050 : F := lit 5.4048723791e-01.
Definition R150 : F := lit 4.8169980163e-01.
Definition R060 : F := lit (-1.9083568888e-01).
Definition R001 : F := lit 1.9681925209e+01.
Definition R101 : F := lit (-4.2549998214e+01).
Definition R201 : F := lit 5.0774768218e+01.
Definition R301 : F := lit (-3.0938076334e+01).
Definition R401 : F := lit 6.6051753097e+00.
Definition R011 : F := lit (-1.3336301113e+01).
Definition R111 : F := lit (-4.4870114575e+00).
Definition R211 : F := lit 5.0042598061e+00.
Definition R311 : F := lit (-6.5399043664e-01).
Definition R021 : F := lit 6.7080479603e+00.
Definition R121 : F := lit 3.5063081279e+00.
Definition R221 : F := lit (-1.8795372996e+00).
Definition R031 : F := lit (-2.4649669534e+00).
Definition R131 : F := lit (-5.5077101279e-01).
Definition R041 : F := lit 5.5927935970e-01.
Definition R002 : F := lit 2.0660924175e+00.
Definition R102 : F := lit (-4.9527603989e+00).
Definition R202 : F := lit 2.5019633244e+00.
Definition R012 : F := lit 2.0564311499e+00.
Definition R112 : F := lit (-2.1311365518e-01).
Definition R022 : F := lit (-1.2419983026e+00).
Definition R003 : F := lit (-2.3342758797e-02).
Definition R103 : F := lit (-1.8507636718e-02).
Definition R013 : F := lit 3.7969820455e-01.
Definition ALP000 : F := lit (-6.5025362670e-01).
Definition ALP100 : F := lit 1.6320471316e+00.
Definition ALP200 : F := lit (-2.0442606277e+00).
Definition ALP300 : F := lit 1.4222011580e+00.
Definition ALP400 : F := lit (-4.4204535284e-01).
Definition ALP500 : F := lit 4.7983755487e-02.
Definition ALP010 : F := lit 1.8537085209e+00.
Definition ALP110 : F := lit (-3.0774129064e+00).
Definition ALP210 : F := lit 3.0181275751e+00.
Definition ALP310 : F := lit (-1.4565010626e+00).
Definition ALP410 : F := lit 2.7361846370e-01.
Definition ALP020 : F := lit (-1.6246342147e+00).
Definition ALP120 : F := lit 2.5086831352e+00.
Definition ALP220 : F := lit (-1.4787808849e+00).
Definition ALP320 : F := lit 2.3807209899e-01.
Definition ALP030 : F := lit 8.3627885467e-01.
Definition ALP130 : F := lit (-1.1311538584e+00).
Definition ALP230 : F := lit 5.3563304045e-01.
Definition ALP040 : F := lit (-6.7560904739e-02).
Definition ALP140 : F := lit (-6.0212475204e-02).
Definition ALP050 : F := lit 2.8625353333e-02.
Definition ALP001 : F := lit 3.3340752782e-01.
Definition ALP101 : F := lit 1.1217528644e-01.
Definition ALP201 : F := lit (-1.2510649515e-01).
Definition ALP301 : F := lit 1.6349760916e-02.
Definition ALP011 : F := lit (-3.3540239802e-01).
Definition ALP111 : F := lit (-1.7531540640e-01).
Definition ALP211 : F := lit 9.3976864981e-02.
Definition ALP021 : F := lit 1.8487252150e-01.
Definition ALP121 : F := lit 4.1307825959e-02.
Definition ALP031 : F := lit (-5.5927935970e-02).
Definition ALP002 : F := lit (-5.1410778748e-02).
Definition ALP102 : F := lit 5.3278413794e-03.
Definition ALP012 : F := lit 6.2099915132e-02.
Definition ALP003 : F := lit (-9.4924551138e-03).
Definition BET000 : F := lit 1.0783203594e+01.
Definition BET100 : F := lit (-4.4452095908e+01).
Definition BET200 : F := lit 7.6048755820e+01.
Definition BET300 : F := lit (-6.3944280668e+01).
Definition BET400 : F := lit 2.6890441098e+01.
Definition BET500 : F := lit (-4.5221697773e+00).
Definition BET010 : F := lit (-8.1219372432e-01).
Definition BET110 : F := lit 2.0346663041e+00.
Definition BET210 : F := lit (-2.1232895170e+00).
Definition BET310 : F := lit 8.7994140485e-01.
Definition BET410 : F := lit (-1.1939638360e-01).
Definition BET020 : F := lit 7.6574242289e-01.
Definition BET120 : F := lit (-1.5019813020e+00).
Definition BET220 : F := lit 1.0872489522e+00.
Definition BET320 : F := lit (-2.7233429080e-01).
Definition BET030 : F := lit (-4.1615152308e-01).
Definition BET130 : F := lit 4.9061350869e-01.
Definition BET230 : F := lit (-1.1847737788e-01).
Definition BET040 : F := lit 1.4073062708e-01.
Definition BET140 : F := lit (-1.3327978879e-01).
Definition BET050 : F := lit 5.9929880134e-03.
Definition BET001 : F := lit (-5.2937873009e-01).
Definition BET101 : F := lit 1.2634116779e+00.
Definition BET201 : F := lit (-1.1547328025e+00).
Definition BET301 : F := lit 3.2870876279e-01.
Definition BET011 : F := lit (-5.5824407214e-02).
Definition BET111 : F := lit 1.2451933313e-01.
Definition BET211 : F := lit (-2.4409539932e-02).
Definition BET021 : F := lit 4.3623149752e-02.
Definition BET121 : F := lit (-4.6767901790e-02).
Definition BET031 : F := lit (-6.8523260060e-03).
Definition BET002 : F := lit (-6.1618945251e-02).
Definition BET102 : F := lit 6.2255521644e-02.
Definition BET012 : F := lit (-2.6514181169e-03).
Definition BET003 : F := lit (-2.3025968587e-04).

Definition R_table : list (nat * nat * nat * F) :=
  [(0, 0, 0, R000); (1, 0, 0, R100); (2, 0, 0, R200);
   (3, 0, 0, R300); (4, 0, 0, R400); (5, 0, 0, R500);
   (6, 0, 0, R600); (0, 1, 0, R010); (1, 1, 0, R110);
   (2, 1, 0, R210); (3, 1, 0, R310); (4, 1, 0, R410);
   (5, 1, 0, R510); (0, 2, 0, R020); (1, 2, 0, R120);
   (2, 2, 0, R220); (3, 2, 0, R320); (4, 2, 0, R420);
   (0, 3, 0, R030); (1, 3, 0, R130); (2, 3, 0, R230);
   (3, 3, 0, R330); (0, 4, 0, R040); (1, 4, 0, R140);
   (2, 4, 0, R240); (0, 5, 0, R050); (1, 5, 0, R150);
   (0, 6, 0, R060); (0, 0, 1, R001); (1, 0, 1, R101);
   (2, 0, 1, R201); (3, 0, 1, R301); (4, 0, 1, R401);
   (0, 1, 1, R011); (1, 1, 1, R111); (2, 1, 1, R211);
   (3, 1, 1, R311); (0, 2, 1, R021); (1, 2, 1, R121);
   (2, 2, 1, R221); (0, 3, 1, R031); (1, 3, 1, R131);
   (0, 4, 1, R041); (0, 0, 2, R002); (1, 0, 2, R102);
   (2, 0, 2, R202); (0, 1, 2, R012); (1, 1, 2, R112);
   (0, 2, 2, R022); (0, 0, 3, R003); (1, 0, 3, R103);
   (0, 1, 3, R013)].
Definition ALP_table : list (nat * nat * nat * F) :=
  [(0, 0, 0, ALP000); (1, 0, 0, ALP100); (2, 0, 0, ALP200);
   (3, 0, 0, ALP300); (4, 0, 0, ALP400); (5, 0, 0, ALP500);
   (0, 1, 0, ALP010); (1, 1, 0, ALP110); (2, 1, 0, ALP210);
   (3, 1, 0, ALP310); (4, 1, 0, ALP410); (0, 2, 0, ALP020);
   (1, 2, 0, ALP120); (2, 2, 0, ALP220); (3, 2, 0, ALP320);
   (0, 3, 0, ALP030); (1, 3, 0, ALP130); (2, 3, 0, ALP230);
   (0, 4, 0, ALP040); (1, 4, 0, ALP140); (0, 5, 0, ALP050);
   (0, 0, 1, ALP001); (1, 0, 1, ALP101); (2, 0, 1, ALP201);
   (3, 0, 1, ALP301); (0, 1, 1, ALP011); (1, 1, 1, ALP111);
   (2, 1, 1, ALP211); (0, 2, 1, ALP021); (1, 2, 1, ALP121);
   (0, 3, 1, ALP031); (0, 0, 2, ALP002); (1, 0, 2, ALP102);
   (0, 1, 2, ALP012); (0, 0, 3, ALP003)].
Definition BET_table : list (nat * nat * nat * F) :=
  [(0, 0, 0, BET000); (1, 0, 0, BET100); (2, 0, 0, BET200);
   (3, 0, 0, BET300); (4, 0, 0, BET400); (5, 0, 0, BET500);
   (0, 1, 0, BET010); (1, 1, 0, BET110); (2, 1, 0, BET210);
   (3, 1, 0, BET310); (4, 1, 0, BET410); (0, 2, 0, BET020);
   (1, 2, 0, BET120); (2, 2, 0, BET220); (3, 2, 0, BET320);
   (0, 3, 0, BET030); (1, 3, 0, BET130); (2, 3, 0, BET230);
   (0, 4, 0, BET040); (1, 4, 0, BET140); (0, 5, 0, BET050);
   (0, 0, 1, BET001); (1, 0, 1, BET101); (2, 0, 1, BET201);
   (3, 0, 1, BET301); (0, 1, 1, BET011); (1, 1, 1, BET111);
   (2, 1, 1, BET211); (0, 2, 1, BET021); (1, 2, 1, BET121);
   (0, 3, 1, BET031); (0, 0, 2, BET002); (1, 0, 2, BET102);
   (0, 1, 2, BET012); (0, 0, 3, BET003)].
Definition R0_table : list (nat * F) :=
  [(0, R00); (1, R01); (2, R02); (3, R03); (4, R04); (5, R05)].

Definition polyTEOS10_bsq (SA CT p : F) : F * F * F * F * F :=
  (* reduced variables *)
  let SAu := lit 40 * lit 35.16504 / lit 35 in
  let CTu := lit 40 in
  let Zu := lit 1e4 in
  let deltaS := lit 32 in
  let ss := fsqrt ( (SA+deltaS)/SAu ) in
  let tt := CT / CTu in
  let pp := p / Zu in
  (* vertical reference profile of density *)
  let r0 := ( ( ( ( ( R05*pp + R04 )*pp + R03 )*pp + R02 )*pp + R01 )*pp + R00 )*pp in
  (* density anomaly *)
  let rz3 := R013*tt + R103*ss + R003 in
  let rz2 := (R022*tt+R112*ss+R012)*tt+(R202*ss+R102)*ss+R002 in
  let rz1 := (((R041*tt+R131*ss+R031)*tt +
    (R221*ss+R121)*ss+R021)*tt +
    ((R311*ss+R211)*ss+R111)*ss+R011)*tt +
    (((R401*ss+R301)*ss+R201)*ss+R101)*ss+R001 in
  let rz0 := (((((R060*tt+R150*ss+R050)*tt +
    (R240*ss+R140)*ss+R040)*tt +
    ((R330*ss+R230)*ss+R130)*ss+R030)*tt +
    (((R420*ss+R320)*ss+R220)*ss+R120)*ss+R020)*tt +
    ((((R510*ss+R410)*ss+R310)*ss+R210)*ss+R110)*ss+R010)*tt +
    (((((R600*ss+R500)*ss+R400)*ss+R300)*ss+R200)*ss+R100)*ss+R000 in
  let r := ( ( rz3*pp + rz2 )*pp + rz1 )*pp + rz0 in
  (* in-situ density *)
  let rho := r + r0 in
  (* thermal expansion a *)
  let a := ((ALP003*pp +
    ALP012*tt + ALP102*ss+ALP002)*pp +
    ((ALP031*tt +
    ALP121*ss+ALP021)*tt +
    (ALP211*ss+ALP111)*ss+ALP011)*tt +
    ((ALP301*ss+ALP201)*ss+ALP101)*ss+ALP001)*pp +
    ((((ALP050*tt +
    ALP140*ss+ALP040)*tt +
    (ALP230*ss+ALP130)*ss+ALP030)*tt +
    ((ALP320*ss+ALP220)*ss+ALP120)*ss+ALP020)*tt +
    (((ALP410*ss+ALP310)*ss+ALP210)*ss+ALP110)*ss+ALP010)*tt +
    ((((ALP500*ss+ALP400)*ss+ALP300)*ss+ALP200)*ss+ALP100)*ss+ALP000 in
  (* haline contraction b *)
  let b := ((BET003*pp +
    BET012*tt + BET102*ss+BET002)*pp +
    ((BET031*tt +
    BET121*ss+BET021)*tt +
    (BET211*ss+BET111)*ss+BET011)*tt +
    ((BET301*ss+BET201)*ss+BET101)*ss+BET001)*pp +
    ((((BET050*tt +
    BET140*ss+BET040)*tt +
    (BET230*ss+BET130)*ss+BET030)*tt +
    ((BET320*ss+BET220)*ss+BET120)*ss+BET020)*tt +
    (((BET410*ss+BET310)*ss+BET210)*ss+BET110)*ss+BET010)*tt +
    ((((BET500*ss+BET400)*ss+BET300)*ss+BET200)*ss+BET100)*ss+BET000 in
  let b := b / ss in
  (rho, a, b, r0, r).

End Evaluator.
End Bsq.

Module Stif.
Section Evaluator.
Context {F : Type} {L : Lit F} {A : Arith F}.

Definition R10 : F := lit 4.5238001132e-02.
Definition R11 : F := lit (-5.0691457704e-03).
Definition R12 : F := lit 2.1990865986e-04.
Definition R13 : F := lit 6.2587720090e-05.
Definition R14 : F := lit 1.5194795322e-05.
Definition R15 : F := lit (-1.6777531159e-06).
Definition R000 : F := lit 8.0185969881e+02.
Definition R100 : F := lit 8.6694399997e+02.
Definition R200 : F := lit (-1.7869886805e+03).
Definition R300 : F := lit 2.0381548497e+03.
Definition R400 : F := lit (-1.2853207957e+03).
Definition R500 : F := lit 4.3240996619e+02.
Definition R600 : F := lit (-6.0597695001e+01).
Definition R010 : F := lit 2.6018938392e+01.
Definition R110 : F := lit (-6.5349779146e+01).
Definition R210 : F := lit 8.1938301569e+01.
Definition R310 : F := lit (-5.7075042739e+01).
Definition R410 : F := lit 1.7778970855e+01.
Definition R510 : F := lit (-1.9385269480e+00).
Definition R020 : F := lit (-3.7047586837e+01).
Definition R120 : F := lit 6.1469677558e+01.
Definition R220 : F := lit (-6.0273564480e+01).
Definition R320 : F := lit 2.9086147388e+01.
Definition R420 : F := lit (-5.4641145446e+00).
Definition R030 : F := lit 2.1645370860e+01.
Definition R130 : F := lit (-3.3415215649e+01).
Definition R230 : F := lit 1.9694119706e+01.
Definition R330 : F := lit (-3.1710494147e+00).
Definition R040 : F := lit (-8.3587258634e+00).
Definition R140 : F := lit 1.1301873278e+01.
Definition R240 : F := lit (-5.3494903247e+00).
Definition R050 : F := lit 5.4258499460e-01.
Definition R150 : F := lit 4.7964098705e-01.
Definition R060 : F := lit (-1.9098981559e-01).
Definition R001 : F := lit 2.1989266031e+01.
Definition R101 : F := lit (-4.2043785414e+01).
Definition R201 : F := lit 4.8565183521e+01.
Definition R301 : F := lit (-3.0473875108e+01).
Definition R401 : F := lit 6.5025796369e+00.
Definition R011 : F := lit (-1.3731593003e+01).
Definition R111 : F := lit (-4.3667263842e+00).
Definition R211 : F := lit 5.2899298884e+00.
Definition R311 : F := lit (-7.1323826203e-01).
Definition R021 : F := lit 7.4843325711e+00.
Definition R121 : F := lit 3.1442996192e+00.
Definition R221 : F := lit (-1.8141771987e+00).
Definition R031 : F := lit (-2.6010182316e+00).
Definition R131 : F := lit (-4.9866739215e-01).
Definition R041 : F := lit 5.5882364387e-01.
Definition R002 : F := lit 1.1144125393e+00.
Definition R102 : F := lit (-4.5413502768e+00).
Definition R202 : F := lit 2.7242121539e+00.
Definition R012 : F := lit 2.8508446713e+00.
Definition R112 : F := lit (-4.4471361300e-01).
Definition R022 : F := lit (-1.5059302816e+00).
Definition R003 : F := lit 1.9817079368e-01.
Definition R103 : F := lit (-1.7905369937e-01).
Definition R013 : F := lit 2.5254165600e-01.
Definition ALP000 : F := lit (-6.5047345980e-01).
Definition ALP100 : F := lit 1.6337444787e+00.
Definition ALP200 : F := lit (-2.0484575392e+00).
Definition ALP300 : F := lit 1.4268760685e+00.
Definition ALP400 : F := lit (-4.4447427136e-01).
Definition ALP500 : F := lit 4.8463173700e-02.
Definition ALP010 : F := lit 1.8523793418e+00.
Definition ALP110 : F := lit (-3.0734838779e+00).
Definition ALP210 : F := lit 3.0136782240e+00.
Definition ALP310 : F := lit (-1.4543073694e+00).
Definition ALP410 : F := lit 2.7320572723e-01.
Definition ALP020 : F := lit (-1.6234028145e+00).
Definition ALP120 : F := lit 2.5061411737e+00.
Definition ALP220 : F := lit (-1.4770589780e+00).
Definition ALP320 : F := lit 2.3782870611e-01.
Definition ALP030 : F := lit 8.3587258634e-01.
Definition ALP130 : F := lit (-1.1301873278e+00).
Definition ALP230 : F := lit 5.3494903247e-01.
Definition ALP040 : F := lit (-6.7823124325e-02).
Definition ALP140 : F := lit (-5.9955123381e-02).
Definition ALP050 : F := lit 2.8648472338e-02.
Definition ALP001 : F := lit 3.4328982507e-01.
Definition ALP101 : F := lit 1.0916815960e-01.
Definition ALP201 : F := lit (-1.3224824721e-01).
Definition ALP301 : F := lit 1.7830956551e-02.
Definition ALP011 : F := lit (-3.7421662855e-01).
Definition ALP111 : F := lit (-1.5721498096e-01).
Definition ALP211 : F := lit 9.0708859933e-02.
Definition ALP021 : F := lit 1.9507636737e-01.
Definition ALP121 : F := lit 3.7400054411e-02.
Definition ALP031 : F := lit (-5.5882364387e-02).
Definition ALP002 : F := lit (-7.1271116782e-02).
Definition ALP102 : F := lit 1.1117840325e-02.
Definition ALP012 : F := lit 7.5296514078e-02.
Definition ALP003 : F := lit (-6.3135413999e-03).
Definition BET000 : F := lit 1.0785939671e+01.
Definition BET100 : F := lit (-4.4465045269e+01).
Definition BET200 : F := lit 7.6072094337e+01.
Definition BET300 : F := lit (-6.3964420131e+01).
Definition BET400 : F := lit 2.6898783594e+01.
Definition BET500 : F := lit (-4.5234968986e+00).
Definition BET010 : F := lit (-8.1303841476e-01).
Definition BET110 : F := lit 2.0388435182e+00.
Definition BET210 : F := lit (-2.1302689715e+00).
Definition BET310 : F := lit 8.8477644261e-01.
Definition BET410 : F := lit (-1.2058930400e-01).
Definition BET020 : F := lit 7.6476477580e-01.
Definition BET120 : F := lit (-1.4997670675e+00).
Definition BET220 : F := lit 1.0856114040e+00.
Definition BET320 : F := lit (-2.7192349143e-01).
Definition BET030 : F := lit (-4.1572985119e-01).
Definition BET130 : F := lit 4.9004223351e-01.
Definition BET230 : F := lit (-1.1835625260e-01).
Definition BET040 : F := lit 1.4061037779e-01.
Definition BET140 : F := lit (-1.3310958936e-01).
Definition BET050 : F := lit 5.9673736141e-03.
Definition BET001 : F := lit (-5.2308076768e-01).
Definition BET101 : F := lit 1.2084313165e+00.
Definition BET201 : F := lit (-1.1374069553e+00).
Definition BET301 : F := lit 3.2360305476e-01.
Definition BET011 : F := lit (-5.4327900468e-02).
Definition BET111 : F := lit 1.3162756682e-01.
Definition BET211 : F := lit (-2.6620905846e-02).
Definition BET021 : F := lit 3.9119281064e-02.
Definition BET121 : F := lit (-4.5141568126e-02).
Definition BET031 : F := lit (-6.2040874705e-03).
Definition BET002 : F := lit (-5.6500454603e-02).
Definition BET102 : F := lit 6.7785665385e-02.
Definition BET012 : F := lit (-5.5328304955e-03).
Definition BET003 : F := lit (-2.2276668383e-03).

Definition R_table : list (nat * nat * nat * F) :=
  [(0, 0, 0, R000); (1, 0, 0, R100); (2, 0, 0, R200);
   (3, 0, 0, R300); (4, 0, 0, R400); (5, 0, 0, R500);
   (6, 0, 0, R600); (0, 1, 0, R010); (1, 1, 0, R110);
   (2, 1, 0, R210); (3, 1, 0, R310); (4, 1, 0, R410);
   (5, 1, 0, R510); (0, 2, 0, R020); (1, 2, 0, R120);
   (2, 2, 0, R220); (3, 2, 0, R320); (4, 2, 0, R420);
   (0, 3, 0, R030); (1, 3, 0, R130); (2, 3, 0, R230);
   (3, 3, 0, R330); (0, 4, 0, R040); (1, 4, 0, R140);
   (2, 4, 0, R240); (0, 5, 0, R050); (1, 5, 0, R150);
   (0, 6, 0, R060); (0, 0, 1, R001); (1, 0, 1, R101);
   (2, 0, 1, R201); (3, 0, 1, R301); (4, 0, 1, R401);
   (0, 1, 1, R011); (1, 1, 1, R111); (2, 1, 1, R211);
   (3, 1, 1, R311); (0, 2, 1, R021); (1, 2, 1, R121);
   (2, 2, 1, R221); (0, 3, 1, R031); (1, 3, 1, R131);
   (0, 4, 1, R041); (0, 0, 2, R002); (1, 0, 2, R102);
   (2, 0, 2, R202); (0, 1, 2, R012); (1, 1, 2, R112);
   (0, 2, 2, R022); (0, 0, 3, R003); (1, 0, 3, R103);
   (0, 1, 3, R013)].
Definition ALP_table : list (nat * nat * nat * F) :=
  [(0, 0, 0, ALP000); (1, 0, 0, ALP100); (2, 0, 0, ALP200);
   (3, 0, 0, ALP300); (4, 0, 0, ALP400); (5, 0, 0, ALP500);
   (0, 1, 0, ALP010); (1, 1, 0, ALP110); (2, 1, 0, ALP210);
   (3, 1, 0, ALP310); (4, 1, 0, ALP410); (0, 2, 0, ALP020);
   (1, 2, 0, ALP120); (2, 2, 0, ALP220); (3, 2, 0, ALP320);
   (0, 3, 0, ALP030); (1, 3, 0, ALP130); (2, 3, 0, ALP230);
   (0, 4, 0, ALP040); (1, 4, 0, ALP140); (0, 5, 0, ALP050);
   (0, 0, 1, ALP001); (1, 0, 1, ALP101); (2, 0, 1, ALP201);
   (3, 0, 1, ALP301); (0, 1, 1, ALP011); (1, 1, 1, ALP111);
   (2, 1, 1, ALP211); (0, 2, 1, ALP021); (1, 2, 1, ALP121);
   (0, 3, 1, ALP031); (0, 0, 2, ALP002); (1, 0, 2, ALP102);
   (0, 1, 2, ALP012); (0, 0, 3, ALP003)].
Definition BET_table : list (nat * nat * nat * F) :=
  [(0, 0, 0, BET000); (1, 0, 0, BET100); (2, 0, 0, BET200);
   (3, 0, 0, BET300); (4, 0, 0, BET400); (5, 0, 0, BET500);
   (0, 1, 0, BET010); (1, 1, 0, BET110); (2, 1, 0, BET210);
   (3, 1, 0, BET310); (4, 1, 0, BET410); (0, 2, 0, BET020);
   (1, 2, 0, BET120); (2, 2, 0, BET220); (3, 2, 0, BET320);
   (0, 3, 0, BET030); (1, 3, 0, BET130); (2, 3, 0, BET230);
   (0, 4, 0, BET040); (1, 4, 0, BET140); (0, 5, 0, BET050);
   (0, 0, 1, BET001); (1, 0, 1, BET101); (2, 0, 1, BET201);
   (3, 0, 1, BET301); (0, 1, 1, BET011); (1, 1, 1, BET111);
   (2, 1, 1, BET211); (0, 2, 1, BET021); (1, 2, 1, BET121);
   (0, 3, 1, BET031); (0, 0, 2, BET002); (1, 0, 2, BET102);
   (0, 1, 2, BET012); (0, 0, 3, BET003)].
Definition R1_table : list (nat * F) :=
  [(0, R10); (1, R11); (2, R12); (3, R13); (4, R14); (5, R15)].

Definition polyTEOS10_stif (SA CT p : F) : F * F * F * F * F :=
  (* reduced variables *)
  let SAu := lit 40 * lit 35.16504 / lit 35 in
  let CTu := lit 40 in
  let Zu := lit 1e4 in
  let deltaS := lit 32 in
  let ss := fsqrt ( (SA+deltaS)/SAu ) in
  let tt := CT / CTu in
  let pp := p / Zu in
  (* vertical reference profile of density *)
  let r1 := ( ( ( ( ( R15*pp + R14 )*pp + R13 )*pp + R12 )*pp + R11 )*pp + R10 )*pp + lit 1 in
  (* stiffened density *)
  let rz3 := R013*tt + R103*ss + R003 in
  let rz2 := (R022*tt+R112*ss+R012)*tt+(R202*ss+R102)*ss+R002 in
  let rz1 := (((R041*tt+R131*ss+R031)*tt
    +   (R221*ss+R121)*ss+R021)*tt
    +  ((R311*ss+R211)*ss+R111)*ss+R011)*tt
    + (((R401*ss+R301)*ss+R201)*ss+R101)*ss+R001 in
  let rz0 := (((((R060*tt+R150*ss+R050)*tt
    +    (R240*ss+R140)*ss+R040)*tt
    +   ((R330*ss+R230)*ss+R130)*ss+R030)*tt
    +  (((R420*ss+R320)*ss+R220)*ss+R120)*ss+R020)*tt
    + ((((R510*ss+R410)*ss+R310)*ss+R210)*ss+R110)*ss+R010)*tt
    +(((((R600*ss+R500)*ss+R400)*ss+R300)*ss+R200)*ss+R100)*ss+R000 in
  let rdot := ( ( rz3*pp + rz2 )*pp + rz1 )*pp + rz0 in
  (* in-situ density *)
  let rho := r1 * rdot in
  (* thermal expansion a *)
  let a := r1 * (
    ((ALP003*pp
    + ALP012*tt + ALP102*ss+ALP002)*pp
    + ((ALP031*tt
    + ALP121*ss+ALP021)*tt
    + (ALP211*ss+ALP111)*ss+ALP011)*tt
    + ((ALP301*ss+ALP201)*ss+ALP101)*ss+ALP001)*pp
    + ((((ALP050*tt
    + ALP140*ss+ALP040)*tt
    + (ALP230*ss+ALP130)*ss+ALP030)*tt
    + ((ALP320*ss+ALP220)*ss+ALP120)*ss+ALP020)*tt
    + (((ALP410*ss+ALP310)*ss+ALP210)*ss+ALP110)*ss+ALP010)*tt
    + ((((ALP500*ss+ALP400)*ss+ALP300)*ss+ALP200)*ss+ALP100)*ss+ALP000 ) in
  (* haline contraction b *)
  let b := ((BET003*pp
    + BET012*tt + BET102*ss+BET002)*pp
    + ((BET031*tt
    + BET121*ss+BET021)*tt
    + (BET211*ss+BET111)*ss+BET011)*tt
    + ((BET301*ss+BET201)*ss+BET101)*ss+BET001)*pp
    + ((((BET050*tt
    + BET140*ss+BET040)*tt
    + (BET230*ss+BET130)*ss+BET030)*tt
    + ((BET320*ss+BET220)*ss+BET120)*ss+BET020)*tt
    + (((BET410*ss+BET310)*ss+BET210)*ss+BET110)*ss+BET010)*tt
    + ((((BET500*ss+BET400)*ss+BET300)*ss+BET200)*ss+BET100)*ss+BET000 in
  let b := b * r1 / ss in
  (rho, a, b, r1, rdot).

End Evaluator.
End Stif.

Module V55.
Section Evaluator.
Context {F : Type} {L : Lit F} {A : Arith F}.

Definition V00 : F := lit (-4.4015007269e-05).
Definition V01 : F := lit 6.9232335784e-06.
Definition V02 : F := lit (-7.5004675975e-07).
Definition V03 : F := lit 1.7009109288e-08.
Definition V04 : F := lit (-1.6884162004e-08).
Definition V05 : F := lit 1.9613503930e-09.
Definition V000 : F := lit 1.0772899069e-03.
Definition V100 : F := lit (-3.1263658781e-04).
Definition V200 : F := lit 6.7615860683e-04.
Definition V300 : F := lit (-8.6127884515e-04).
Definition V400 : F := lit 5.9010812596e-04.
Definition V500 : F := lit (-2.1503943538e-04).
Definition V600 : F := lit 3.2678954455e-05.
Definition V010 : F := lit (-1.4949652640e-05).
Definition V110 : F := lit 3.1866349188e-05.
Definition V210 : F := lit (-3.8070687610e-05).
Definition V310 : F := lit 2.9818473563e-05.
Definition V410 : F := lit (-1.0011321965e-05).
Definition V510 : F := lit 1.0751931163e-06.
Definition V020 : F := lit 2.7546851539e-05.
Definition V120 : F := lit (-3.6597334199e-05).
Definition V220 : F := lit 3.4489154625e-05.
Definition V320 : F := lit (-1.7663254122e-05).
Definition V420 : F := lit 3.5965131935e-06.
Definition V030 : F := lit (-1.6506828994e-05).
Definition V130 : F := lit 2.4412359055e-05.
Definition V230 : F := lit (-1.4606740723e-05).
Definition V330 : F := lit 2.3293406656e-06.
Definition V040 : F := lit 6.7896174634e-06.
Definition V140 : F := lit (-8.7951832993e-06).
Definition V240 : F := lit 4.4249040774e-06.
Definition V050 : F := lit (-7.2535743349e-07).
Definition V150 : F := lit (-3.4680559205e-07).
Definition V060 : F := lit 1.9041365570e-07.
Definition V001 : F := lit (-1.6889436589e-05).
Definition V101 : F := lit 2.1106556158e-05.
Definition V201 : F := lit (-2.1322804368e-05).
Definition V301 : F := lit 1.7347655458e-05.
Definition V401 : F := lit (-4.3209400767e-06).
Definition V011 : F := lit 1.5355844621e-05.
Definition V111 : F := lit 2.0914122241e-06.
Definition V211 : F := lit (-5.7751479725e-06).
Definition V311 : F := lit 1.0767234341e-06.
Definition V021 : F := lit (-9.6659393016e-06).
Definition V121 : F := lit (-7.0686982208e-07).
Definition V221 : F := lit 1.4488066593e-06.
Definition V031 : F := lit 3.1134283336e-06.
Definition V131 : F := lit 7.9562529879e-08.
Definition V041 : F := lit (-5.6590253863e-07).
Definition V002 : F := lit 1.0500241168e-06.
Definition V102 : F := lit 1.9600661704e-06.
Definition V202 : F := lit (-2.1666693382e-06).
Definition V012 : F := lit (-3.8541359685e-06).
Definition V112 : F := lit 1.0157632247e-06.
Definition V022 : F := lit 1.7178343158e-06.
Definition V003 : F := lit (-4.1503454190e-07).
Definition V103 : F := lit 3.5627020989e-07.
Definition V013 : F := lit (-1.1293871415e-07).
Definition A000 : F := lit (-3.7374131601e-07).
Definition A100 : F := lit 7.9665872970e-07.
Definition A200 : F := lit (-9.5176719025e-07).
Definition A300 : F := lit 7.4546183908e-07.
Definition A400 : F := lit (-2.5028304913e-07).
Definition A500 : F := lit 2.6879827908e-08.
Definition A010 : F := lit 1.3773425769e-06.
Definition A110 : F := lit (-1.8298667100e-06).
Definition A210 : F := lit 1.7244577313e-06.
Definition A310 : F := lit (-8.8316270612e-07).
Definition A410 : F := lit 1.7982565968e-07.
Definition A020 : F := lit (-1.2380121746e-06).
Definition A120 : F := lit 1.8309269291e-06.
Definition A220 : F := lit (-1.0955055542e-06).
Definition A320 : F := lit 1.7470054992e-07.
Definition A030 : F := lit 6.7896174634e-07.
Definition A130 : F := lit (-8.7951832993e-07).
Definition A230 : F := lit 4.4249040774e-07.
Definition A040 : F := lit (-9.0669679187e-08).
Definition A140 : F := lit (-4.3350699006e-08).
Definition A050 : F := lit 2.8562048354e-08.
Definition A001 : F := lit 3.8389611552e-07.
Definition A101 : F := lit 5.2285305603e-08.
Definition A201 : F := lit (-1.4437869931e-07).
Definition A301 : F := lit 2.6918085852e-08.
Definition A011 : F := lit (-4.8329696508e-07).
Definition A111 : F := lit (-3.5343491104e-08).
Definition A211 : F := lit 7.2440332965e-08.
Definition A021 : F := lit 2.3350712502e-07.
Definition A121 : F := lit 5.9671897409e-09.
Definition A031 : F := lit (-5.6590253863e-08).
Definition A002 : F := lit (-9.6353399212e-08).
Definition A102 : F := lit 2.5394080617e-08.
Definition A012 : F := lit 8.5891715792e-08.
Definition A003 : F := lit (-2.8234678537e-09).
Definition B000 : F := lit 3.8896161405e-06.
Definition B100 : F := lit (-1.6824629831e-05).
Definition B200 : F := lit 3.2146372768e-05.
Definition B300 : F := lit (-2.9366928644e-05).
Definition B400 : F := lit 1.3376886957e-05.
Definition B500 : F := lit (-2.4394186796e-06).
Definition B010 : F := lit (-3.9645988657e-07).
Definition B110 : F := lit 9.4730026353e-07.
Definition B210 : F := lit (-1.1129447472e-06).
Definition B310 : F := lit 4.9821679257e-07.
Definition B410 : F := lit (-6.6884182186e-08).
Definition B020 : F := lit 4.5531965020e-07.
Definition B120 : F := lit (-8.5818216892e-07).
Definition B220 : F := lit 6.5926332049e-07.
Definition B320 : F := lit (-1.7898168433e-07).
Definition B030 : F := lit (-3.0372230734e-07).
Definition B130 : F := lit 3.6345467351e-07.
Definition B230 : F := lit (-8.6940314119e-08).
Definition B040 : F := lit 1.0942381108e-07.
Definition B140 : F := lit (-1.1010341714e-07).
Definition B050 : F := lit 4.3147241272e-09.
Definition B001 : F := lit (-2.6259371009e-07).
Definition B101 : F := lit 5.3056825249e-07.
Definition B201 : F := lit (-6.4748391553e-07).
Definition B301 : F := lit 2.1503303093e-07.
Definition B011 : F := lit (-2.6019957550e-08).
Definition B111 : F := lit 1.4370108710e-07.
Definition B211 : F := lit (-4.0187626893e-08).
Definition B021 : F := lit 8.7944033950e-09.
Definition B121 : F := lit (-3.6050174460e-08).
Definition B031 : F := lit (-9.8986399054e-10).
Definition B002 : F := lit (-2.4385837456e-08).
Definition B102 : F := lit 5.3912512852e-08.
Definition B012 : F := lit (-1.2637449319e-08).
Definition B003 : F := lit (-4.4324765969e-09).

Definition V_table : list (nat * nat * nat * F) :=
  [(0, 0, 0, V000); (1, 0, 0, V100); (2, 0, 0, V200);
   (3, 0, 0, V300); (4, 0, 0, V400); (5, 0, 0, V500);
   (6, 0, 0, V600); (0, 1, 0, V010); (1, 1, 0, V110);
   (2, 1, 0, V210); (3, 1, 0, V310); (4, 1, 0, V410);
   (5, 1, 0, V510); (0, 2, 0, V020); (1, 2, 0, V120);
   (2, 2, 0, V220); (3, 2, 0, V320); (4, 2, 0, V420);
   (0, 3, 0, V030); (1, 3, 0, V130); (2, 3, 0, V230);
   (3, 3, 0, V330); (0, 4, 0, V040); (1, 4, 0, V140);
   (2, 4, 0, V240); (0, 5, 0, V050); (1, 5, 0, V150);
   (0, 6, 0, V060); (0, 0, 1, V001); (1, 0, 1, V101);
   (2, 0, 1, V201); (3, 0, 1, V301); (4, 0, 1, V401);
   (0, 1, 1, V011); (1, 1, 1, V111); (2, 1, 1, V211);
   (3, 1, 1, V311); (0, 2, 1, V021); (1, 2, 1, V121);
   (2, 2, 1, V221); (0, 3, 1, V031); (1, 3, 1, V131);
   (0, 4, 1, V041); (0, 0, 2, V002); (1, 0, 2, V102);
   (2, 0, 2, V202); (0, 1, 2, V012); (1, 1, 2, V112);
   (0, 2, 2, V022); (0, 0, 3, V003); (1, 0, 3, V103);
   (0, 1, 3, V013)].
Definition A_table : list (nat * nat * nat * F) :=
  [(0, 0, 0, A000); (1, 0, 0, A100); (2, 0, 0, A200);
   (3, 0, 0, A300); (4, 0, 0, A400); (5, 0, 0, A500);
   (0, 1, 0, A010); (1, 1, 0, A110); (2, 1, 0, A210);
   (3, 1, 0, A310); (4, 1, 0, A410); (0, 2, 0, A020);
   (1, 2, 0, A120); (2, 2, 0, A220); (3, 2, 0, A320);
   (0, 3, 0, A030); (1, 3, 0, A130); (2, 3, 0, A230);
   (0, 4, 0, A040); (1, 4, 0, A140); (0, 5, 0, A050);
   (0, 0, 1, A001); (1, 0, 1, A101); (2, 0, 1, A201);
   (3, 0, 1, A301); (0, 1, 1, A011); (1, 1, 1, A111);
   (2, 1, 1, A211); (0, 2, 1, A021); (1, 2, 1, A121);
   (0, 3, 1, A031); (0, 0, 2, A002); (1, 0, 2, A102);
   (0, 1, 2, A012); (0, 0, 3, A003)].
Definition B_table : list (nat * nat * nat * F) :=
  [(0, 0, 0, B000); (1, 0, 0, B100); (2, 0, 0, B200);
   (3, 0, 0, B300); (4, 0, 0, B400); (5, 0, 0, B500);
   (0, 1, 0, B010); (1, 1, 0, B110); (2, 1, 0, B210);
   (3, 1, 0, B310); (4, 1, 0, B410); (0, 2, 0, B020);
   (1, 2, 0, B120); (2, 2, 0, B220); (3, 2, 0, B320);
   (0, 3, 0, B030); (1, 3, 0, B130); (2, 3, 0, B230);
   (0, 4, 0, B040); (1, 4, 0, B140); (0, 5, 0, B050);
   (0, 0, 1, B001); (1, 0, 1, B101); (2, 0, 1, B201);
   (3, 0, 1, B301); (0, 1, 1, B011); (1, 1, 1, B111);
   (2, 1, 1, B211); (0, 2, 1, B021); (1, 2, 1, B121);
   (0, 3, 1, B031); (0, 0, 2, B002); (1, 0, 2, B102);
   (0, 1, 2, B012); (0, 0, 3, B003)].
Definition V0_table : list (nat * F) :=
  [(0, V00); (1, V01); (2, V02); (3, V03); (4, V04); (5, V05)].

Definition polyTEOS10_55t (SA CT p : F) : F * F * F * F * F :=
  (* reduced variables *)
  let SAu := lit 40 * lit 35.16504 / lit 35 in
  let CTu := lit 40 in
  let Zu := lit 1e4 in
  let deltaS := lit 32 in
  let ss := fsqrt ( (SA+deltaS)/SAu ) in
  let tt := CT / CTu in
  let pp := p / Zu in
  (* vertical reference profile of specific volume *)
  let v0 := (((((V05*pp+V04)*pp+V03 )*pp+V02 )*pp+V01)*pp+V00)*pp in
  (* specific volume anomaly *)
  let vp3 := V013*tt+V103*ss+V003 in
  let vp2 := (V022*tt+V112*ss+V012)*tt+(V202*ss+V102)*ss+V002 in
  let vp1 := (((V041*tt+V131*ss+V031)*tt
    +   (V221*ss+V121)*ss+V021)*tt
    +  ((V311*ss+V211)*ss+V111)*ss+V011)*tt
    + (((V401*ss+V301)*ss+V201)*ss+V101)*ss+V001 in
  let vp0 := (((((V060*tt+V150*ss+V050)*tt
    +    (V240*ss+V140)*ss+V040)*tt
    +   ((V330*ss+V230)*ss+V130)*ss+V030)*tt
    +  (((V420*ss+V320)*ss+V220)*ss+V120)*ss+V020)*tt
    + ((((V510*ss+V410)*ss+V310)*ss+V210)*ss+V110)*ss+V010)*tt
    +(((((V600*ss+V500)*ss+V400)*ss+V300)*ss+V200)*ss+V100)*ss+V000 in
  let delta := ( ( vp3*pp + vp2 )*pp + vp1 )*pp + vp0 in
  (* specific volume *)
  let specvol := v0 + delta in
  (* alpha *)
  let ap3 := A003 in
  let ap2 := A012*tt + A102*ss+A002 in
  let ap1 := ((A031*tt+A121*ss+A021)*tt
    + (A211*ss+A111)*ss+A011)*tt
    + ((A301*ss+A201)*ss+A101)*ss+A001 in
  let ap0 := ((((A050*tt+A140*ss+A040)*tt
    + (A230*ss+A130)*ss+A030)*tt
    + ((A320*ss+A220)*ss+A120)*ss+A020)*tt
    + (((A410*ss+A310)*ss+A210)*ss+A110)*ss+A010)*tt
    + ((((A500*ss+A400)*ss+A300)*ss+A200)*ss+A100)*ss+A000 in
  let a := ( ( ap3*pp + ap2 )*pp + ap1 )*pp + ap0 in
  let alpha := a / specvol in
  (* beta *)
  let bp3 := B003 in
  let bp2 := B012*tt + B102*ss+B002 in
  let bp1 := ((B031*tt+B121*ss+B021)*tt
    + (B211*ss+B111)*ss+B011)*tt
    + ((B301*ss+B201)*ss+B101)*ss+B001 in
  let bp0 := ((((B050*tt+B140*ss+B040)*tt
    + (B230*ss+B130)*ss+B030)*tt
    + ((B320*ss+B220)*ss+B120)*ss+B020)*tt
    + (((B410*ss+B310)*ss+B210)*ss+B110)*ss+B010)*tt
    + ((((B500*ss+B400)*ss+B300)*ss+B200)*ss+B100)*ss+B000 in
  let b := ( ( bp3*pp + bp2 )*pp + bp1 )*pp + bp0 in
  let beta := b / ss / specvol in
  (specvol, alpha, beta, v0, delta).

End Evaluator.
End V55.

Module V75.
Section Evaluator.
Context {F : Type} {L : Lit F} {A : Arith F}.

Definition V00 : F := lit (-4.4015007269e-05).
Definition V01 : F := lit 6.9232335784e-06.
Definition V02 : F := lit (-7.5004675975e-07).
Definition V03 : F := lit 1.7009109288e-08.
Definition V04 : F := lit (-1.6884162004e-08).
Definition V05 : F := lit 1.9613503930e-09.
Definition V000 : F := lit 1.0769995862e-03.
Definition V100 : F := lit (-3.1038981976e-04).
Definition V200 : F := lit 6.6928067038e-04.
Definition V300 : F := lit (-8.5047933937e-04).
Definition V400 : F := lit 5.8086069943e-04.
Definition V500 : F := lit (-2.1092370507e-04).
Definition V600 : F := lit 3.1932457305e-05.
Definition V010 : F := lit (-1.5649734675e-05).
Definition V110 : F := lit 3.5009599764e-05.
Definition V210 : F := lit (-4.3592678561e-05).
Definition V310 : F := lit 3.4532461828e-05.
Definition V410 : F := lit (-1.1959409788e-05).
Definition V510 : F := lit 1.3864594581e-06.
Definition V020 : F := lit 2.7762106484e-05.
Definition V120 : F := lit (-3.7435842344e-05).
Definition V220 : F := lit 3.5907822760e-05.
Definition V320 : F := lit (-1.8698584187e-05).
Definition V420 : F := lit 3.8595339244e-06.
Definition V030 : F := lit (-1.6521159259e-05).
Definition V130 : F := lit 2.4141479483e-05.
Definition V230 : F := lit (-1.4353633048e-05).
Definition V330 : F := lit 2.2863324556e-06.
Definition V040 : F := lit 6.9111322702e-06.
Definition V140 : F := lit (-8.7595873154e-06).
Definition V240 : F := lit 4.3703680598e-06.
Definition V050 : F := lit (-8.0539615540e-07).
Definition V150 : F := lit (-3.3052758900e-07).
Definition V060 : F := lit 2.0543094268e-07.
Definition V001 : F := lit (-1.6784136540e-05).
Definition V101 : F := lit 2.4262468747e-05.
Definition V201 : F := lit (-3.4792460974e-05).
Definition V301 : F := lit 3.7470777305e-05.
Definition V401 : F := lit (-1.7322218612e-05).
Definition V501 : F := lit 3.0927427253e-06.
Definition V011 : F := lit 1.8505765429e-05.
Definition V111 : F := lit (-9.5677088156e-06).
Definition V211 : F := lit 1.1100834765e-05.
Definition V311 : F := lit (-9.8447117844e-06).
Definition V411 : F := lit 2.5909225260e-06.
Definition V021 : F := lit (-1.1716606853e-05).
Definition V121 : F := lit (-2.3678308361e-07).
Definition V221 : F := lit 2.9283346295e-06.
Definition V321 : F := lit (-4.8826139200e-07).
Definition V031 : F := lit 7.9279656173e-06.
Definition V131 : F := lit (-3.4558773655e-06).
Definition V231 : F := lit 3.1655306078e-07.
Definition V041 : F := lit (-3.4102187482e-06).
Definition V141 : F := lit 1.2956717783e-06.
Definition V051 : F := lit 5.0736766814e-07.
Definition V002 : F := lit 3.0623833435e-06.
Definition V102 : F := lit (-5.8484432984e-07).
Definition V202 : F := lit (-4.8122251597e-06).
Definition V302 : F := lit 4.9263106998e-06.
Definition V402 : F := lit (-1.7811974727e-06).
Definition V012 : F := lit (-1.1736386731e-06).
Definition V112 : F := lit (-5.5699154557e-06).
Definition V212 : F := lit 5.4620748834e-06.
Definition V312 : F := lit (-1.3544185627e-06).
Definition V022 : F := lit 2.1305028740e-06.
Definition V122 : F := lit 3.9137387080e-07.
Definition V222 : F := lit (-6.5731104067e-07).
Definition V032 : F := lit (-4.6132540037e-07).
Definition V132 : F := lit 7.7618888092e-09.
Definition V042 : F := lit (-6.3352916514e-08).
Definition V003 : F := lit (-3.8088938393e-07).
Definition V103 : F := lit 3.6310188515e-07.
Definition V203 : F := lit 1.6746303780e-08.
Definition V013 : F := lit (-3.6527006553e-07).
Definition V113 : F := lit (-2.7295696237e-07).
Definition V023 : F := lit 2.8695905159e-07.
Definition V004 : F := lit 8.8302421514e-08.
Definition V104 : F := lit (-1.1147125423e-07).
Definition V014 : F := lit 3.1454099902e-07.
Definition V005 : F := lit 4.2369007180e-09.
Definition A000 : F := lit (-3.9124336688e-07).
Definition A100 : F := lit 8.7523999410e-07.
Definition A200 : F := lit (-1.0898169640e-06).
Definition A300 : F := lit 8.6331154570e-07.
Definition A400 : F := lit (-2.9898524469e-07).
Definition A500 : F := lit 3.4661486454e-08.
Definition A010 : F := lit 1.3881053242e-06.
Definition A110 : F := lit (-1.8717921172e-06).
Definition A210 : F := lit 1.7953911380e-06.
Definition A310 : F := lit (-9.3492920933e-07).
Definition A410 : F := lit 1.9297669622e-07.
Definition A020 : F := lit (-1.2390869444e-06).
Definition A120 : F := lit 1.8106109612e-06.
Definition A220 : F := lit (-1.0765224786e-06).
Definition A320 : F := lit 1.7147493417e-07.
Definition A030 : F := lit 6.9111322702e-07.
Definition A130 : F := lit (-8.7595873154e-07).
Definition A230 : F := lit 4.3703680598e-07.
Definition A040 : F := lit (-1.0067451943e-07).
Definition A140 : F := lit (-4.1315948624e-08).
Definition A050 : F := lit 3.0814641402e-08.
Definition A001 : F := lit 4.6264413572e-07.
Definition A101 : F := lit (-2.3919272039e-07).
Definition A201 : F := lit 2.7752086911e-07.
Definition A301 : F := lit (-2.4611779461e-07).
Definition A401 : F := lit 6.4773063150e-08.
Definition A011 : F := lit (-5.8583034263e-07).
Definition A111 : F := lit (-1.1839154180e-08).
Definition A211 : F := lit 1.4641673148e-07.
Definition A311 : F := lit (-2.4413069600e-08).
Definition A021 : F := lit 5.9459742130e-07.
Definition A121 : F := lit (-2.5919080242e-07).
Definition A221 : F := lit 2.3741479559e-08.
Definition A031 : F := lit (-3.4102187482e-07).
Definition A131 : F := lit 1.2956717783e-07.
Definition A041 : F := lit 6.3420958518e-08.
Definition A002 : F := lit (-2.9340966828e-08).
Definition A102 : F := lit (-1.3924788639e-07).
Definition A202 : F := lit 1.3655187208e-07.
Definition A302 : F := lit (-3.3860464067e-08).
Definition A012 : F := lit 1.0652514370e-07.
Definition A112 : F := lit 1.9568693540e-08.
Definition A212 : F := lit (-3.2865552033e-08).
Definition A022 : F := lit (-3.4599405028e-08).
Definition A122 : F := lit 5.8214166069e-10.
Definition A032 : F := lit (-6.3352916514e-09).
Definition A003 : F := lit (-9.1317516382e-09).
Definition A103 : F := lit (-6.8239240593e-09).
Definition A013 : F := lit 1.4347952579e-08.
Definition A004 : F := lit 7.8635249756e-09.
Definition B000 : F := lit 3.8616633493e-06.
Definition B100 : F := lit (-1.6653488424e-05).
Definition B200 : F := lit 3.1743292000e-05.
Definition B300 : F := lit (-2.8906727363e-05).
Definition B400 : F := lit 1.3120861084e-05.
Definition B500 : F := lit (-2.3836941584e-06).
Definition B010 : F := lit (-4.3556611614e-07).
Definition B110 : F := lit 1.0847021286e-06.
Definition B210 : F := lit (-1.2888896515e-06).
Definition B310 : F := lit 5.9516403589e-07.
Definition B410 : F := lit (-8.6247024451e-08).
Definition B020 : F := lit 4.6575180991e-07.
Definition B120 : F := lit (-8.9348241648e-07).
Definition B220 : F := lit 6.9790598120e-07.
Definition B320 : F := lit (-1.9207099914e-07).
Definition B030 : F := lit (-3.0035220418e-07).
Definition B130 : F := lit 3.5715667939e-07.
Definition B230 : F := lit (-8.5335075632e-08).
Definition B040 : F := lit 1.0898094956e-07.
Definition B140 : F := lit (-1.0874641554e-07).
Definition B050 : F := lit 4.1122040579e-09.
Definition B001 : F := lit (-3.0185747199e-07).
Definition B101 : F := lit 8.6572923996e-07.
Definition B201 : F := lit (-1.3985593422e-06).
Definition B301 : F := lit 8.6204601419e-07.
Definition B401 : F := lit (-1.9238922270e-07).
Definition B011 : F := lit 1.1903505888e-07.
Definition B111 : F := lit (-2.7621838107e-07).
Definition B211 : F := lit 3.6744403581e-07.
Definition B311 : F := lit (-1.2893812777e-07).
Definition B021 : F := lit 2.9458973764e-09.
Definition B121 : F := lit (-7.2864777086e-08).
Definition B221 : F := lit 1.8223868848e-08.
Definition B031 : F := lit 4.2995723805e-08.
Definition B131 : F := lit (-7.8766845761e-09).
Definition B041 : F := lit (-1.6119885062e-08).
Definition B002 : F := lit 7.2762435164e-09.
Definition B102 : F := lit 1.1974099887e-07.
Definition B202 : F := lit (-1.8386962715e-07).
Definition B302 : F := lit 8.8641889138e-08.
Definition B012 : F := lit 6.9297177307e-08.
Definition B112 : F := lit (-1.3591099350e-07).
Definition B212 : F := lit 5.0552320246e-08.
Definition B022 : F := lit (-4.8692129590e-09).
Definition B122 : F := lit 1.6355652107e-08.
Definition B032 : F := lit (-9.6568249433e-11).
Definition B003 : F := lit (-4.5174717490e-09).
Definition B103 : F := lit (-4.1669270980e-10).
Definition B013 : F := lit 3.3959486762e-09.
Definition B004 : F := lit 1.3868510806e-09.

Definition V_table : list (nat * nat * nat * F) :=
  [(0, 0, 0, V000); (1, 0, 0, V100); (2, 0, 0, V200);
   (3, 0, 0, V300); (4, 0, 0, V400); (5, 0, 0, V500);
   (6, 0, 0, V600); (0, 1, 0, V010); (1, 1, 0, V110);
   (2, 1, 0, V210); (3, 1, 0, V310); (4, 1, 0, V410);
   (5, 1, 0, V510); (0, 2, 0, V020); (1, 2, 0, V120);
   (2, 2, 0, V220); (3, 2, 0, V320); (4, 2, 0, V420);
   (0, 3, 0, V030); (1, 3, 0, V130); (2, 3, 0, V230);
   (3, 3, 0, V330); (0, 4, 0, V040); (1, 4, 0, V140);
   (2, 4, 0, V240); (0, 5, 0, V050); (1, 5, 0, V150);
   (0, 6, 0, V060); (0, 0, 1, V001); (1, 0, 1, V101);
   (2, 0, 1, V201); (3, 0, 1, V301); (4, 0, 1, V401);
   (5, 0, 1, V501); (0, 1, 1, V011); (1, 1, 1, V111);
   (2, 1, 1, V211); (3, 1, 1, V311); (4, 1, 1, V411);
   (0, 2, 1, V021); (1, 2, 1, V121); (2, 2, 1, V221);
   (3, 2, 1, V321); (0, 3, 1, V031); (1, 3, 1, V131);
   (2, 3, 1, V231); (0, 4, 1, V041); (1, 4, 1, V141);
   (0, 5, 1, V051); (0, 0, 2, V002); (1, 0, 2, V102);
   (2, 0, 2, V202); (3, 0, 2, V302); (4, 0, 2, V402);
   (0, 1, 2, V012); (1, 1, 2, V112); (2, 1, 2, V212);
   (3, 1, 2, V312); (0, 2, 2, V022); (1, 2, 2, V122);
   (2, 2, 2, V222); (0, 3, 2, V032); (1, 3, 2, V132);
   (0, 4, 2, V042); (0, 0, 3, V003); (1, 0, 3, V103);
   (2, 0, 3, V203); (0, 1, 3, V013); (1, 1, 3, V113);
   (0, 2, 3, V023); (0, 0, 4, V004); (1, 0, 4, V104);
   (0, 1, 4, V014); (0, 0, 5, V005)].
Definition A_table : list (nat * nat * nat * F) :=
  [(0, 0, 0, A000); (1, 0, 0, A100); (2, 0, 0, A200);
   (3, 0, 0, A300); (4, 0, 0, A400); (5, 0, 0, A500);
   (0, 1, 0, A010); (1, 1, 0, A110); (2, 1, 0, A210);
   (3, 1, 0, A310); (4, 1, 0, A410); (0, 2, 0, A020);
   (1, 2, 0, A120); (2, 2, 0, A220); (3, 2, 0, A320);
   (0, 3, 0, A030); (1, 3, 0, A130); (2, 3, 0, A230);
   (0, 4, 0, A040); (1, 4, 0, A140); (0, 5, 0, A050);
   (0, 0, 1, A001); (1, 0, 1, A101); (2, 0, 1, A201);
   (3, 0, 1, A301); (4, 0, 1, A401); (0, 1, 1, A011);
   (1, 1, 1, A111); (2, 1, 1, A211); (3, 1, 1, A311);
   (0, 2, 1, A021); (1, 2, 1, A121); (2, 2, 1, A221);
   (0, 3, 1, A031); (1, 3, 1, A131); (0, 4, 1, A041);
   (0, 0, 2, A002); (1, 0, 2, A102); (2, 0, 2, A202);
   (3, 0, 2, A302); (0, 1, 2, A012); (1, 1, 2, A112);
   (2, 1, 2, A212); (0, 2, 2, A022); (1, 2, 2, A122);
   (0, 3, 2, A032); (0, 0, 3, A003); (1, 0, 3, A103);
   (0, 1, 3, A013); (0, 0, 4, A004)].
Definition B_table : list (nat * nat * nat * F) :=
  [(0, 0, 0, B000); (1, 0, 0, B100); (2, 0, 0, B200);
   (3, 0, 0, B300); (4, 0, 0, B400); (5, 0, 0, B500);
   (0, 1, 0, B010); (1, 1, 0, B110); (2, 1, 0, B210);
   (3, 1, 0, B310); (4, 1, 0, B410); (0, 2, 0, B020);
   (1, 2, 0, B120); (2, 2, 0, B220); (3, 2, 0, B320);
   (0, 3, 0, B030); (1, 3, 0, B130); (2, 3, 0, B230);
   (0, 4, 0, B040); (1, 4, 0, B140); (0, 5, 0, B050);
   (0, 0, 1, B001); (1, 0, 1, B101); (2, 0, 1, B201);
   (3, 0, 1, B301); (4, 0, 1, B401); (0, 1, 1, B011);
   (1, 1, 1, B111); (2, 1, 1, B211); (3, 1, 1, B311);
   (0, 2, 1, B021); (1, 2, 1, B121); (2, 2, 1, B221);
   (0, 3, 1, B031); (1, 3, 1, B131); (0, 4, 1, B041);
   (0, 0, 2, B002); (1, 0, 2, B102); (2, 0, 2, B202);
   (3, 0, 2, B302); (0, 1, 2, B012); (1, 1, 2, B112);
   (2, 1, 2, B212); (0, 2, 2, B022); (1, 2, 2, B122);
   (0, 3, 2, B032); (0, 0, 3, B003); (1, 0, 3, B103);
   (0, 1, 3, B013); (0, 0, 4, B004)].
Definition V0_table : list (nat * F) :=
  [(0, V00); (1, V01); (2, V02); (3, V03); (4, V04); (5, V05)].

Definition polyTEOS10_75t (SA CT p : F) : F * F * F * F * F :=
  (* reduced variables *)
  let SAu := lit 40 * lit 35.16504 / lit 35 in
  let CTu := lit 40 in
  let Zu := lit 1e4 in
  let deltaS := lit 32 in
  let ss := fsqrt ( (SA+deltaS)/SAu ) in
  let tt := CT / CTu in
  let pp := p / Zu in
  (* vertical reference profile of specific volume *)
  let v0 := (((((V05*pp+V04)*pp+V03 )*pp+V02 )*pp+V01)*pp+V00)*pp in
  (* specific volume anomaly *)
  let vp5 := V005 in
  let vp4 := V014*tt + V104*ss + V004 in
  let vp3 := ( V023*tt + V113*ss + V013 )*tt
    + ( V203*ss + V103 )*ss + V003 in
  let vp2 := ( ( ( V042*tt + V132*ss + V032 )*tt
    + ( V222*ss + V122 )*ss + V022 )*tt
    + ( ( V312*ss + V212 )*ss + V112 )*ss + V012 )*tt
    + ( ( ( V402*ss + V302 )*ss + V202 )*ss + V102 )*ss + V002 in
  let vp1 := ( ( ( ( V051*tt + V141*ss + V041 )*tt
    + ( V231*ss + V131 )*ss + V031 )*tt
    + ( ( V321*ss + V221 )*ss + V121 )*ss + V021 )*tt
    + ( ( ( V411*ss + V311 )*ss + V211 )*ss + V111 )*ss + V011 )*tt
    + ( ( ( ( V501*ss + V401 )*ss + V301 )*ss + V201 )*ss + V101 )*ss + V001 in
  let vp0 := ( ( ( ( ( V060*tt + V150*ss + V050 )*tt
    + ( V240*ss + V140 )*ss + V040 )*tt
    + ( ( V330*ss + V230 )*ss + V130 )*ss + V030 )*tt
    + ( ( ( V420*ss + V320 )*ss + V220 )*ss + V120 )*ss + V020 )*tt
    + ( ( ( ( V510*ss + V410 )*ss + V310 )*ss + V210 )*ss + V110 )*ss + V010 )*tt
    + ((((( V600*ss + V500 )*ss + V400 )*ss + V300 )*ss + V200 )*ss + V100 )*ss + V000 in
  let delta := ( ( ( ( vp5*pp + vp4 )*pp + vp3 )*pp + vp2 )*pp + vp1 )*pp + vp0 in
  (* specific volume *)
  let specvol := v0 + delta in
  (* alpha *)
  let ap4 := A004 in
  let ap3 := A013*tt+A103*ss+A003 in
  let ap2 := ((A032*tt+A122*ss+A022)*tt
    + (A212*ss+A112)*ss+A012)*tt
    + ((A302*ss+A202)*ss+A102)*ss+A002 in
  let ap1 := (((A041*tt+A131*ss+A031)*tt
    + (A221*ss+A121)*ss+A021)*tt
    + ((A311*ss+A211)*ss+A111)*ss+A011)*tt
    + (((A401*ss+A301)*ss+A201)*ss+A101)*ss+A001 in
  let ap0 := ((((A050*tt+A140*ss+A040)*tt
    + (A230*ss+A130)*ss+A030)*tt
    + ((A320*ss+A220)*ss+A120)*ss+A020)*tt
    + (((A410*ss+A310)*ss+A210)*ss+A110)*ss+A010)*tt
    + ((((A500*ss+A400)*ss+A300)*ss+A200)*ss+A100)*ss+A000 in
  let a := ( ( ( ap4*pp + ap3 )*pp + ap2 )*pp + ap1 )*pp + ap0 in
  let alpha := a / specvol in
  (* beta *)
  let bp4 := B004 in
  let bp3 := B013*tt+B103*ss+B003 in
  let bp2 := ((B032*tt+B122*ss+B022)*tt
    + (B212*ss+B112)*ss+B012)*tt
    + ((B302*ss+B202)*ss+B102)*ss+B002 in
  let bp1 := (((B041*tt+B131*ss+B031)*tt
    + (B221*ss+B121)*ss+B021)*tt
    + ((B311*ss+B211)*ss+B111)*ss+B011)*tt
    + (((B401*ss+B301)*ss+B201)*ss+B101)*ss+B001 in
  let bp0 := ((((B050*tt+B140*ss+B040)*tt
    + (B230*ss+B130)*ss+B030)*tt
    + ((B320*ss+B220)*ss+B120)*ss+B020)*tt
    + (((B410*ss+B310)*ss+B210)*ss+B110)*ss+B010)*tt
    + ((((B500*ss+B400)*ss+B300)*ss+B200)*ss+B100)*ss+B000 in
  let b := ( ( ( bp4*pp + bp3 )*pp + bp2 )*pp + bp1 )*pp + bp0 in
  let beta := b / ss / specvol in
  (specvol, alpha, beta, v0, delta).

End Evaluator.
End V75.


(** ** Interpretations *)

(** Rationals: literals only (the coefficient tables). *)
#[export] Instance Lit_Q : Lit Q := fun q => q.

(** Real numbers. *)
#[export] Instance Lit_R : Lit R := Q2R.
#[export] Instance Arith_R : Arith R :=
  {| fadd := Rplus; fmul := Rmult; fdiv := Rdiv; fsqrt := R_sqrt.sqrt |}.

(** Binary64.  An integer is converted by rounding to nearest; a decimal
    literal [n / 10^k] is the correctly rounded quotient of the two
    integers, both of which are binary64 numbers for every literal of the
    source. *)
Definition Z2F (z : Z) : float :=
  SF2Prim (binary_normalize prec emax z 0 false).
Definition float_of_Q (q : Q) : float :=
  PrimFloat.div (Z2F (Qnum q)) (Z2F (Zpos (Qden q))).
#[export] Instance Lit_float : Lit float := float_of_Q.
#[export] Instance Arith_float : Arith float :=
  {| fadd := PrimFloat.add; fmul := PrimFloat.mul; fdiv := PrimFloat.div;
     fsqrt := PrimFloat.sqrt |}.

(** ** Reading a binary64 value exactly *)

(** The rational a finite binary64 number denotes; [None] for an infinity
    or a NaN. *)
Definition SF2Q (x : spec_float) : option Q :=
  match x with
  | S754_zero _ => Some 0%Q
  | S754_finite s m e =>
      Some ((if s then Qopp else (fun q => q))
              (Qmult (inject_Z (Zpos m)) (Qpower 2 e)))
  | S754_infinity _ | S754_nan => None
  end.
Definition F2Q (x : float) : option Q := SF2Q (Prim2SF x).

(** [rel_err_le eps x c]: [x] is finite and [|x - c| <= eps * |c|]. *)
Definition rel_err_le (eps : Q) (x : float) (c : Q) : bool :=
  match F2Q x with
  | Some q => Qle_bool (Qabs (q - c)) (eps * Qabs c)
  | None => false
  end.

(** Agreement to 8 significant figures: a relative error of at most
    5e-9, which is no more than half a unit of the eighth significant
    figure of [c]. *)
Definition agrees8 (x : float) (c : Q) : bool := rel_err_le 5e-9 x c.

(** [nearest q x]: [x] is finite and strictly closer to [q] than both of
    its binary64 neighbours, so it is the round-to-nearest image of [q]. *)
Definition nearest (q : Q) (x : float) : bool :=
  match F2Q x, F2Q (next_down x), F2Q (next_up x) with
  | Some v, Some lo, Some hi =>
      negb (Qle_bool (Qabs (lo - q)) (Qabs (v - q))) &&
      negb (Qle_bool (Qabs (hi - q)) (Qabs (v - q)))
  | _, _, _ => false
  end.

(** Every decimal literal of the source, as a rational. *)
Definition coefficients3 : list (nat * nat * nat * Q) :=
  Bsq.R_table ++ Bsq.ALP_table ++ Bsq.BET_table ++
  Stif.R_table ++ Stif.ALP_table ++ Stif.BET_table ++
  V55.V_table ++ V55.A_table ++ V55.B_table ++
  V75.V_table ++ V75.A_table ++ V75.B_table.
Definition coefficients2 : list (nat * Q) :=
  Bsq.R0_table ++ Stif.R1_table ++ V55.V0_table ++ V75.V0_table.
Definition literals : list Q :=
  [40; 35.16504; 35; 1e4; 32; 1]%Q ++
  map snd coefficients2 ++ map snd coefficients3.

(** The check point of the source's documentation. *)
Definition SA_chk : float := lit 30.
Definition CT_chk : float := lit 10.
Definition p_chk : float := lit 1000.

(** ** Reduced variables and raw polynomials *)

(** The input reduction every evaluator starts with:
    s = sqrt((SA + 32) / SAu), t = CT / 40, p~ = p / 1e4. *)
Definition reduced {F : Type} {L : Lit F} {A : Arith F} (SA CT p : F)
    : F * F * F :=
  (fsqrt ((SA + lit 32) / (lit 40 * lit 35.16504 / lit 35)),
   CT / lit 40,
   p / lit 1e4).

(** The polynomial a coefficient table denotes over the reals: the sum of
    [c * s^i * t^j * p^k] over its entries [(i, j, k, c)]. *)
Definition poly3 (tbl : list (nat * nat * nat * R)) (s t p : R) : R :=
  fold_right
    (fun '(i, j, k, c) acc => (c * s ^ i * t ^ j * p ^ k + acc)%R) 0%R tbl.

(** The polynomial of a reference-profile table: the sum of [c * p^n]. *)
Definition poly1 (tbl : list (nat * R)) (p : R) : R :=
  fold_right (fun '(n, c) acc => (c * p ^ n + acc)%R) 0%R tbl.

(** ** Differentiating a table with respect to CT *)

(** The table of [- d/dCT] of the polynomial of [tbl], where t = CT / 40:
    an entry [(i, j+1, k, c)] gives [(i, j, k, scale (j+1) c)], with
    [scale n c] standing for [- (n / 40) * c]; an entry with t-power 0
    gives nothing. *)
Definition dCT_gen {F : Type} (scale : nat -> F -> F)
    (tbl : list (nat * nat * nat * F)) : list (nat * nat * nat * F) :=
  flat_map
    (fun '(i, j, k, c) =>
       match j with
       | O => []
       | S j' => [(i, j', k, scale j c)]
       end) tbl.

Definition scaleR (n : nat) (c : R) : R := (- (INR n / lit 40 * c))%R.
Definition scaleQ (n : nat) (c : Q) : Q :=
  (- (inject_Z (Z.of_nat n) / 40 * c))%Q.
Definition dCT_table := dCT_gen scaleR.
Definition dCT_tableQ := dCT_gen scaleQ.

Definition abs_table (tbl : list (nat * nat * nat * R))
    : list (nat * nat * nat * R) :=
  map (fun '(i, j, k, c) => (i, j, k, Rabs c)) tbl.

Definition toR (x : nat * nat * nat * Q) : nat * nat * nat * R :=
  let '(i, j, k, q) := x in (i, j, k, Q2R q).

(** Two entries carry the same powers and coefficients within a relative
    error [eps] of the second. *)
Definition close_entry (eps : R) (x y : nat * nat * nat * R) : Prop :=
  let '(i, j, k, a) := x in
  let '(i', j', k', b) := y in
  i = i' /\ j = j' /\ k = k' /\ (Rabs (a - b) <= eps * Rabs b)%R.

Definition close_entryQ (eps : Q) (x y : nat * nat * nat * Q) : bool :=
  let '(i, j, k, a) := x in
  let '(i', j', k', b) := y in
  Nat.eqb i i' && Nat.eqb j j' && Nat.eqb k k' &&
  Qle_bool (Qabs (a - b)) (eps * Qabs b).

Definition same_entryQ (x y : nat * nat * nat * Q) : bool :=
  let '(i, j, k, a) := x in
  let '(i', j', k', b) := y in
  Nat.eqb i i' && Nat.eqb j j' && Nat.eqb k k' && Qeq_bool a b.

Fixpoint all2 {X Y : Type} (f : X -> Y -> bool) (xs : list X) (ys : list Y)
    : bool :=
  match xs, ys with
  | [], [] => true
  | x :: xs', y :: ys' => f x y && all2 f xs' ys'
  | _, _ => false
  end.

Fixpoint count2 {X Y : Type} (f : X -> Y -> bool) (xs : list X) (ys : list Y)
    : nat :=
  match xs, ys with
  | x :: xs', y :: ys' => ((if f x y then 1 else 0) + count2 f xs' ys')%nat
  | _, _ => O
  end.

(** The relative tolerance 5e-11 on the ALP coefficients. *)
Definition eps11 : R := Q2R 5e-11.

(** The polynomial of a rational table at a rational point. *)
Fixpoint qpow (q : Q) (n : nat) : Q :=
  match n with
  | O => 1%Q
  | S n' => (q * qpow q n')%Q
  end.
Definition poly3Q (tbl : list (nat * nat * nat * Q)) (s t p : Q) : Q :=
  fold_right
    (fun '(i, j, k, c) acc =>
       (c * qpow s i * qpow t j * qpow p k + acc)%Q) 0%Q tbl.

(** The salinity at which s = 1. *)
Definition SA_unit : R := (lit 40 * lit 35.16504 / lit 35 - lit 32)%R.

(** ** Binary64 numbers through their specification *)

(** [bndSF k x]: [x] is zero, or finite with [|x| < 2^k]. *)
Definition bndSF (k : Z) (x : spec_float) : Prop :=
  match x with
  | S754_zero _ => True
  | S754_finite _ m e => (Zpos (digits2_pos m) + e <= k)%Z
  | S754_infinity _ | S754_nan => False
  end.

(** [signedSF s lo x]: [x] is not zero and has sign [s]; it is infinite or
    has an exponent of at least [lo]. *)
Definition signedSF (s : bool) (lo : Z) (x : spec_float) : Prop :=
  match x with
  | S754_finite s' _ e => s' = s /\ (lo <= e)%Z
  | S754_infinity s' => s' = s
  | S754_zero _ | S754_nan => False
  end.

(** [fbnd k x]: the binary64 number [x] is finite and [|x| < 2^k]. *)
Definition fbnd (k : Z) (x : float) : Prop := bndSF k (Prim2SF x).

(** The exponents a bound may take without leaving the format. *)
Definition in_range (k : Z) : bool :=
  ((SpecFloat.emin prec emax <=? k) && (k <? emax))%Z.

(** The binade of a finite number: the least [k] with [|x| < 2^k]. *)
Definition magSF (x : spec_float) : option Z :=
  match x with
  | S754_zero _ => Some 0%Z
  | S754_finite _ m e => Some (Zpos (digits2_pos m) + e)%Z
  | S754_infinity _ | S754_nan => None
  end.

(** The constants of the input reduction, in binary64. *)
Definition SF_m32 : spec_float := Eval vm_compute in Prim2SF (-32)%float.
Definition SF_32 : spec_float :=
  Eval vm_compute in Prim2SF (lit 32 : float).
Definition SF_SAu : spec_float :=
  Eval vm_compute in
    Prim2SF (PrimFloat.div (PrimFloat.mul (lit 40) (lit 35.16504)) (lit 35)).

(** The largest magnitude of CT and of p for which the outputs are shown
    finite at s = 0. *)
Definition max_magnitude : float := lit 1e22.
(** ** Differentiating a table with respect to SA *)

(** The table of [d/ds] of the polynomial of [tbl], entry by entry: an
    entry [(i+1, j, k, c)] gives [(i, j, k, scale (i+1) c)]; an entry with
    s-power 0 gives nothing. *)
Definition ds_gen {F : Type} (scale : nat -> F -> F)
    (tbl : list (nat * nat * nat * F)) : list (nat * nat * nat * F) :=
  flat_map
    (fun '(i, j, k, c) =>
       match i with
       | O => []
       | S i' => [(i', j, k, scale i c)]
       end) tbl.

(** The salinity unit SAu = 40 * 35.16504 / 35. *)
Definition SAu_R : R := (lit 40 * lit 35.16504 / lit 35)%R.
Definition SAu_Q : Q := (40 * 35.16504 / 35)%Q.

(** [sign * (n / 40) * c], the factor a t-power brings down, and
    [sign * (n / (2 SAu)) * c], the factor an s-power brings down once
    d s / d SA = 1 / (2 s SAu) is taken out as [1 / s]. *)
Definition scale_t_R (neg : bool) (n : nat) (c : R) : R :=
  ((if neg then Ropp else (fun x => x)) (INR n / lit 40 * c))%R.
Definition scale_t_Q (neg : bool) (n : nat) (c : Q) : Q :=
  ((if neg then Qopp else (fun x => x))
     (inject_Z (Z.of_nat n) / 40 * c))%Q.
Definition scale_s_R (neg : bool) (n : nat) (c : R) : R :=
  ((if neg then Ropp else (fun x => x)) (INR n / (2 * SAu_R) * c))%R.
Definition scale_s_Q (neg : bool) (n : nat) (c : Q) : Q :=
  ((if neg then Qopp else (fun x => x))
     (inject_Z (Z.of_nat n) / (2 * SAu_Q) * c))%Q.

(** The relative tolerance 1e-10 on the derivative coefficients. *)
Definition eps10 : R := Q2R 1e-10.

(** [lowerSF lo x]: [x] is positive, possibly +infinity, and at least
    [2^(lo-1)]. *)
Definition lowerSF (lo : Z) (x : spec_float) : Prop :=
  match x with
  | S754_finite false m e => (lo <= Zpos (digits2_pos m) + e)%Z
  | S754_infinity false => True
  | _ => False
  end.

(** * Properties *)

(** ** Literals *)

(** Each literal of the source is read as the binary64 number nearest to
    the decimal it spells, as Python reads it. *)
Lemma literals_correctly_rounded :
  forallb (fun q => nearest q (lit q)) literals = true.
Proof. vm_compute. reflexivity. Qed.

Lemma literals_count : length literals = 570%nat.
Proof. reflexivity. Qed.

(** ** C1: documented check values *)

(** C1.  At the documented check point SA = 30 g/kg, CT = 10 degC,
    p = 1000 dbar, evaluated in binary64: [polyTEOS10_bsq] and
    [polyTEOS10_stif] return their five documented check values to 8
    significant figures, and both specific-volume evaluators return the
    documented [v0]; but [specvol], [alpha], [beta] and [delta] of
    [polyTEOS10_55t] and of [polyTEOS10_75t] all miss their documented
    check values by more than one part in a thousand. *)
Theorem check_values_at_check_point :
  (let '(rho, a, b, r0, r) := Bsq.polyTEOS10_bsq SA_chk CT_chk p_chk in
   agrees8 rho 1027.45140 = true /\
   agrees8 a 0.179646281 = true /\
   agrees8 b 0.765555368 = true /\
   agrees8 r0 4.59763035 = true /\
   agrees8 r 1022.85377 = true) /\
  (let '(rho, a, b, r1, rdot) := Stif.polyTEOS10_stif SA_chk CT_chk p_chk in
   agrees8 rho 1027.45140 = true /\
   agrees8 a 0.179649406 = true /\
   agrees8 b 0.765554495 = true /\
   agrees8 r1 1.00447333 = true /\
   agrees8 rdot 1022.87574 = true) /\
  (let '(specvol, alpha, beta, v0, delta) :=
     V55.polyTEOS10_55t SA_chk CT_chk p_chk in
   agrees8 v0 (-4.333016903e-06) = true /\
   rel_err_le 1e-3 specvol 9.732820466e-04 = false /\
   rel_err_le 1e-3 alpha 1.748553121e-04 = false /\
   rel_err_le 1e-3 beta 7.450974025e-04 = false /\
   rel_err_le 1e-3 delta 9.776150635e-04 = false) /\
  (let '(specvol, alpha, beta, v0, delta) :=
     V75.polyTEOS10_75t SA_chk CT_chk p_chk in
   agrees8 v0 (-4.333016903e-06) = true /\
   rel_err_le 1e-3 specvol 9.732819628e-04 = false /\
   rel_err_le 1e-3 alpha 1.748439401e-04 = false /\
   rel_err_le 1e-3 beta 7.451213159e-04 = false /\
   rel_err_le 1e-3 delta 9.776149797e-04 = false).
Proof. vm_compute. repeat split. Qed.

(** The values the two specific-volume evaluators return at the check
    point, to 8 significant figures. *)
Lemma specvol_values_at_check_point :
  (let '(specvol, alpha, beta, v0, delta) :=
     V55.polyTEOS10_55t SA_chk CT_chk p_chk in
   agrees8 specvol 9.675107108e-04 = true /\
   agrees8 alpha 1.931663962e-04 = true /\
   agrees8 beta 7.417788630e-04 = true /\
   agrees8 delta 9.718437277e-04 = true) /\
  (let '(specvol, alpha, beta, v0, delta) :=
     V75.polyTEOS10_75t SA_chk CT_chk p_chk in
   agrees8 specvol 9.675104744e-04 = true /\
   agrees8 alpha 1.931648083e-04 = true /\
   agrees8 beta 7.417912141e-04 = true /\
   agrees8 delta 9.718434913e-04 = true).
Proof. vm_compute. repeat split. Qed.

(** The documented check values of [polyTEOS10_55t] are the values it
    returns at SA = 22 g/kg: its salinity offset [deltaS = 32] is 8 g/kg
    more than the offset the documented values were computed with.  At
    that input [polyTEOS10_75t] returns its documented [specvol], [v0]
    and [delta]. *)
Lemma specvol_check_values_at_shifted_salinity :
  (let '(specvol, alpha, beta, v0, delta) :=
     V55.polyTEOS10_55t (lit 22) CT_chk p_chk in
   agrees8 specvol 9.732820466e-04 = true /\
   agrees8 alpha 1.748553121e-04 = true /\
   agrees8 beta 7.450974025e-04 = true /\
   agrees8 v0 (-4.333016903e-06) = true /\
   agrees8 delta 9.776150635e-04 = true) /\
  (let '(specvol, alpha, beta, v0, delta) :=
     V75.polyTEOS10_75t (lit 22) CT_chk p_chk in
   agrees8 specvol 9.732819628e-04 = true /\
   agrees8 v0 (-4.333016903e-06) = true /\
   agrees8 delta 9.776149797e-04 = true).
Proof. vm_compute. repeat split. Qed.

(** ** Binary64 addition and multiplication commute *)

Lemma SFadd_comm (x y : spec_float) :
  SFadd prec emax x y = SFadd prec emax y x.
Proof.
  destruct x as [sx | sx | | sx mx ex], y as [sy | sy | | sy my ey];
    try reflexivity; try (destruct sx, sy; reflexivity).
  unfold SFadd. rewrite (Z.min_comm ex ey). f_equal. apply Z.add_comm.
Qed.

Lemma SFmul_comm (x y : spec_float) :
  SFmul prec emax x y = SFmul prec emax y x.
Proof.
  destruct x as [sx | sx | | sx mx ex], y as [sy | sy | | sy my ey];
    try reflexivity; try (destruct sx, sy; reflexivity).
  unfold SFmul.
  rewrite (Pos.mul_comm mx my), (Z.add_comm ex ey), (xorb_comm sx sy).
  reflexivity.
Qed.

Lemma float_add_comm (x y : float) : PrimFloat.add x y = PrimFloat.add y x.
Proof.
  apply Prim2SF_inj. rewrite !add_spec. apply SFadd_comm.
Qed.

Lemma float_mul_comm (x y : float) : PrimFloat.mul x y = PrimFloat.mul y x.
Proof.
  apply Prim2SF_inj. rewrite !mul_spec. apply SFmul_comm.
Qed.

(** ** C2: decomposition identities *)

(** C2.  Over the real numbers, for every input with SA >= -32, each
    evaluator's outputs satisfy its decomposition identity exactly:
    rho = r0 + r, rho = r1 * rdot, and specvol = v0 + delta (twice). *)
Theorem decomposition_identity (SA CT p : R) :
  (-32 <= SA)%R ->
  (let '(rho, a, b, r0, r) := Bsq.polyTEOS10_bsq SA CT p in
   rho = (r0 + r)%R) /\
  (let '(rho, a, b, r1, rdot) := Stif.polyTEOS10_stif SA CT p in
   rho = (r1 * rdot)%R) /\
  (let '(specvol, alpha, beta, v0, delta) := V55.polyTEOS10_55t SA CT p in
   specvol = (v0 + delta)%R) /\
  (let '(specvol, alpha, beta, v0, delta) := V75.polyTEOS10_75t SA CT p in
   specvol = (v0 + delta)%R).
Proof.
  intros _. split; [apply Rplus_comm | ].
  split; [reflexivity | ]. split; reflexivity.
Qed.

Lemma decomposition_identity_witness :
  (-32 <= 30)%R /\
  (let '(rho, a, b, r0, r) := Bsq.polyTEOS10_bsq 30%R 10%R 1000%R in
   rho = (r0 + r)%R) /\
  (let '(rho, a, b, r1, rdot) := Stif.polyTEOS10_stif 30%R 10%R 1000%R in
   rho = (r1 * rdot)%R) /\
  (let '(specvol, alpha, beta, v0, delta) :=
     V55.polyTEOS10_55t 30%R 10%R 1000%R in
   specvol = (v0 + delta)%R) /\
  (let '(specvol, alpha, beta, v0, delta) :=
     V75.polyTEOS10_75t 30%R 10%R 1000%R in
   specvol = (v0 + delta)%R).
Proof.
  split; [lra | apply (decomposition_identity 30 10 1000); lra].
Defined.

(** In binary64 the identities hold bit for bit, for every input (also
    for an input that makes the outputs NaN or infinite). *)
Lemma decomposition_identity_binary64 (SA CT p : float) :
  (let '(rho, a, b, r0, r) := Bsq.polyTEOS10_bsq SA CT p in
   rho = PrimFloat.add r0 r) /\
  (let '(rho, a, b, r1, rdot) := Stif.polyTEOS10_stif SA CT p in
   rho = PrimFloat.mul r1 rdot) /\
  (let '(specvol, alpha, beta, v0, delta) := V55.polyTEOS10_55t SA CT p in
   specvol = PrimFloat.add v0 delta) /\
  (let '(specvol, alpha, beta, v0, delta) := V75.polyTEOS10_75t SA CT p in
   specvol = PrimFloat.add v0 delta).
Proof.
  split; [apply float_add_comm | ].
  split; [reflexivity | ]. split; reflexivity.
Qed.

(** ** C5: intercepts of the reference profiles *)

(** C5.  At p = 0, for every SA and CT, [polyTEOS10_bsq] returns r0 = 0
    and [polyTEOS10_stif] returns r1 = 1, over the real numbers and in
    binary64. *)
Theorem reference_intercepts :
  (forall SA CT : R,
     (let '(rho, a, b, r0, r) := Bsq.polyTEOS10_bsq SA CT 0%R in r0 = 0%R) /\
     (let '(rho, a, b, r1, rdot) := Stif.polyTEOS10_stif SA CT 0%R in
      r1 = 1%R)) /\
  (forall SA CT : float,
     (let '(rho, a, b, r0, r) := Bsq.polyTEOS10_bsq SA CT 0%float in
      r0 = 0%float) /\
     (let '(rho, a, b, r1, rdot) := Stif.polyTEOS10_stif SA CT 0%float in
      r1 = 1%float)).
Proof.
  split; intros SA CT; split.
  - cbv beta iota zeta delta
      [Bsq.polyTEOS10_bsq fadd fmul fdiv fsqrt Arith_R].
    unfold Rdiv. ring.
  - cbv beta iota zeta delta
      [Stif.polyTEOS10_stif fadd fmul fdiv fsqrt Arith_R].
    replace (lit 1 : R) with 1%R by (unfold lit, Lit_R, Q2R; simpl; field).
    unfold Rdiv. ring.
  - vm_compute. reflexivity.
  - vm_compute. reflexivity.
Qed.

(** At p = -0 (which compares equal to 0) the intercepts are -0, equal to
    0 as a number, and 1. *)
Lemma reference_intercepts_negative_zero (SA CT : float) :
  (let '(rho, a, b, r0, r) := Bsq.polyTEOS10_bsq SA CT (-0)%float in
   PrimFloat.eqb r0 0%float = true) /\
  (let '(rho, a, b, r1, rdot) := Stif.polyTEOS10_stif SA CT (-0)%float in
   r1 = 1%float).
Proof. split; vm_compute; reflexivity. Qed.

(** ** C8: the reference output depends on p alone *)

(** C8.  Over any carrier, two calls of an evaluator with the same p
    return the same reference component (r0, r1, v0, v0), whatever SA
    and CT are. *)
Theorem reference_depends_on_pressure_only
    {F : Type} {L : Lit F} {A : Arith F} (SA CT SA' CT' p : F) :
  (let '(rho, a, b, r0, r) := Bsq.polyTEOS10_bsq SA CT p in r0) =
  (let '(rho, a, b, r0, r) := Bsq.polyTEOS10_bsq SA' CT' p in r0) /\
  (let '(rho, a, b, r1, rdot) := Stif.polyTEOS10_stif SA CT p in r1) =
  (let '(rho, a, b, r1, rdot) := Stif.polyTEOS10_stif SA' CT' p in r1) /\
  (let '(specvol, alpha, beta, v0, delta) := V55.polyTEOS10_55t SA CT p in
   v0) =
  (let '(specvol, alpha, beta, v0, delta) := V55.polyTEOS10_55t SA' CT' p in
   v0) /\
  (let '(specvol, alpha, beta, v0, delta) := V75.polyTEOS10_75t SA CT p in
   v0) =
  (let '(specvol, alpha, beta, v0, delta) := V75.polyTEOS10_75t SA' CT' p in
   v0).
Proof. repeat split. Qed.

(** ** C9: the two specific-volume evaluators share v0 *)

(** C9.  Over any carrier and for every input, [polyTEOS10_55t] and
    [polyTEOS10_75t] return the same v0, and their six V00..V05
    coefficients are the same. *)
Theorem v0_shared_by_55t_and_75t
    {F : Type} {L : Lit F} {A : Arith F} (SA CT p : F) :
  (let '(specvol, alpha, beta, v0, delta) := V55.polyTEOS10_55t SA CT p in
   v0) =
  (let '(specvol, alpha, beta, v0, delta) := V75.polyTEOS10_75t SA CT p in
   v0) /\
  V55.V0_table (F:=F) = V75.V0_table.
Proof. split; reflexivity. Qed.

(** ** The evaluators as polynomials of their tables *)

Lemma Rdiv_mult_distr (x s v : R) : (x / (s * v) = x / s / v)%R.
Proof. unfold Rdiv. rewrite Rinv_mult. ring. Qed.

(** Unfold an evaluator over the reals, keeping its coefficients and its
    reduced variables as atoms. *)
Ltac expose_R :=
  cbv beta iota zeta delta
    [Bsq.polyTEOS10_bsq Stif.polyTEOS10_stif
     V55.polyTEOS10_55t V75.polyTEOS10_75t reduced
     fadd fmul fdiv fsqrt Arith_R];
  repeat match goal with
  | |- context [R_sqrt.sqrt ?x] =>
      let s := fresh "s" in set (s := R_sqrt.sqrt x)
  end;
  repeat match goal with
  | |- context [(?x / @lit R Lit_R ?q)%R] =>
      let t := fresh "t" in set (t := (x / @lit R Lit_R q)%R)
  end.

Ltac expand_poly3 :=
  cbv beta iota delta
    [poly3 fold_right
     Bsq.R_table Bsq.ALP_table Bsq.BET_table
     Stif.R_table Stif.ALP_table Stif.BET_table
     V55.V_table V55.A_table V55.B_table
     V75.V_table V75.A_table V75.B_table].

Lemma lit_1_R : (lit 1 : R) = 1%R.
Proof. unfold lit, Lit_R, Q2R. simpl. field. Qed.

Ltac expand_poly1 :=
  cbv beta iota delta
    [poly1 fold_right Bsq.R0_table Stif.R1_table V55.V0_table V75.V0_table].

(** Over the reals the nested products of [polyTEOS10_bsq] are the
    polynomials its coefficient names spell. *)
Lemma bsq_as_polynomials (SA CT p : R) :
  let '(s, t, pt) := reduced SA CT p in
  let '(rho, a, b, r0, r) := Bsq.polyTEOS10_bsq SA CT p in
  r0 = (poly1 Bsq.R0_table pt * pt)%R /\
  r = poly3 Bsq.R_table s t pt /\
  a = poly3 Bsq.ALP_table s t pt /\
  b = (poly3 Bsq.BET_table s t pt / s)%R.
Proof.
  expose_R. expand_poly3. expand_poly1. unfold Rdiv. repeat split; ring.
Qed.

Lemma stif_as_polynomials (SA CT p : R) :
  let '(s, t, pt) := reduced SA CT p in
  let '(rho, a, b, r1, rdot) := Stif.polyTEOS10_stif SA CT p in
  r1 = (poly1 Stif.R1_table pt * pt + 1)%R /\
  rdot = poly3 Stif.R_table s t pt /\
  a = (r1 * poly3 Stif.ALP_table s t pt)%R /\
  b = (poly3 Stif.BET_table s t pt * r1 / s)%R.
Proof.
  expose_R. expand_poly3. expand_poly1. rewrite lit_1_R. unfold Rdiv.
  repeat split; ring.
Qed.

Lemma t55_as_polynomials (SA CT p : R) :
  let '(s, t, pt) := reduced SA CT p in
  let '(specvol, alpha, beta, v0, delta) := V55.polyTEOS10_55t SA CT p in
  v0 = (poly1 V55.V0_table pt * pt)%R /\
  delta = poly3 V55.V_table s t pt /\
  alpha = (poly3 V55.A_table s t pt / specvol)%R /\
  beta = (poly3 V55.B_table s t pt / s / specvol)%R.
Proof.
  expose_R. expand_poly3. expand_poly1. unfold Rdiv. repeat split; ring.
Qed.

Lemma t75_as_polynomials (SA CT p : R) :
  let '(s, t, pt) := reduced SA CT p in
  let '(specvol, alpha, beta, v0, delta) := V75.polyTEOS10_75t SA CT p in
  v0 = (poly1 V75.V0_table pt * pt)%R /\
  delta = poly3 V75.V_table s t pt /\
  alpha = (poly3 V75.A_table s t pt / specvol)%R /\
  beta = (poly3 V75.B_table s t pt / s / specvol)%R.
Proof.
  expose_R. expand_poly3. expand_poly1. unfold Rdiv. repeat split; ring.
Qed.

(** ** C6, C7: how the derivative outputs are scaled *)

(** C6.  Over the reals, with (s, t, p~) the reduced variables:
    [polyTEOS10_stif] returns a = r1 * a_raw and b = r1 * b_raw / s, where
    a_raw and b_raw are the polynomials of its ALP and BET tables;
    [polyTEOS10_bsq] returns a = a_raw and b = b_raw / s for its own
    tables, with no further factor. *)
Theorem density_derivative_scaling (SA CT p : R) :
  let '(s, t, pt) := reduced SA CT p in
  (let '(rho, a, b, r1, rdot) := Stif.polyTEOS10_stif SA CT p in
   a = (r1 * poly3 Stif.ALP_table s t pt)%R /\
   b = (r1 * poly3 Stif.BET_table s t pt / s)%R) /\
  (let '(rho, a, b, r0, r) := Bsq.polyTEOS10_bsq SA CT p in
   a = poly3 Bsq.ALP_table s t pt /\
   b = (poly3 Bsq.BET_table s t pt / s)%R).
Proof.
  expose_R. expand_poly3. unfold Rdiv. repeat split; ring.
Qed.

(** For a salinity above -32 the reduced salinity s is positive. *)
Lemma reduced_salinity_positive (SA CT p : R) :
  (-32 < SA)%R -> let '(s, t, pt) := reduced SA CT p in (0 < s)%R.
Proof.
  intros H. unfold reduced, fadd, fmul, fdiv, fsqrt, Arith_R.
  apply sqrt_lt_R0. apply Rdiv_lt_0_compat.
  - unfold lit, Lit_R, Q2R. simpl. lra.
  - unfold lit, Lit_R, Q2R. simpl. lra.
Qed.

(** The specific volume is returned as the sum v0 + delta. *)
Lemma t55_specvol_is_sum (SA CT p : R) :
  let '(specvol, alpha, beta, v0, delta) := V55.polyTEOS10_55t SA CT p in
  specvol = (v0 + delta)%R.
Proof. reflexivity. Qed.

Lemma t75_specvol_is_sum (SA CT p : R) :
  let '(specvol, alpha, beta, v0, delta) := V75.polyTEOS10_75t SA CT p in
  specvol = (v0 + delta)%R.
Proof. reflexivity. Qed.

(** C7.  Over the reals, for every input with SA > -32, with (s, t, p~)
    the reduced variables: s is positive, and in both specific-volume
    evaluators, with v the specific-volume polynomial
    sum_k V0k p~^(k+1) + sum_ijk Vijk s^i t^j p~^k, the outputs satisfy
    specvol = v0 + delta = v, alpha = a_raw / v and
    beta = b_raw / s / v = b_raw / (s * v), where a_raw and b_raw are the
    polynomials of the A and B tables.  The code divides b_raw by s and
    then by v; over the reals that is the division by s * v. *)
Theorem specvol_derivative_normalization (SA CT p : R) :
  (-32 < SA)%R ->
  let '(s, t, pt) := reduced SA CT p in
  (0 < s)%R /\
  (let v := (poly1 V55.V0_table pt * pt + poly3 V55.V_table s t pt)%R in
   let '(specvol, alpha, beta, v0, delta) := V55.polyTEOS10_55t SA CT p in
   specvol = (v0 + delta)%R /\ (v0 + delta)%R = v /\
   alpha = (poly3 V55.A_table s t pt / v)%R /\
   beta = (poly3 V55.B_table s t pt / s / v)%R /\
   beta = (poly3 V55.B_table s t pt / (s * v))%R) /\
  (let v := (poly1 V75.V0_table pt * pt + poly3 V75.V_table s t pt)%R in
   let '(specvol, alpha, beta, v0, delta) := V75.polyTEOS10_75t SA CT p in
   specvol = (v0 + delta)%R /\ (v0 + delta)%R = v /\
   alpha = (poly3 V75.A_table s t pt / v)%R /\
   beta = (poly3 V75.B_table s t pt / s / v)%R /\
   beta = (poly3 V75.B_table s t pt / (s * v))%R).
Proof.
  intros H.
  generalize (reduced_salinity_positive SA CT p H)
             (t55_as_polynomials SA CT p) (t75_as_polynomials SA CT p)
             (t55_specvol_is_sum SA CT p) (t75_specvol_is_sum SA CT p).
  destruct (reduced SA CT p) as [[s t] pt].
  destruct (V55.polyTEOS10_55t SA CT p) as [[[[v5 a5] b5] v05] d5].
  destruct (V75.polyTEOS10_75t SA CT p) as [[[[v7 a7] b7] v07] d7].
  intros Hs (H05 & Hd5 & Ha5 & Hb5) (H07 & Hd7 & Ha7 & Hb7) E5 E7.
  cbv zeta. split; [exact Hs |]. split.
  - rewrite <- H05, <- Hd5, <- E5.
    split; [reflexivity |]. split; [reflexivity |].
    split; [exact Ha5 |]. split; [exact Hb5 |].
    rewrite Rdiv_mult_distr. exact Hb5.
  - rewrite <- H07, <- Hd7, <- E7.
    split; [reflexivity |]. split; [reflexivity |].
    split; [exact Ha7 |]. split; [exact Hb7 |].
    rewrite Rdiv_mult_distr. exact Hb7.
Qed.

Lemma specvol_derivative_normalization_witness :
  (-32 < 30)%R /\
  let '(s, t, pt) := reduced 30%R 10%R 1000%R in
  (0 < s)%R /\
  (let v := (poly1 V55.V0_table pt * pt + poly3 V55.V_table s t pt)%R in
   let '(specvol, alpha, beta, v0, delta) :=
     V55.polyTEOS10_55t 30%R 10%R 1000%R in
   specvol = (v0 + delta)%R /\ (v0 + delta)%R = v /\
   alpha = (poly3 V55.A_table s t pt / v)%R /\
   beta = (poly3 V55.B_table s t pt / s / v)%R /\
   beta = (poly3 V55.B_table s t pt / (s * v))%R) /\
  (let v := (poly1 V75.V0_table pt * pt + poly3 V75.V_table s t pt)%R in
   let '(specvol, alpha, beta, v0, delta) :=
     V75.polyTEOS10_75t 30%R 10%R 1000%R in
   specvol = (v0 + delta)%R /\ (v0 + delta)%R = v /\
   alpha = (poly3 V75.A_table s t pt / v)%R /\
   beta = (poly3 V75.B_table s t pt / s / v)%R /\
   beta = (poly3 V75.B_table s t pt / (s * v))%R).
Proof.
  split; [lra | apply (specvol_derivative_normalization 30 10 1000); lra].
Defined.

(** ** C3: thermal expansion against the derivative of the density *)

Lemma lit40_neq_0 : (lit 40 : R) <> 0%R.
Proof. unfold lit, Lit_R, Q2R. simpl. lra. Qed.

Lemma derivable_pt_lim_val (f : R -> R) (x l l' : R) :
  derivable_pt_lim f x l -> l = l' -> derivable_pt_lim f x l'.
Proof. intros H <-. exact H. Qed.

Lemma derivable_pt_lim_pow_scaled (c x : R) (n : nat) :
  c <> 0%R ->
  derivable_pt_lim (fun ct => ((ct / c) ^ n)%R) x
    (INR n / c * (x / c) ^ pred n)%R.
Proof.
  intros Hc.
  apply derivable_pt_lim_val
    with (l := (INR n * (x / c) ^ pred n * (1 * / c))%R).
  - apply (derivable_pt_lim_comp (fun ct => (ct / c)%R) (fun y => (y ^ n)%R)).
    + apply derivable_pt_lim_ext with (f := (id * fct_cte (/ c))%F).
      * intros z. reflexivity.
      * apply derivable_pt_lim_val
          with (l := (1 * fct_cte (/ c) x + id x * 0)%R).
        -- apply derivable_pt_lim_mult.
           ++ apply derivable_pt_lim_id.
           ++ apply derivable_pt_lim_const.
        -- unfold fct_cte, id. ring.
    + apply derivable_pt_lim_pow.
  - field. exact Hc.
Qed.

(** The polynomial of [dCT_table tbl] is minus the CT-derivative of the
    polynomial of [tbl]. *)
Lemma poly3_derivative (tbl : list (nat * nat * nat * R)) (s p x : R) :
  derivable_pt_lim (fun ct => poly3 tbl s (ct / lit 40) p) x
    (- poly3 (dCT_table tbl) s (x / lit 40) p)%R.
Proof.
  induction tbl as [| [[[i j] k] c] tl IH].
  - simpl. apply derivable_pt_lim_val with (l := 0%R); [| ring].
    apply (derivable_pt_lim_const 0 x).
  - change (poly3 ((i, j, k, c) :: tl) s) with
      (fun t q => (c * s ^ i * t ^ j * q ^ k + poly3 tl s t q)%R).
    cbv beta.
    destruct j as [| j'].
    + change (dCT_table ((i, O, k, c) :: tl)) with (dCT_table tl).
      apply derivable_pt_lim_val with
        (l := (0 + - poly3 (dCT_table tl) s (x / lit 40) p)%R); [| ring].
      apply (derivable_pt_lim_plus
               (fct_cte (c * s ^ i * (x / lit 40) ^ 0 * p ^ k)%R)
               (fun ct => poly3 tl s (ct / lit 40) p)).
      * apply derivable_pt_lim_const.
      * exact IH.
    + change (dCT_table ((i, S j', k, c) :: tl)) with
        ((i, j', k, scaleR (S j') c) :: dCT_table tl).
      change (poly3 ((i, j', k, scaleR (S j') c) :: dCT_table tl)
                s (x / lit 40) p) with
        (scaleR (S j') c * s ^ i * (x / lit 40) ^ j' * p ^ k
          + poly3 (dCT_table tl) s (x / lit 40) p)%R.
      apply derivable_pt_lim_val with
        (l := ((c * s ^ i * p ^ k)
                 * (INR (S j') / lit 40 * (x / lit 40) ^ pred (S j'))
               + - poly3 (dCT_table tl) s (x / lit 40) p)%R).
      * apply (derivable_pt_lim_plus
                 (fun ct => (c * s ^ i * (ct / lit 40) ^ S j' * p ^ k)%R)
                 (fun ct => poly3 tl s (ct / lit 40) p)); [| exact IH].
        apply derivable_pt_lim_ext with
          (f := mult_real_fct (c * s ^ i * p ^ k)%R
                  (fun ct => ((ct / lit 40) ^ S j')%R)).
        { intros z. unfold mult_real_fct. ring. }
        apply derivable_pt_lim_scal.
        apply derivable_pt_lim_pow_scaled. apply lit40_neq_0.
      * unfold scaleR. simpl pred. ring.
Qed.

(** Tables that are close entry by entry denote polynomials that are
    close. *)
Lemma poly3_close (eps : R) (A B : list (nat * nat * nat * R)) (s t p : R) :
  (0 <= eps)%R ->
  Forall2 (close_entry eps) A B ->
  (Rabs (poly3 A s t p - poly3 B s t p)
   <= eps * poly3 (abs_table B) (Rabs s) (Rabs t) (Rabs p))%R.
Proof.
  intros Heps H.
  induction H as [| [[[i j] k] a] [[[i' j'] k'] b] A B Hab HAB IH].
  - simpl. rewrite Rminus_diag, Rabs_R0. lra.
  - destruct Hab as (<- & <- & <- & Hab).
    change (poly3 ((i, j, k, a) :: A) s t p) with
      (a * s ^ i * t ^ j * p ^ k + poly3 A s t p)%R.
    change (poly3 ((i, j, k, b) :: B) s t p) with
      (b * s ^ i * t ^ j * p ^ k + poly3 B s t p)%R.
    change (poly3 (abs_table ((i, j, k, b) :: B)) (Rabs s) (Rabs t) (Rabs p))
      with (Rabs b * Rabs s ^ i * Rabs t ^ j * Rabs p ^ k
            + poly3 (abs_table B) (Rabs s) (Rabs t) (Rabs p))%R.
    replace (a * s ^ i * t ^ j * p ^ k + poly3 A s t p
             - (b * s ^ i * t ^ j * p ^ k + poly3 B s t p))%R
      with ((a - b) * (s ^ i * t ^ j * p ^ k)
            + (poly3 A s t p - poly3 B s t p))%R by ring.
    eapply Rle_trans; [apply Rabs_triang |].
    rewrite Rabs_mult, !RPow_abs.
    assert (Hm : (0 <= Rabs (s ^ i * t ^ j * p ^ k))%R) by apply Rabs_pos.
    replace (Rabs b * Rabs (s ^ i) * Rabs (t ^ j) * Rabs (p ^ k))%R
      with (Rabs b * Rabs (s ^ i * t ^ j * p ^ k))%R
      by (rewrite !Rabs_mult; ring).
    assert (H1 := Rmult_le_compat_r _ _ _ Hm Hab).
    lra.
Qed.

(** *** From rational tables to real tables *)

Lemma Q2R_Qabs (q : Q) : Q2R (Qabs q) = Rabs (Q2R q).
Proof.
  destruct (Qlt_le_dec q 0) as [Hq | Hq].
  - rewrite (Qeq_eqR _ _ (Qabs_neg q (Qlt_le_weak _ _ Hq))), Q2R_opp.
    apply Qlt_Rlt in Hq. rewrite RMicromega.Q2R_0 in Hq.
    rewrite Rabs_left; lra.
  - rewrite (Qeq_eqR _ _ (Qabs_pos q Hq)).
    apply Qle_Rle in Hq. rewrite RMicromega.Q2R_0 in Hq.
    rewrite Rabs_right; lra.
Qed.

Lemma Q2R_of_nat (n : nat) : Q2R (inject_Z (Z.of_nat n)) = INR n.
Proof.
  unfold Q2R. simpl. rewrite <- INR_IZR_INZ. field.
Qed.

Lemma Q2R_scaleQ (n : nat) (c : Q) : Q2R (scaleQ n c) = scaleR n (Q2R c).
Proof.
  unfold scaleQ, scaleR, lit, Lit_R.
  rewrite Q2R_opp, Q2R_mult, Q2R_div, Q2R_of_nat; [reflexivity |].
  discriminate.
Qed.

Lemma dCT_table_toR (tbl : list (nat * nat * nat * Q)) :
  map toR (dCT_tableQ tbl) = dCT_table (map toR tbl).
Proof.
  induction tbl as [| [[[i j] k] c] tl IH]; [reflexivity |].
  destruct j as [| j'].
  - exact IH.
  - change (toR (i, j', k, scaleQ (S j') c) :: map toR (dCT_tableQ tl)
            = (i, j', k, scaleR (S j') (Q2R c)) :: dCT_table (map toR tl)).
    rewrite IH. unfold toR. rewrite Q2R_scaleQ. reflexivity.
Qed.

Lemma close_entryQ_sound (eps : Q) (x y : nat * nat * nat * Q) :
  close_entryQ eps x y = true -> close_entry (Q2R eps) (toR x) (toR y).
Proof.
  destruct x as [[[i j] k] a], y as [[[i' j'] k'] b]. unfold close_entryQ.
  rewrite !andb_true_iff, !Nat.eqb_eq, Qle_bool_iff.
  intros [[[Hi Hj] Hk] H]. repeat split; try assumption.
  apply Qle_Rle in H.
  rewrite Q2R_Qabs, Q2R_mult, Q2R_Qabs, Q2R_minus in H. exact H.
Qed.

Lemma all2_close_sound (eps : Q) (A B : list (nat * nat * nat * Q)) :
  all2 (close_entryQ eps) A B = true ->
  Forall2 (close_entry (Q2R eps)) (map toR A) (map toR B).
Proof.
  revert B. induction A as [| x A IH]; intros [| y B] H;
    try discriminate; simpl in *.
  - constructor.
  - apply andb_true_iff in H as [Hxy H].
    constructor; [apply close_entryQ_sound; exact Hxy | apply IH; exact H].
Qed.

(** In rational arithmetic: the ALP table lists the same powers, in the
    same order, as the differentiated R table, and each ALP coefficient is
    within 5e-11 (relative) of [-(j+1)/40] times the matching R
    coefficient; 8 of the 35 are equal to it. *)
Lemma bsq_ALP_table_rounded :
  all2 (close_entryQ 5e-11) Bsq.ALP_table (dCT_tableQ Bsq.R_table) = true /\
  length (Bsq.ALP_table (F:=Q)) = 35%nat /\
  count2 same_entryQ Bsq.ALP_table (dCT_tableQ Bsq.R_table) = 8%nat.
Proof. vm_compute. repeat split. Qed.

Lemma bsq_ALP_table_close :
  Forall2 (close_entry eps11) Bsq.ALP_table (dCT_table Bsq.R_table).
Proof.
  change (Bsq.ALP_table (F:=R)) with (map toR Bsq.ALP_table).
  change (Bsq.R_table (F:=R)) with (map toR Bsq.R_table).
  rewrite <- dCT_table_toR. apply all2_close_sound.
  apply bsq_ALP_table_rounded.
Qed.

Lemma eps11_nonneg : (0 <= eps11)%R.
Proof. unfold eps11, Q2R. simpl. lra. Qed.

(** The density of [polyTEOS10_bsq] as a function of CT. *)
Lemma bsq_density_derivative (SA CT p : R) :
  let '(s, t, pt) := reduced SA CT p in
  derivable_pt_lim
    (fun ct => let '(rho, a, b, r0, r) := Bsq.polyTEOS10_bsq SA ct p in
               (r0 + r)%R)
    CT (- poly3 (dCT_table Bsq.R_table) s t pt)%R.
Proof.
  cbv beta iota delta [reduced].
  set (s := fsqrt _). set (pt := p / lit 1e4).
  apply derivable_pt_lim_ext with
    (f := (fct_cte (poly1 Bsq.R0_table pt * pt)%R
           + (fun ct => poly3 Bsq.R_table s (ct / lit 40) pt))%F).
  - intros ct. unfold plus_fct, fct_cte.
    generalize (bsq_as_polynomials SA ct p).
    cbv beta iota delta [reduced]. fold s. fold pt.
    destruct (Bsq.polyTEOS10_bsq SA ct p) as [[[[rho a] b] r0] r].
    intros (-> & -> & _). reflexivity.
  - apply derivable_pt_lim_val with
      (l := (0 + - poly3 (dCT_table Bsq.R_table) s (CT / lit 40) pt)%R).
    + apply derivable_pt_lim_plus.
      * apply derivable_pt_lim_const.
      * apply poly3_derivative.
    + unfold fdiv, Arith_R. ring.
Qed.

Lemma Q2R_qpow (q : Q) (n : nat) : Q2R (qpow q n) = (Q2R q ^ n)%R.
Proof.
  induction n as [| n IH]; simpl.
  - apply RMicromega.Q2R_1.
  - rewrite Q2R_mult, IH. reflexivity.
Qed.

Lemma Q2R_poly3Q (tbl : list (nat * nat * nat * Q)) (s t p : Q) :
  Q2R (poly3Q tbl s t p) = poly3 (map toR tbl) (Q2R s) (Q2R t) (Q2R p).
Proof.
  induction tbl as [| [[[i j] k] c] tl IH]; simpl.
  - apply RMicromega.Q2R_0.
  - rewrite Q2R_plus, !Q2R_mult, !Q2R_qpow. unfold poly3 in IH.
    rewrite IH. reflexivity.
Qed.

(** C3, as amended.  For every input with SA > -32, over the reals, with
    (s, t, p~) the reduced variables: s is positive; the density r0 + r
    of [polyTEOS10_bsq] is differentiable in CT and minus its derivative
    is the polynomial d of the table with entries -(j+1)/40 * R(i, j+1, k);
    each of the 35 ALP coefficients agrees with its entry to a relative
    error of at most 5e-11, and 8 of them are equal to it; and the output
    a differs from d by at most 5e-11 times the sum of
    |entry| * |s|^i * |t|^j * |p~|^k. *)
Theorem bsq_thermal_expansion_rounded_derivative (SA CT p : R) :
  (-32 < SA)%R ->
  let '(s, t, pt) := reduced SA CT p in
  let d := poly3 (dCT_table Bsq.R_table) s t pt in
  (0 < s)%R /\
  derivable_pt_lim
    (fun ct => let '(rho, a, b, r0, r) := Bsq.polyTEOS10_bsq SA ct p in
               (r0 + r)%R)
    CT (- d)%R /\
  Forall2 (close_entry eps11) Bsq.ALP_table (dCT_table Bsq.R_table) /\
  length (Bsq.ALP_table (F:=Q)) = 35%nat /\
  count2 same_entryQ Bsq.ALP_table (dCT_tableQ Bsq.R_table) = 8%nat /\
  (let '(rho, a, b, r0, r) := Bsq.polyTEOS10_bsq SA CT p in
   (Rabs (a - d)
    <= eps11 * poly3 (abs_table (dCT_table Bsq.R_table))
                 (Rabs s) (Rabs t) (Rabs pt))%R).
Proof.
  intros H.
  generalize (reduced_salinity_positive SA CT p H)
             (bsq_density_derivative SA CT p) (bsq_as_polynomials SA CT p).
  cbv beta iota delta [reduced].
  set (s := fsqrt _). set (t := CT / lit 40). set (pt := p / lit 1e4).
  destruct (Bsq.polyTEOS10_bsq SA CT p) as [[[[rho a] b] r0] r].
  intros Hs Hd (_ & _ & -> & _). cbv zeta.
  split; [exact Hs |].
  split; [exact Hd |]. split; [exact bsq_ALP_table_close |].
  split; [exact (proj1 (proj2 bsq_ALP_table_rounded)) |].
  split; [exact (proj2 (proj2 bsq_ALP_table_rounded)) |].
  apply poly3_close; [exact eps11_nonneg | exact bsq_ALP_table_close].
Qed.

Lemma bsq_thermal_expansion_rounded_derivative_witness :
  (-32 < 30)%R /\
  let '(s, t, pt) := reduced 30%R 10%R 1000%R in
  let d := poly3 (dCT_table Bsq.R_table) s t pt in
  (0 < s)%R /\
  derivable_pt_lim
    (fun ct => let '(rho, a, b, r0, r) :=
                 Bsq.polyTEOS10_bsq 30%R ct 1000%R in
               (r0 + r)%R)
    10%R (- d)%R /\
  Forall2 (close_entry eps11) Bsq.ALP_table (dCT_table Bsq.R_table) /\
  length (Bsq.ALP_table (F:=Q)) = 35%nat /\
  count2 same_entryQ Bsq.ALP_table (dCT_tableQ Bsq.R_table) = 8%nat /\
  (let '(rho, a, b, r0, r) := Bsq.polyTEOS10_bsq 30%R 10%R 1000%R in
   (Rabs (a - d)
    <= eps11 * poly3 (abs_table (dCT_table Bsq.R_table))
                 (Rabs s) (Rabs t) (Rabs pt))%R).
Proof.
  split;
    [lra | apply (bsq_thermal_expansion_rounded_derivative 30 10 1000); lra].
Defined.

Lemma reduced_unit : reduced SA_unit 0%R 0%R = (Q2R 1, Q2R 0, Q2R 0).
Proof.
  unfold reduced, SA_unit, fadd, fmul, fdiv, fsqrt, Arith_R.
  rewrite RMicromega.Q2R_1, RMicromega.Q2R_0.
  replace ((lit 40 * lit 35.16504 / lit 35 - lit 32 + lit 32)
           / (lit 40 * lit 35.16504 / lit 35))%R with 1%R.
  - rewrite sqrt_1. unfold Rdiv. rewrite !Rmult_0_l. reflexivity.
  - unfold lit, Lit_R, Q2R. simpl. field.
Qed.

(** C3 fails as stated: at SA = SAu - 32 (which is above -32 and makes
    s = 1), CT = 0, p = 0 the output a of [polyTEOS10_bsq] is not minus
    the CT-derivative of r0 + r; and ALP010 is not -(2/40) * R020. *)
Lemma bsq_thermal_expansion_not_exact_derivative :
  (-32 < SA_unit)%R /\
  ~ derivable_pt_lim
      (fun ct => let '(rho, a, b, r0, r) :=
                   Bsq.polyTEOS10_bsq SA_unit ct 0%R in
                 (r0 + r)%R)
      0%R
      (- (let '(rho, a, b, r0, r) := Bsq.polyTEOS10_bsq SA_unit 0%R 0%R in
          a))%R /\
  ~ (Bsq.ALP010 == - (2 # 40) * Bsq.R020)%Q.
Proof.
  split; [| split].
  - unfold SA_unit, lit, Lit_R, Q2R. simpl. lra.
  - intros H.
    generalize (bsq_density_derivative SA_unit 0%R 0%R)
               (bsq_as_polynomials SA_unit 0%R 0%R).
    rewrite reduced_unit.
    destruct (Bsq.polyTEOS10_bsq SA_unit 0%R 0%R) as [[[[rho a] b] r0] r].
    intros Hd (_ & _ & Ha & _).
    assert (E := uniqueness_limite _ _ _ _ H Hd).
    apply Ropp_eq_compat in E. rewrite !Ropp_involutive in E.
    rewrite Ha in E.
    change (Bsq.ALP_table (F:=R)) with (map toR Bsq.ALP_table) in E.
    change (Bsq.R_table (F:=R)) with (map toR Bsq.R_table) in E.
    rewrite <- dCT_table_toR, <- !Q2R_poly3Q in E.
    apply eqR_Qeq in E. apply Qeq_bool_iff in E.
    vm_compute in E. discriminate E.
  - intros E. apply Qeq_bool_iff in E. vm_compute in E. discriminate E.
Qed.

(** * Binary64 arithmetic *)

Open Scope Z_scope.
(** ** Binary64 numbers through their specification *)

(** The number of binary digits of a mantissa. *)
Lemma digits2_pos_bounds (p : positive) :
  2 ^ (Zpos (digits2_pos p) - 1) <= Zpos p < 2 ^ Zpos (digits2_pos p).
Proof.
  induction p as [p IH | p IH |]; simpl digits2_pos.
  - rewrite Pos2Z.inj_succ.
    replace (Z.succ (Zpos (digits2_pos p)) - 1)
      with (Z.succ (Zpos (digits2_pos p) - 1)) by lia.
    rewrite !Z.pow_succ_r by lia. lia.
  - rewrite Pos2Z.inj_succ.
    replace (Z.succ (Zpos (digits2_pos p)) - 1)
      with (Z.succ (Zpos (digits2_pos p) - 1)) by lia.
    rewrite !Z.pow_succ_r by lia. lia.
  - simpl. lia.
Qed.

Lemma Zdigits2_nonneg (m : Z) : 0 <= Zdigits2 m.
Proof. destruct m; simpl; lia. Qed.

Lemma Zdigits2_pos (m : Z) : 0 < m -> 0 < Zdigits2 m.
Proof. destruct m; simpl; lia. Qed.

Lemma Zdigits2_upper (m : Z) : 0 <= m -> m < 2 ^ Zdigits2 m.
Proof.
  destruct m as [| p | p]; intros H; [simpl; lia | | lia].
  apply digits2_pos_bounds.
Qed.

Lemma Zdigits2_lower (m : Z) : 0 < m -> 2 ^ (Zdigits2 m - 1) <= m.
Proof.
  destruct m as [| p | p]; intros H; [lia | | lia].
  apply digits2_pos_bounds.
Qed.

Lemma Zdigits2_le (m k : Z) : 0 <= m -> 0 <= k -> m < 2 ^ k -> Zdigits2 m <= k.
Proof.
  intros Hm Hk H.
  destruct (Z.eq_dec m 0) as [-> | Hne]; [simpl; lia |].
  assert (Hl := Zdigits2_lower m ltac:(lia)).
  destruct (Z_le_gt_dec (Zdigits2 m) k) as [Hle | Hgt]; [exact Hle |].
  exfalso.
  assert (2 ^ k <= 2 ^ (Zdigits2 m - 1)) by (apply Z.pow_le_mono_r; lia).
  lia.
Qed.

(** Shifting a mantissa right. *)
Lemma shr_1_m (mrs : shr_record) :
  0 <= shr_m mrs -> shr_m (shr_1 mrs) = shr_m mrs / 2.
Proof.
  destruct mrs as [m r s]. cbn [shr_m]. intros Hm.
  destruct m as [| [p | p |] | p]; cbn [shr_1 shr_m]; try lia.
  - reflexivity.
  - apply Z.div_unique with (r := 1); lia.
  - apply Z.div_unique with (r := 0); lia.
  - reflexivity.
Qed.

Lemma iter_pos_shr_1_m (p : positive) (mrs : shr_record) :
  0 <= shr_m mrs ->
  shr_m (iter_pos shr_1 p mrs) = shr_m mrs / 2 ^ Zpos p.
Proof.
  revert mrs. induction p as [p IH | p IH |]; intros mrs Hm; simpl iter_pos.
  - assert (H1 : 0 <= shr_m (shr_1 mrs)).
    { rewrite shr_1_m by assumption. apply Z.div_pos; lia. }
    assert (H2 : 0 <= shr_m (iter_pos shr_1 p (shr_1 mrs))).
    { rewrite IH by assumption. apply Z.div_pos; lia. }
    rewrite IH, IH, shr_1_m by assumption.
    rewrite !Z.div_div by lia.
    replace (Zpos p~1) with (1 + Zpos p + Zpos p) by lia.
    rewrite !Z.pow_add_r by lia. f_equal. ring.
  - assert (H2 : 0 <= shr_m (iter_pos shr_1 p mrs)).
    { rewrite IH by assumption. apply Z.div_pos; lia. }
    rewrite IH, IH by assumption.
    rewrite !Z.div_div by lia.
    replace (Zpos p~0) with (Zpos p + Zpos p) by lia.
    rewrite !Z.pow_add_r by lia. f_equal.
  - rewrite shr_1_m by assumption. reflexivity.
Qed.

Lemma shr_record_of_loc_m (m : Z) (l : location) :
  shr_m (shr_record_of_loc m l) = m.
Proof. destruct l as [| []]; reflexivity. Qed.

(** [shr_fexp] either leaves the mantissa alone or divides it by the
    power of two that brings the exponent to [fexp]. *)
Lemma shr_fexp_spec (m e : Z) (l : location) :
  0 <= m ->
  let n := fexp prec emax (Zdigits2 m + e) - e in
  let '(mrs, e') := shr_fexp prec emax m e l in
  (n <= 0 /\ shr_m mrs = m /\ e' = e) \/
  (0 < n /\ shr_m mrs = m / 2 ^ n /\ e' = e + n).
Proof.
  intros Hm n. unfold shr_fexp, shr. fold n.
  destruct n as [| p | p] eqn:En.
  - left. rewrite shr_record_of_loc_m. lia.
  - right. rewrite iter_pos_shr_1_m, shr_record_of_loc_m
      by (rewrite shr_record_of_loc_m; exact Hm). lia.
  - left. rewrite shr_record_of_loc_m. lia.
Qed.

Ltac unfold_fexp := unfold fexp, SpecFloat.emin, prec, emax in *.

Lemma div_pow2_digits (m n : Z) :
  0 <= m -> 0 < n -> Zdigits2 (m / 2 ^ n) <= Z.max (Zdigits2 m - n) 0.
Proof.
  intros Hm Hn.
  assert (Hd := Zdigits2_nonneg m). assert (Hu := Zdigits2_upper m Hm).
  assert (Hp : 0 < 2 ^ n) by (apply Z.pow_pos_nonneg; lia).
  apply Zdigits2_le; [apply Z.div_pos; lia | lia |].
  apply Z.div_lt_upper_bound; [lia |].
  rewrite <- Z.pow_add_r by lia.
  eapply Z.lt_le_trans; [exact Hu |].
  apply Z.pow_le_mono_r; lia.
Qed.

Lemma shr_fexp_facts (m e : Z) (l : location) :
  0 <= m ->
  let '(mrs, e') := shr_fexp prec emax m e l in
  0 <= shr_m mrs /\
  e' = Z.max e (fexp prec emax (Zdigits2 m + e)) /\
  Zdigits2 (shr_m mrs) + e'
    <= Z.max (Zdigits2 m + e) (fexp prec emax (Zdigits2 m + e)) /\
  (0 < m -> SpecFloat.emin prec emax <= e -> 0 < shr_m mrs).
Proof.
  intros Hm. generalize (shr_fexp_spec m e l Hm). cbv zeta.
  destruct (shr_fexp prec emax m e l) as [mrs e'].
  set (d := Zdigits2 m). set (f := fexp prec emax (d + e)).
  intros [(Hn & -> & ->) | (Hn & -> & ->)].
  - fold d. repeat split; try lia.
  - assert (Hp : 0 < 2 ^ (f - e)) by (apply Z.pow_pos_nonneg; lia).
    assert (Hdig := div_pow2_digits m (f - e) Hm Hn). fold d in Hdig.
    repeat split; try lia.
    + apply Z.div_pos; lia.
    + intros Hpos He. apply Z.div_str_pos. split; [lia |].
      assert (Hl := Zdigits2_lower m Hpos). fold d in Hl.
      eapply Z.le_trans; [| exact Hl].
      apply Z.pow_le_mono_r; [lia |].
      subst f. unfold_fexp. lia.
Qed.

Lemma round_nearest_even_bounds (m : Z) (l : location) :
  m <= round_nearest_even m l <= m + 1.
Proof.
  destruct l as [| []]; simpl; try lia. destruct (Z.even m); lia.
Qed.

Lemma Zdigits2_succ (m m' : Z) :
  0 <= m -> m <= m' <= m + 1 -> Zdigits2 m' <= Zdigits2 m + 1.
Proof.
  intros Hm Hm'. assert (Hd := Zdigits2_nonneg m).
  assert (Hu := Zdigits2_upper m Hm).
  apply Zdigits2_le; [lia | lia |].
  rewrite Z.pow_add_r by lia. lia.
Qed.

(** The outcome of [binary_round_aux] on a nonnegative mantissa: its
    sign is the one given; the exponent does not decrease; the magnitude
    grows by at most one binade; and a positive mantissa at an exponent
    of at least [emin] is not rounded to zero. *)
Lemma binary_round_aux_facts (sx : bool) (mx ex : Z) (lx : location) :
  0 <= mx ->
  exists m3 e3 : Z,
    binary_round_aux prec emax sx mx ex lx =
      match m3 with
      | Z0 => S754_zero sx
      | Zpos m => if e3 <=? emax - prec then S754_finite sx m e3
                  else S754_infinity sx
      | Zneg _ => S754_nan
      end /\
    0 <= m3 /\ ex <= e3 /\
    (forall K, Zdigits2 mx + ex <= K -> SpecFloat.emin prec emax <= K ->
       Zdigits2 m3 + e3 <= K + 1 /\
       (K < emax -> ex <= emax - prec -> e3 <= emax - prec)) /\
    (0 < mx -> SpecFloat.emin prec emax <= ex -> 0 < m3).
Proof.
  intros Hm. unfold binary_round_aux.
  generalize (shr_fexp_facts mx ex lx Hm).
  destruct (shr_fexp prec emax mx ex lx) as [mrs1 e1].
  intros (H1 & He1 & Hmag1 & Hpos1).
  set (m1 := shr_m mrs1) in *.
  set (m2 := round_nearest_even m1 (loc_of_shr_record mrs1)).
  assert (Hm2 := round_nearest_even_bounds m1 (loc_of_shr_record mrs1)).
  fold m2 in Hm2.
  assert (H2 : 0 <= m2) by lia.
  assert (Hd2 := Zdigits2_succ m1 m2 H1 Hm2).
  generalize (shr_fexp_facts m2 e1 loc_Exact H2).
  destruct (shr_fexp prec emax m2 e1 loc_Exact) as [mrs3 e3].
  intros (H3 & He3 & Hmag3 & Hpos3).
  exists (shr_m mrs3), e3. split; [reflexivity |].
  split; [exact H3 |]. split; [lia |]. split.
  - intros K HK HKmin. unfold_fexp. lia.
  - intros Hpos He. apply Hpos3; [| lia].
    specialize (Hpos1 Hpos He). lia.
Qed.

(** *** Classification *)

Lemma Prim2SF_nan : Prim2SF nan = S754_nan.
Proof. reflexivity. Qed.

Lemma SF_nan_inv (x : float) : Prim2SF x = S754_nan -> x = nan.
Proof. intros H. apply Prim2SF_inj. rewrite H. reflexivity. Qed.

Lemma SFeqb_refl_finite (s : bool) (m : positive) (e : Z) :
  SFeqb (S754_finite s m e) (S754_finite s m e) = true.
Proof.
  unfold SFeqb, SFcompare.
  destruct s; rewrite Z.compare_refl, Pos.compare_cont_refl; reflexivity.
Qed.

Lemma is_finite_SF (x : float) :
  is_finite x =
  match Prim2SF x with
  | S754_zero _ | S754_finite _ _ _ => true
  | S754_infinity _ | S754_nan => false
  end.
Proof.
  unfold is_finite, is_nan, is_infinity.
  rewrite !eqb_spec, abs_spec.
  change (Prim2SF infinity) with (S754_infinity false).
  destruct (Prim2SF x) as [s | s | | s m e].
  - destruct s; reflexivity.
  - destruct s; reflexivity.
  - reflexivity.
  - rewrite SFeqb_refl_finite. reflexivity.
Qed.

(** *** NaN is absorbing *)

Lemma add_nan_l (x : float) : PrimFloat.add nan x = nan.
Proof. apply SF_nan_inv. rewrite add_spec. reflexivity. Qed.
Lemma add_nan_r (x : float) : PrimFloat.add x nan = nan.
Proof.
  apply SF_nan_inv. rewrite add_spec. simpl.
  destruct (Prim2SF x); reflexivity.
Qed.
Lemma mul_nan_l (x : float) : PrimFloat.mul nan x = nan.
Proof. apply SF_nan_inv. rewrite mul_spec. reflexivity. Qed.
Lemma mul_nan_r (x : float) : PrimFloat.mul x nan = nan.
Proof.
  apply SF_nan_inv. rewrite mul_spec. simpl.
  destruct (Prim2SF x); reflexivity.
Qed.
Lemma div_nan_l (x : float) : PrimFloat.div nan x = nan.
Proof. apply SF_nan_inv. rewrite div_spec. reflexivity. Qed.
Lemma div_nan_r (x : float) : PrimFloat.div x nan = nan.
Proof.
  apply SF_nan_inv. rewrite div_spec. simpl.
  destruct (Prim2SF x); reflexivity.
Qed.

(** *** Division by zero *)

Lemma div_zero_not_finite (x : float) :
  is_finite (PrimFloat.div x 0%float) = false.
Proof.
  rewrite is_finite_SF, div_spec.
  change (Prim2SF 0%float) with (S754_zero false).
  destruct (Prim2SF x); reflexivity.
Qed.

Lemma div_not_finite_l (x y : float) :
  is_finite x = false -> is_finite (PrimFloat.div x y) = false.
Proof.
  rewrite !is_finite_SF, div_spec.
  destruct (Prim2SF x); try discriminate; intros _;
    destruct (Prim2SF y); reflexivity.
Qed.

(** *** Validity of a finite binary64 number *)

Lemma finite_valid (x : float) (s : bool) (m : positive) (e : Z) :
  Prim2SF x = S754_finite s m e ->
  e = fexp prec emax (Zpos (digits2_pos m) + e) /\ e <= emax - prec.
Proof.
  intros H. assert (V := Prim2SF_valid x). rewrite H in V.
  unfold valid_binary, bounded, canonical_mantissa in V.
  apply andb_true_iff in V as [V1 V2].
  apply Z.eqb_eq in V1. apply Z.leb_le in V2. split; [symmetry |]; assumption.
Qed.

(** *** Aligning mantissas *)

Lemma iter_xO_val (m d : positive) :
  Zpos (Pos.iter xO m d) = Zpos m * 2 ^ Zpos d.
Proof.
  induction d as [| d IH] using Pos.peano_ind.
  - simpl. lia.
  - rewrite Pos.iter_succ, Pos2Z.inj_xO, IH, Pos2Z.inj_succ, Z.pow_succ_r
      by lia. ring.
Qed.

Lemma shl_align_spec (mx : positive) (ex ex' : Z) :
  let '(mz, ez) := shl_align mx ex ex' in
  ez = Z.min ex ex' /\ Zpos mz = Zpos mx * 2 ^ (ex - ez).
Proof.
  unfold shl_align. destruct (ex' - ex) as [| d | d] eqn:E.
  - split; [lia |]. replace (ex - ex) with 0 by lia. simpl. lia.
  - split; [lia |]. replace (ex - ex) with 0 by lia. simpl. lia.
  - split; [lia |]. rewrite iter_xO_val. f_equal. f_equal. lia.
Qed.

Lemma Zdigits2_mul_pow2 (m n : Z) :
  0 < m -> 0 <= n -> Zdigits2 (m * 2 ^ n) = Zdigits2 m + n.
Proof.
  intros Hm Hn.
  assert (Hd := Zdigits2_nonneg m).
  assert (Hu := Zdigits2_upper m ltac:(lia)).
  assert (Hl := Zdigits2_lower m Hm).
  assert (Hp : 0 < 2 ^ n) by (apply Z.pow_pos_nonneg; lia).
  assert (Hmn : 0 < m * 2 ^ n) by lia.
  assert (Hl' := Zdigits2_lower _ Hmn).
  assert (Hd' := Zdigits2_nonneg (m * 2 ^ n)).
  assert (Hd1 := Zdigits2_pos m Hm).
  apply Z.le_antisymm.
  - apply Zdigits2_le; [lia | lia |].
    rewrite Z.pow_add_r by lia. nia.
  - destruct (Z_le_gt_dec (Zdigits2 m + n) (Zdigits2 (m * 2 ^ n)))
      as [Hle | Hgt]; [exact Hle | exfalso].
    assert (Hu' := Zdigits2_upper (m * 2 ^ n) ltac:(lia)).
    assert (2 ^ Zdigits2 (m * 2 ^ n) <= 2 ^ (Zdigits2 m - 1 + n))
      by (apply Z.pow_le_mono_r; lia).
    rewrite Z.pow_add_r in H by lia. nia.
Qed.

(** *** Rounding an integer: sign and magnitude *)

Lemma binary_round_aux_bnd (sx : bool) (mx ex : Z) (lx : location) (K : Z) :
  0 <= mx -> Zdigits2 mx + ex <= K -> ex <= emax - prec ->
  SpecFloat.emin prec emax <= K -> K < emax ->
  bndSF (K + 1) (binary_round_aux prec emax sx mx ex lx).
Proof.
  intros Hm HK He Hlo Hhi.
  destruct (binary_round_aux_facts sx mx ex lx Hm)
    as (m3 & e3 & -> & H3 & _ & Hb & _).
  destruct (Hb K HK Hlo) as [Hmag Hexp]. specialize (Hexp Hhi He).
  destruct m3 as [| m | m]; [exact I | | lia].
  apply Z.leb_le in Hexp. rewrite Hexp. exact Hmag.
Qed.

Lemma binary_round_aux_signed (sx : bool) (mx ex : Z) (lx : location) :
  0 < mx -> SpecFloat.emin prec emax <= ex ->
  signedSF sx ex (binary_round_aux prec emax sx mx ex lx).
Proof.
  intros Hm He.
  destruct (binary_round_aux_facts sx mx ex lx ltac:(lia))
    as (m3 & e3 & -> & _ & He3 & _ & Hpos).
  specialize (Hpos Hm He).
  destruct m3 as [| m | m]; try lia.
  destruct (e3 <=? emax - prec); simpl; auto.
Qed.

Lemma binary_round_bnd (sx : bool) (mx : positive) (ex K : Z) :
  Zpos (digits2_pos mx) + ex <= K ->
  SpecFloat.emin prec emax <= K -> K < emax ->
  bndSF (K + 1) (binary_round prec emax sx mx ex).
Proof.
  intros HK Hlo Hhi. unfold binary_round.
  generalize (shl_align_spec mx ex (fexp prec emax (Zpos (digits2_pos mx) + ex))).
  destruct (shl_align mx ex _) as [mz ez]. intros [Hez Hmz].
  apply binary_round_aux_bnd; try assumption; try lia.
  - rewrite Hmz.
    rewrite Zdigits2_mul_pow2 by lia. simpl Zdigits2. lia.
  - unfold_fexp. lia.
Qed.

Lemma binary_round_signed (sx : bool) (mx : positive) (ex : Z) :
  SpecFloat.emin prec emax <= ex ->
  signedSF sx
    (Z.min ex (fexp prec emax (Zpos (digits2_pos mx) + ex)))
    (binary_round prec emax sx mx ex).
Proof.
  intros Hge. unfold binary_round.
  generalize (shl_align_spec mx ex (fexp prec emax (Zpos (digits2_pos mx) + ex))).
  destruct (shl_align mx ex _) as [mz ez]. intros [Hez Hmz].
  rewrite <- Hez.
  apply binary_round_aux_signed; [lia |].
  unfold_fexp. lia.
Qed.

Lemma Zdigits2_abs_le (z k : Z) : 0 <= k -> Z.abs z < 2 ^ k -> Zdigits2 z <= k.
Proof.
  intros Hk H. destruct z as [| p | p].
  - simpl. lia.
  - apply Zdigits2_le; lia.
  - change (Zdigits2 (Zneg p)) with (Zdigits2 (Zpos p)).
    apply Zdigits2_le; lia.
Qed.

Lemma binary_normalize_bnd (z e K : Z) (szero : bool) :
  Zdigits2 z + e <= K -> SpecFloat.emin prec emax <= K -> K < emax ->
  bndSF (K + 1) (binary_normalize prec emax z e szero).
Proof.
  intros HK Hlo Hhi. destruct z as [| p | p]; simpl binary_normalize.
  - exact I.
  - apply binary_round_bnd; assumption.
  - apply binary_round_bnd; assumption.
Qed.

Lemma bndSF_weaken (k k' : Z) (x : spec_float) :
  bndSF k x -> k <= k' -> bndSF k' x.
Proof. destruct x; cbn [bndSF]; intros; try assumption; lia. Qed.

(** *** Magnitude of a product *)

(** Validity gives the exponents of the factors, hence an exponent of the
    exact product that [binary_round_aux] can round without overflow. *)
Lemma SFmul_bnd (x y : spec_float) (kx ky : Z) :
  valid_binary x = true -> valid_binary y = true ->
  bndSF kx x -> bndSF ky y ->
  SpecFloat.emin prec emax <= kx + ky -> kx + ky < emax ->
  bndSF (kx + ky + 1) (SFmul prec emax x y).
Proof.
  intros Vx Vy Hx Hy Hlo Hhi.
  destruct x as [sx | sx | | sx mx ex], y as [sy | sy | | sy my ey];
    cbn [bndSF] in Hx, Hy; try contradiction; try exact I.
  unfold SFmul.
  unfold valid_binary, bounded, canonical_mantissa in Vx, Vy.
  apply andb_true_iff in Vx as [Cx Bx]. apply andb_true_iff in Vy as [Cy By].
  apply Z.eqb_eq in Cx, Cy. apply Z.leb_le in Bx, By.
  assert (Hdx := digits2_pos_bounds mx). assert (Hdy := digits2_pos_bounds my).
  apply binary_round_aux_bnd; try assumption; try lia.
  - assert (Zdigits2 (Zpos (mx * my))
            <= Zpos (digits2_pos mx) + Zpos (digits2_pos my)).
    { apply Zdigits2_le; [lia | lia |].
      rewrite Z.pow_add_r, Pos2Z.inj_mul by lia. nia. }
    lia.
  - unfold_fexp. lia.
Qed.

(** *** Magnitude of a sum *)

Lemma SFadd_bnd (x y : spec_float) (kx ky : Z) :
  bndSF kx x -> bndSF ky y ->
  SpecFloat.emin prec emax <= Z.max kx ky + 1 -> Z.max kx ky + 1 < emax ->
  bndSF (Z.max kx ky + 2) (SFadd prec emax x y).
Proof.
  intros Hx Hy Hlo Hhi.
  destruct x as [sx | sx | | sx mx ex], y as [sy | sy | | sy my ey];
    cbn [bndSF] in Hx, Hy; try contradiction.
  - destruct sx, sy; exact I.
  - cbn [SFadd bndSF]. lia.
  - cbn [SFadd bndSF]. lia.
  - unfold SFadd.
    set (ez := Z.min ex ey).
    generalize (shl_align_spec mx ex ez) (shl_align_spec my ey ez).
    destruct (shl_align mx ex ez) as [mx' ex'].
    destruct (shl_align my ey ez) as [my' ey'].
    intros [Hex' Hmx'] [Hey' Hmy']. cbn [fst].
    replace (Z.max kx ky + 2) with (Z.max kx ky + 1 + 1) by lia.
    apply binary_normalize_bnd; try assumption.
    assert (Hdx := digits2_pos_bounds mx). assert (Hdy := digits2_pos_bounds my).
    assert (Ex : ex' = ez) by lia. assert (Ey : ey' = ez) by lia.
    rewrite Ex in Hmx'. rewrite Ey in Hmy'.
    set (D := Z.max (Zpos (digits2_pos mx) + ex) (Zpos (digits2_pos my) + ey)
              - ez + 1).
    assert (HD : 0 <= D) by (unfold D; lia).
    assert (Hxb : Zpos mx' < 2 ^ (D - 1)).
    { rewrite Hmx'.
      apply Z.lt_le_trans
        with (2 ^ Zpos (digits2_pos mx) * 2 ^ (ex - ez)).
      - apply Z.mul_lt_mono_pos_r; [apply Z.pow_pos_nonneg; lia | lia].
      - rewrite <- Z.pow_add_r by lia.
        apply Z.pow_le_mono_r; unfold D; lia. }
    assert (Hyb : Zpos my' < 2 ^ (D - 1)).
    { rewrite Hmy'.
      apply Z.lt_le_trans
        with (2 ^ Zpos (digits2_pos my) * 2 ^ (ey - ez)).
      - apply Z.mul_lt_mono_pos_r; [apply Z.pow_pos_nonneg; lia | lia].
      - rewrite <- Z.pow_add_r by lia.
        apply Z.pow_le_mono_r; unfold D; lia. }
    assert (Hsum : Zdigits2 (cond_Zopp sx (Zpos mx') + cond_Zopp sy (Zpos my'))
                   <= D).
    { apply Zdigits2_abs_le; [exact HD |].
      replace D with (Z.succ (D - 1)) by lia.
      rewrite Z.pow_succ_r by (unfold D; lia).
      destruct sx, sy; simpl cond_Zopp; lia. }
    unfold D in Hsum. lia.
Qed.

(** *** Quotients *)

(** The integer quotient the division rounds. *)
Lemma SFdiv_core_spec (m1 m2 : positive) (e1 e2 : Z) :
  let '(q, e', l) := SFdiv_core_binary prec emax (Zpos m1) e1 (Zpos m2) e2 in
  e' = Z.min (fexp prec emax (Zpos (digits2_pos m1) + e1
                              - (Zpos (digits2_pos m2) + e2))) (e1 - e2) /\
  q = Zpos m1 * 2 ^ (e1 - e2 - e') / Zpos m2.
Proof.
  unfold SFdiv_core_binary. cbn [Zdigits2].
  set (e' := Z.min _ (e1 - e2)).
  assert (Hs : 0 <= e1 - e2 - e') by (unfold e'; lia).
  set (m' := match e1 - e2 - e' with
             | Z0 => Zpos m1
             | Zpos _ => Z.shiftl (Zpos m1) (e1 - e2 - e')
             | Zneg _ => 0
             end).
  assert (Hm' : m' = Zpos m1 * 2 ^ (e1 - e2 - e')).
  { unfold m'. destruct (e1 - e2 - e') as [| p | p] eqn:E.
    - simpl. lia.
    - apply Z.shiftl_mul_pow2. lia.
    - lia. }
  assert (Hq : fst (Z.div_eucl m' (Zpos m2)) = m' / Zpos m2) by reflexivity.
  destruct (Z.div_eucl m' (Zpos m2)) as [q r]. cbn [fst] in Hq.
  split; [reflexivity |]. rewrite Hq, Hm'. reflexivity.
Qed.

Lemma SFdiv_bnd (x : spec_float) (sy : bool) (my : positive) (ey kx : Z) :
  bndSF kx x ->
  let K := kx - (Zpos (digits2_pos my) + ey) + 1 in
  SpecFloat.emin prec emax <= K -> K < emax ->
  bndSF (K + 1) (SFdiv prec emax x (S754_finite sy my ey)).
Proof.
  intros Hx K Hlo Hhi.
  destruct x as [sx | sx | | sx mx ex]; cbn [bndSF] in Hx; try contradiction.
  - exact I.
  - unfold SFdiv.
    generalize (SFdiv_core_spec mx my ex ey).
    destruct (SFdiv_core_binary prec emax (Zpos mx) ex (Zpos my) ey)
      as [[q e'] l].
    intros [He' Hq].
    assert (Hdx := digits2_pos_bounds mx). assert (Hdy := digits2_pos_bounds my).
    set (dx := Zpos (digits2_pos mx)) in *.
    set (dy := Zpos (digits2_pos my)) in *.
    assert (Hs : 0 <= ex - ey - e') by lia.
    set (s := ex - ey - e') in *.
    assert (Hps : 0 < 2 ^ s) by (apply Z.pow_pos_nonneg; lia).
    assert (Hnum : Zpos mx * 2 ^ s < 2 ^ (dx + s)).
    { rewrite Z.pow_add_r by (unfold dx; lia). nia. }
    assert (Hq0 : 0 <= q) by (rewrite Hq; apply Z.div_pos; lia).
    assert (Hdq : Zdigits2 q <= Z.max (dx + s - dy + 1) 0).
    { apply Zdigits2_le; [exact Hq0 | lia |].
      rewrite Hq. apply Z.div_lt_upper_bound; [lia |].
      destruct (Z_le_gt_dec 0 (dx + s - dy + 1)) as [Ht | Ht].
      - rewrite Z.max_l by lia.
        apply Z.lt_le_trans with (2 ^ (dx + s)); [exact Hnum |].
        assert (E : 2 ^ (dx + s) = 2 ^ (dy - 1) * 2 ^ (dx + s - dy + 1)).
        { rewrite <- Z.pow_add_r by (unfold dy; lia). f_equal. lia. }
        rewrite E.
        apply Z.mul_le_mono_nonneg_r; [apply Z.pow_nonneg; lia | lia].
      - rewrite Z.max_r by lia.
        apply Z.lt_le_trans with (2 ^ (dx + s)); [exact Hnum |].
        apply Z.le_trans with (2 ^ (dy - 1)); [| lia].
        apply Z.pow_le_mono_r; lia. }
    apply binary_round_aux_bnd; try assumption.
    + subst K. unfold s in Hdq. unfold_fexp. lia.
    + subst K. unfold_fexp. lia.
Qed.

(** A quotient that cannot underflow keeps the sign of its operands. *)
Lemma SFdiv_signed (sx sy : bool) (mx my : positive) (ex ey : Z) :
  SpecFloat.emin prec emax + prec
    <= Zpos (digits2_pos mx) + ex - (Zpos (digits2_pos my) + ey) ->
  SpecFloat.emin prec emax <= ex - ey ->
  signedSF (xorb sx sy) (SpecFloat.emin prec emax)
    (SFdiv prec emax (S754_finite sx mx ex) (S754_finite sy my ey)).
Proof.
  intros Hz He. unfold SFdiv.
  generalize (SFdiv_core_spec mx my ex ey).
  destruct (SFdiv_core_binary prec emax (Zpos mx) ex (Zpos my) ey)
    as [[q e'] l].
  intros [He' Hq].
  assert (Hdx := digits2_pos_bounds mx). assert (Hdy := digits2_pos_bounds my).
  set (dx := Zpos (digits2_pos mx)) in *.
  set (dy := Zpos (digits2_pos my)) in *.
  assert (Hlo : SpecFloat.emin prec emax <= e') by (unfold_fexp; lia).
  assert (Hs : prec - dx + dy <= ex - ey - e') by (unfold_fexp; lia).
  assert (Hq0 : 0 < q).
  { rewrite Hq. apply Z.div_str_pos. split; [lia |].
    apply Z.le_trans with (2 ^ dy); [lia |].
    apply Z.le_trans with (2 ^ (dx - 1) * 2 ^ (ex - ey - e')).
    - rewrite <- Z.pow_add_r by (unfold dx, prec in *; lia).
      apply Z.pow_le_mono_r; unfold prec in *; lia.
    - apply Z.mul_le_mono_nonneg_r; [apply Z.pow_nonneg; lia | lia]. }
  generalize (binary_round_aux_signed (xorb sx sy) q e' l Hq0 Hlo).
  destruct (binary_round_aux prec emax (xorb sx sy) q e' l);
    cbn [signedSF]; intuition lia.
Qed.

Lemma signedSF_weaken (s : bool) (lo lo' : Z) (x : spec_float) :
  signedSF s lo x -> lo' <= lo -> signedSF s lo' x.
Proof. destruct x; cbn [signedSF]; intuition lia. Qed.

(** *** Sign of a sum dominated by its negative term *)

Lemma SFltb_neg_cases (mx my : positive) (ex ey : Z) :
  SFltb (S754_finite true mx ex) (S754_finite true my ey) = true ->
  ey < ex \/ (ex = ey /\ Zpos my < Zpos mx).
Proof.
  unfold SFltb, SFcompare. intros H.
  destruct (Z.compare_spec ex ey) as [E | E | E].
  - right. split; [exact E |].
    rewrite Pos.compare_cont_spec in H. cbn [Pos.switch_Eq] in H.
    destruct (Pos.compare_spec mx my) as [Ec | Ec | Ec].
    + discriminate H.
    + discriminate H.
    + apply Pos2Z.pos_lt_pos. exact Ec.
  - discriminate H.
  - left. exact E.
Qed.

Lemma SFadd_neg_dominant (mx my : positive) (ex ey : Z) :
  SpecFloat.emin prec emax <= ey ->
  ey < ex \/ (ex = ey /\ Zpos my < Zpos mx) ->
  Zpos (digits2_pos my) <= Zpos (digits2_pos mx) ->
  signedSF true (ey - prec)
    (SFadd prec emax (S754_finite true mx ex) (S754_finite false my ey)).
Proof.
  intros Hey Hcmp Hd. unfold SFadd.
  assert (Ez : Z.min ex ey = ey) by lia. rewrite Ez.
  generalize (shl_align_spec mx ex ey) (shl_align_spec my ey ey).
  destruct (shl_align mx ex ey) as [mx' ex'].
  destruct (shl_align my ey ey) as [my' ey'].
  intros [Hex' Hmx'] [Hey' Hmy']. cbn [fst cond_Zopp].
  assert (Hdx := digits2_pos_bounds mx). assert (Hdy := digits2_pos_bounds my).
  replace ey' with ey in Hmy' by lia. replace ex' with ey in Hmx' by lia.
  rewrite Z.sub_diag, Z.pow_0_r, Z.mul_1_r in Hmy'.
  assert (Hlt : Zpos my' < Zpos mx').
  { rewrite Hmx', Hmy'.
    destruct Hcmp as [Hgt | [-> Hgt]].
    - assert (H1 : 2 ^ 1 <= 2 ^ (ex - ey)) by (apply Z.pow_le_mono_r; lia).
      rewrite Z.pow_1_r in H1.
      assert (H2 : 2 ^ Zpos (digits2_pos my) <= 2 ^ Zpos (digits2_pos mx))
        by (apply Z.pow_le_mono_r; lia).
      replace (Zpos (digits2_pos mx)) with (Z.succ (Zpos (digits2_pos mx) - 1))
        in H2 by lia.
      rewrite Z.pow_succ_r in H2 by lia.
      apply Z.lt_le_trans with (2 * Zpos mx); [lia |].
      rewrite Z.mul_comm. apply Z.mul_le_mono_nonneg_l; lia.
    - rewrite Z.sub_diag, Z.pow_0_r. lia. }
  destruct (- Zpos mx' + Zpos my') as [| z | z] eqn:Ez'; try lia.
  cbn [binary_normalize].
  eapply signedSF_weaken; [apply binary_round_signed; exact Hey |].
  assert (Hz := digits2_pos_bounds z).
  unfold_fexp. lia.
Qed.

Lemma SFsqrt_negative (lo : Z) (x : spec_float) :
  signedSF true lo x -> SFsqrt prec emax x = S754_nan.
Proof.
  destruct x as [s | s | | s m e]; cbn [signedSF]; try contradiction.
  - intros ->. reflexivity.
  - intros [-> _]. reflexivity.
Qed.

(** A negative number divided by a positive normal number of moderate
    size stays negative. *)
Lemma SFdiv_negative (x : spec_float) (my : positive) (ey lo : Z) :
  signedSF true lo x ->
  SpecFloat.emin prec emax + prec + Zpos (digits2_pos my) + ey <= lo + 1 ->
  SpecFloat.emin prec emax + ey <= lo ->
  signedSF true (SpecFloat.emin prec emax)
    (SFdiv prec emax x (S754_finite false my ey)).
Proof.
  intros Hx H1 H2.
  destruct x as [s | s | | s mx ex]; cbn [signedSF] in Hx; try contradiction.
  - subst s. reflexivity.
  - destruct Hx as [-> Hlo].
    assert (Hdx := digits2_pos_bounds mx).
    apply (SFdiv_signed true false mx my ex ey); lia.
Qed.

(** *** The constants of the input reduction *)

Lemma Prim2SF_m32 : Prim2SF (-32)%float = SF_m32.
Proof. vm_compute. reflexivity. Qed.
Lemma Prim2SF_32 : Prim2SF (lit 32 : float) = SF_32.
Proof. vm_compute. reflexivity. Qed.
Lemma Prim2SF_SAu :
  Prim2SF (PrimFloat.div (PrimFloat.mul (lit 40) (lit 35.16504)) (lit 35))
  = SF_SAu.
Proof. vm_compute. reflexivity. Qed.

(** Adding 32 to a number below -32 gives a negative number, not zero,
    of exponent at least -100. *)
Lemma below_m32_plus_32 (x : spec_float) :
  valid_binary x = true ->
  SFltb x SF_m32 = true ->
  signedSF true (-100) (SFadd prec emax x SF_32).
Proof.
  intros V H.
  destruct x as [sx | sx | | sx mx ex].
  - destruct sx; discriminate H.
  - destruct sx; [exact eq_refl | discriminate H].
  - discriminate H.
  - destruct sx; [| discriminate H].
    apply SFltb_neg_cases in H.
    unfold valid_binary, bounded, canonical_mantissa in V.
    apply andb_true_iff in V as [C B].
    apply Z.eqb_eq in C. apply Z.leb_le in B.
    apply (SFadd_neg_dominant mx _ ex (-47)).
    + unfold SpecFloat.emin, prec, emax. lia.
    + exact H.
    + replace (Zpos (digits2_pos mx)) with 53.
      * apply Z.leb_le. vm_compute. reflexivity.
      * unfold_fexp. lia.
Qed.

(** For a salinity below -32 the reduced salinity s is NaN. *)
Lemma reduced_below_m32 (SA CT p : float) :
  PrimFloat.ltb SA (-32)%float = true ->
  let '(s, t, pt) := reduced SA CT p in s = nan.
Proof.
  intros H. cbv beta iota delta [reduced fadd fmul fdiv fsqrt Arith_float].
  apply SF_nan_inv.
  rewrite sqrt_spec, div_spec, add_spec, Prim2SF_32, Prim2SF_SAu.
  rewrite ltb_spec, Prim2SF_m32 in H.
  apply SFsqrt_negative with (lo := SpecFloat.emin prec emax).
  apply SFdiv_negative with (lo := -100).
  - apply below_m32_plus_32; [apply Prim2SF_valid | exact H].
  - apply Z.leb_le. vm_compute. reflexivity.
  - apply Z.leb_le. vm_compute. reflexivity.
Qed.

(** *** Magnitude bounds through the operations *)

Lemma in_range_spec (k : Z) :
  in_range k = true -> SpecFloat.emin prec emax <= k /\ k < emax.
Proof.
  unfold in_range. rewrite andb_true_iff, Z.leb_le, Z.ltb_lt. tauto.
Qed.

Lemma fbnd_finite (k : Z) (x : float) : fbnd k x -> is_finite x = true.
Proof.
  unfold fbnd. rewrite is_finite_SF.
  destruct (Prim2SF x); cbn [bndSF]; intros H; try reflexivity; contradiction.
Qed.

(** A constant is bounded by its own binade. *)
Lemma fbnd_const (x : float) (k : Z) : magSF (Prim2SF x) = Some k -> fbnd k x.
Proof.
  unfold fbnd. destruct (Prim2SF x); cbn [magSF bndSF]; intros H;
    try discriminate H; [exact I |].
  assert (E : k = Zpos (digits2_pos m) + e) by congruence.
  subst k. apply Z.le_refl.
Qed.

(** The rounded product, sum and quotient of bounded numbers are bounded
    as long as the bound stays below the overflow threshold: rounding adds
    at most one binade to the exact result. *)
Lemma fbnd_mul (kx ky : Z) (x y : float) :
  fbnd kx x -> fbnd ky y -> in_range (kx + ky) = true ->
  fbnd (kx + ky + 1) (PrimFloat.mul x y).
Proof.
  unfold fbnd. intros Hx Hy Hr. apply in_range_spec in Hr as [Hlo Hhi].
  rewrite mul_spec.
  apply SFmul_bnd; try assumption; apply Prim2SF_valid.
Qed.

Lemma fbnd_add (kx ky : Z) (x y : float) :
  fbnd kx x -> fbnd ky y -> in_range (Z.max kx ky + 1) = true ->
  fbnd (Z.max kx ky + 2) (PrimFloat.add x y).
Proof.
  unfold fbnd. intros Hx Hy Hr. apply in_range_spec in Hr as [Hlo Hhi].
  rewrite add_spec. apply SFadd_bnd; assumption.
Qed.

Lemma fbnd_div (kx ky : Z) (x y : float) :
  fbnd kx x ->
  match Prim2SF y with
  | S754_finite _ m e => Some (Zpos (digits2_pos m) + e)
  | _ => None
  end = Some ky ->
  in_range (kx - ky + 1) = true ->
  fbnd (kx - ky + 2) (PrimFloat.div x y).
Proof.
  unfold fbnd. intros Hx Hy Hr. apply in_range_spec in Hr as [Hlo Hhi].
  rewrite div_spec.
  destruct (Prim2SF y) as [s | s | | s m e]; try discriminate Hy.
  assert (E : ky = Zpos (digits2_pos m) + e) by congruence.
  subst ky. clear Hy.
  replace (kx - (Zpos (digits2_pos m) + e) + 2)
    with (kx - (Zpos (digits2_pos m) + e) + 1 + 1) by lia.
  apply SFdiv_bnd; assumption.
Qed.

(** A number of absolute value at most a positive bound [B]. *)
Lemma SFleb_pos_exp (m mB : positive) (e eB : Z) :
  SFleb (S754_finite false m e) (S754_finite false mB eB) = true -> e <= eB.
Proof.
  unfold SFleb, SFcompare.
  destruct (Z.compare_spec e eB) as [E | E | E]; intros H;
    [lia | lia | discriminate H].
Qed.

Lemma fbnd_of_abs_leb (x B : float) (kB : Z) :
  match Prim2SF B with
  | S754_finite false m e => Some (prec + e)
  | _ => None
  end = Some kB ->
  PrimFloat.leb (abs x) B = true ->
  fbnd kB x.
Proof.
  unfold fbnd. intros HB H. rewrite leb_spec, abs_spec in H.
  destruct (Prim2SF B) as [s | s | | s mB eB]; try discriminate HB.
  destruct s; [discriminate HB |].
  assert (E : kB = prec + eB) by congruence. subst kB. clear HB.
  destruct (Prim2SF x) as [sx | sx | | sx mx ex] eqn:Ex; cbn [SFabs] in H.
  - exact I.
  - discriminate H.
  - discriminate H.
  - apply SFleb_pos_exp in H.
    destruct (finite_valid x sx mx ex Ex) as [C _].
    cbn [bndSF]. unfold_fexp. lia.
Qed.

(** Bound an expression by recursion on its syntax. *)
Ltac fbnd_leaf :=
  first
    [ eassumption
    | apply fbnd_const; vm_compute; reflexivity ].

Ltac fbnd_solve :=
  lazymatch goal with
  | |- fbnd _ (PrimFloat.add _ _) =>
      eapply fbnd_add; [fbnd_solve | fbnd_solve | vm_compute; reflexivity]
  | |- fbnd _ (PrimFloat.mul _ _) =>
      eapply fbnd_mul; [fbnd_solve | fbnd_solve | vm_compute; reflexivity]
  | |- fbnd _ (PrimFloat.div _ _) =>
      eapply fbnd_div; [fbnd_solve | vm_compute; reflexivity
                       | vm_compute; reflexivity]
  | |- fbnd _ _ => fbnd_leaf
  end.

Ltac finite_solve := eapply fbnd_finite; fbnd_solve.

Ltac expose_float :=
  cbv beta iota zeta delta
    [Bsq.polyTEOS10_bsq Stif.polyTEOS10_stif
     V55.polyTEOS10_55t V75.polyTEOS10_75t reduced
     fadd fmul fdiv fsqrt Arith_float].

Close Scope Z_scope.

(** ** C4: inputs outside the domain *)

Ltac nan_absorb :=
  repeat first
    [ rewrite mul_nan_l | rewrite mul_nan_r
    | rewrite add_nan_l | rewrite add_nan_r
    | rewrite div_nan_l | rewrite div_nan_r ].

(** Replace the reduced salinity of a call with SA = -32 by its value. *)
Ltac reduce_s0 :=
  expose_float;
  set (ss := PrimFloat.sqrt _);
  let Hss := fresh "Hss" in
  assert (Hss : ss = 0%float) by (vm_compute; reflexivity);
  clearbody ss; subst ss.

Lemma bsq_nan (SA CT p : float) :
  PrimFloat.ltb SA (-32)%float = true ->
  let '(rho, a, b, r0, r) := Bsq.polyTEOS10_bsq SA CT p in
  rho = nan /\ a = nan /\ b = nan /\ r = nan.
Proof.
  intros H. assert (Hs := reduced_below_m32 SA CT p H).
  revert Hs. expose_float. intros ->. nan_absorb.
  split; [reflexivity |]. split; [reflexivity |]. split; reflexivity.
Qed.

Lemma stif_nan (SA CT p : float) :
  PrimFloat.ltb SA (-32)%float = true ->
  let '(rho, a, b, r1, rdot) := Stif.polyTEOS10_stif SA CT p in
  rho = nan /\ a = nan /\ b = nan /\ rdot = nan.
Proof.
  intros H. assert (Hs := reduced_below_m32 SA CT p H).
  revert Hs. expose_float. intros ->. nan_absorb.
  split; [reflexivity |]. split; [reflexivity |]. split; reflexivity.
Qed.

Lemma t55_nan (SA CT p : float) :
  PrimFloat.ltb SA (-32)%float = true ->
  let '(specvol, alpha, beta, v0, delta) := V55.polyTEOS10_55t SA CT p in
  specvol = nan /\ alpha = nan /\ beta = nan /\ delta = nan.
Proof.
  intros H. assert (Hs := reduced_below_m32 SA CT p H).
  revert Hs. expose_float. intros ->. nan_absorb.
  split; [reflexivity |]. split; [reflexivity |]. split; reflexivity.
Qed.

Lemma t75_nan (SA CT p : float) :
  PrimFloat.ltb SA (-32)%float = true ->
  let '(specvol, alpha, beta, v0, delta) := V75.polyTEOS10_75t SA CT p in
  specvol = nan /\ alpha = nan /\ beta = nan /\ delta = nan.
Proof.
  intros H. assert (Hs := reduced_below_m32 SA CT p H).
  revert Hs. expose_float. intros ->. nan_absorb.
  split; [reflexivity |]. split; [reflexivity |]. split; reflexivity.
Qed.

(** C4.  In binary64, where every evaluator is a total function of three
    numbers (NaN and the infinities included): for every CT and p, if
    SA < -32 then every output that depends on the reduced salinity is NaN
    in all four evaluators (the reference outputs r0, r1, v0 do not depend
    on it); and at SA = -32 the output b of the two density evaluators
    and the output beta of the two specific-volume evaluators are not
    finite (each is an infinity or NaN). *)
Theorem domain_violations_propagate (SA CT p : float) :
  (PrimFloat.ltb SA (-32)%float = true ->
   (let '(rho, a, b, r0, r) := Bsq.polyTEOS10_bsq SA CT p in
    rho = nan /\ a = nan /\ b = nan /\ r = nan) /\
   (let '(rho, a, b, r1, rdot) := Stif.polyTEOS10_stif SA CT p in
    rho = nan /\ a = nan /\ b = nan /\ rdot = nan) /\
   (let '(specvol, alpha, beta, v0, delta) := V55.polyTEOS10_55t SA CT p in
    specvol = nan /\ alpha = nan /\ beta = nan /\ delta = nan) /\
   (let '(specvol, alpha, beta, v0, delta) := V75.polyTEOS10_75t SA CT p in
    specvol = nan /\ alpha = nan /\ beta = nan /\ delta = nan)) /\
  (let '(rho, a, b, r0, r) := Bsq.polyTEOS10_bsq (-32)%float CT p in
   is_finite b = false) /\
  (let '(rho, a, b, r1, rdot) := Stif.polyTEOS10_stif (-32)%float CT p in
   is_finite b = false) /\
  (let '(specvol, alpha, beta, v0, delta) :=
     V55.polyTEOS10_55t (-32)%float CT p in
   is_finite beta = false) /\
  (let '(specvol, alpha, beta, v0, delta) :=
     V75.polyTEOS10_75t (-32)%float CT p in
   is_finite beta = false).
Proof.
  split; [intros H; split; [| split; [| split]] | split; [| split; [| split]]].
  - exact (bsq_nan SA CT p H).
  - exact (stif_nan SA CT p H).
  - exact (t55_nan SA CT p H).
  - exact (t75_nan SA CT p H).
  - reduce_s0. apply div_zero_not_finite.
  - reduce_s0. apply div_zero_not_finite.
  - reduce_s0. apply div_not_finite_l. apply div_zero_not_finite.
  - reduce_s0. apply div_not_finite_l. apply div_zero_not_finite.
Qed.

Lemma domain_violations_propagate_witness :
  PrimFloat.ltb (-33)%float (-32)%float = true /\
  (let '(rho, a, b, r0, r) :=
     Bsq.polyTEOS10_bsq (-33)%float CT_chk p_chk in
   rho = nan /\ a = nan /\ b = nan /\ r = nan) /\
  (let '(rho, a, b, r1, rdot) :=
     Stif.polyTEOS10_stif (-33)%float CT_chk p_chk in
   rho = nan /\ a = nan /\ b = nan /\ rdot = nan) /\
  (let '(specvol, alpha, beta, v0, delta) :=
     V55.polyTEOS10_55t (-33)%float CT_chk p_chk in
   specvol = nan /\ alpha = nan /\ beta = nan /\ delta = nan) /\
  (let '(specvol, alpha, beta, v0, delta) :=
     V75.polyTEOS10_75t (-33)%float CT_chk p_chk in
   specvol = nan /\ alpha = nan /\ beta = nan /\ delta = nan).
Proof.
  split; [vm_compute; reflexivity |].
  apply (proj1 (domain_violations_propagate (-33)%float CT_chk p_chk)).
  vm_compute. reflexivity.
Defined.

(** At the check point's CT and p: below the domain the outputs are NaN
    except r0; at SA = -32 the output b is +infinity and the others are
    finite. *)
Lemma bsq_edge_values :
  (let '(rho, a, b, r0, r) :=
     Bsq.polyTEOS10_bsq (-33)%float CT_chk p_chk in
   is_nan rho && is_nan a && is_nan b && is_finite r0 && is_nan r = true) /\
  (let '(rho, a, b, r0, r) :=
     Bsq.polyTEOS10_bsq (-32)%float CT_chk p_chk in
   b = infinity /\
   is_finite rho && is_finite a && is_finite r0 && is_finite r = true).
Proof. vm_compute. repeat split. Qed.

(** ** C10: the outputs other than b at s = 0 *)

(** C10 fails as stated: at SA = -32 with the finite CT = 1e300 and
    p = 0, the outputs rho, a and r of [polyTEOS10_bsq] and rho, a and
    rdot of [polyTEOS10_stif] are not finite (the products overflow). *)
Lemma density_outputs_overflow :
  is_finite (lit 1e300) = true /\
  is_finite 0%float = true /\
  (let '(rho, a, b, r0, r) :=
     Bsq.polyTEOS10_bsq (-32)%float (lit 1e300) 0%float in
   is_finite rho = false /\ is_finite a = false /\ is_finite r = false) /\
  (let '(rho, a, b, r1, rdot) :=
     Stif.polyTEOS10_stif (-32)%float (lit 1e300) 0%float in
   is_finite rho = false /\ is_finite a = false /\ is_finite rdot = false).
Proof. vm_compute. repeat split. Qed.

(** C10, as amended.  In binary64, at SA = -32 and for every CT and p of
    absolute value at most 1e22, the outputs rho, a, r0, r of
    [polyTEOS10_bsq] and rho, a, r1, rdot of [polyTEOS10_stif] are
    finite, while b is not. *)
Theorem density_outputs_finite_at_s0 (CT p : float) :
  PrimFloat.leb (abs CT) max_magnitude = true ->
  PrimFloat.leb (abs p) max_magnitude = true ->
  (let '(rho, a, b, r0, r) := Bsq.polyTEOS10_bsq (-32)%float CT p in
   is_finite rho = true /\ is_finite a = true /\
   is_finite r0 = true /\ is_finite r = true /\ is_finite b = false) /\
  (let '(rho, a, b, r1, rdot) := Stif.polyTEOS10_stif (-32)%float CT p in
   is_finite rho = true /\ is_finite a = true /\
   is_finite r1 = true /\ is_finite rdot = true /\ is_finite b = false).
Proof.
  intros HCT Hp.
  eapply fbnd_of_abs_leb in HCT; [| vm_compute; reflexivity].
  eapply fbnd_of_abs_leb in Hp; [| vm_compute; reflexivity].
  split.
  - reduce_s0.
    split; [finite_solve |]. split; [finite_solve |].
    split; [finite_solve |]. split; [finite_solve |].
    apply div_zero_not_finite.
  - reduce_s0.
    split; [finite_solve |]. split; [finite_solve |].
    split; [finite_solve |]. split; [finite_solve |].
    apply div_zero_not_finite.
Qed.

Lemma density_outputs_finite_at_s0_witness :
  PrimFloat.leb (abs CT_chk) max_magnitude = true /\
  PrimFloat.leb (abs p_chk) max_magnitude = true /\
  (let '(rho, a, b, r0, r) :=
     Bsq.polyTEOS10_bsq (-32)%float CT_chk p_chk in
   is_finite rho = true /\ is_finite a = true /\
   is_finite r0 = true /\ is_finite r = true /\ is_finite b = false) /\
  (let '(rho, a, b, r1, rdot) :=
     Stif.polyTEOS10_stif (-32)%float CT_chk p_chk in
   is_finite rho = true /\ is_finite a = true /\
   is_finite r1 = true /\ is_finite rdot = true /\ is_finite b = false).
Proof.
  split; [vm_compute; reflexivity |]. split; [vm_compute; reflexivity |].
  apply (density_outputs_finite_at_s0 CT_chk p_chk); vm_compute; reflexivity.
Defined.
(** * Derivative outputs against the derivatives of the primary output *)

Lemma SAu_R_pos : (0 < SAu_R)%R.
Proof. unfold SAu_R, lit, Lit_R, Q2R. simpl. lra. Qed.

Lemma Q2R_SAu : Q2R SAu_Q = SAu_R.
Proof.
  unfold SAu_Q, SAu_R, lit, Lit_R.
  rewrite Q2R_div, Q2R_mult; [reflexivity | discriminate].
Qed.

Lemma eps10_nonneg : (0 <= eps10)%R.
Proof. unfold eps10, Q2R. simpl. lra. Qed.

Lemma Q2R_scale_t (neg : bool) (n : nat) (c : Q) :
  Q2R (scale_t_Q neg n c) = scale_t_R neg n (Q2R c).
Proof.
  unfold scale_t_Q, scale_t_R, lit, Lit_R.
  destruct neg; rewrite ?Q2R_opp, Q2R_mult, Q2R_div, Q2R_of_nat;
    try reflexivity; discriminate.
Qed.

Lemma Q2R_scale_s (neg : bool) (n : nat) (c : Q) :
  Q2R (scale_s_Q neg n c) = scale_s_R neg n (Q2R c).
Proof.
  unfold scale_s_Q, scale_s_R. rewrite <- Q2R_SAu.
  assert (H2 : Q2R 2 = 2%R) by (unfold Q2R; simpl; lra).
  destruct neg; rewrite ?Q2R_opp, Q2R_mult, Q2R_div, Q2R_of_nat, ?Q2R_mult, ?H2;
    try reflexivity; discriminate.
Qed.

Lemma dCT_gen_toR (sq : nat -> Q -> Q) (sr : nat -> R -> R)
    (tbl : list (nat * nat * nat * Q)) :
  (forall n c, Q2R (sq n c) = sr n (Q2R c)) ->
  map toR (dCT_gen sq tbl) = dCT_gen sr (map toR tbl).
Proof.
  intros H. induction tbl as [| [[[i j] k] c] tl IH]; [reflexivity |].
  destruct j as [| j'].
  - exact IH.
  - change (toR (i, j', k, sq (S j') c) :: map toR (dCT_gen sq tl)
            = (i, j', k, sr (S j') (Q2R c)) :: dCT_gen sr (map toR tl)).
    rewrite IH. unfold toR. rewrite H. reflexivity.
Qed.

Lemma ds_gen_toR (sq : nat -> Q -> Q) (sr : nat -> R -> R)
    (tbl : list (nat * nat * nat * Q)) :
  (forall n c, Q2R (sq n c) = sr n (Q2R c)) ->
  map toR (ds_gen sq tbl) = ds_gen sr (map toR tbl).
Proof.
  intros H. induction tbl as [| [[[i j] k] c] tl IH]; [reflexivity |].
  destruct i as [| i'].
  - exact IH.
  - change (toR (i', j, k, sq (S i') c) :: map toR (ds_gen sq tl)
            = (i', j, k, sr (S i') (Q2R c)) :: ds_gen sr (map toR tl)).
    rewrite IH. unfold toR. rewrite H. reflexivity.
Qed.

(** The CT-derivative of a table polynomial, with either sign. *)
Lemma poly3_dCT_gen_sign (neg : bool) (tbl : list (nat * nat * nat * R))
    (s t p : R) :
  poly3 (dCT_gen (scale_t_R neg) tbl) s t p
  = ((if neg then 1 else -1) * poly3 (dCT_table tbl) s t p)%R.
Proof.
  induction tbl as [| [[[i j] k] c] tl IH].
  - simpl. destruct neg; ring.
  - destruct j as [| j'].
    + exact IH.
    + change (scale_t_R neg (S j') c * s ^ i * t ^ j' * p ^ k
              + poly3 (dCT_gen (scale_t_R neg) tl) s t p
              = (if neg then 1 else -1)
                * (scaleR (S j') c * s ^ i * t ^ j' * p ^ k
                   + poly3 (dCT_table tl) s t p))%R.
      rewrite IH. unfold scale_t_R, scaleR. destruct neg; ring.
Qed.

Lemma poly3_derivative_CT (neg : bool) (tbl : list (nat * nat * nat * R))
    (s p x : R) :
  derivable_pt_lim (fun ct => poly3 tbl s (ct / lit 40) p) x
    ((if neg then -1 else 1)
     * poly3 (dCT_gen (scale_t_R neg) tbl) s (x / lit 40) p)%R.
Proof.
  eapply derivable_pt_lim_val; [apply poly3_derivative |].
  rewrite poly3_dCT_gen_sign. destruct neg; ring.
Qed.

(** The s-derivative of a table polynomial. *)
Lemma poly3_derivative_s (tbl : list (nat * nat * nat * R)) (t p x : R) :
  derivable_pt_lim (fun s => poly3 tbl s t p) x
    (poly3 (ds_gen (fun n c => (INR n * c)%R) tbl) x t p).
Proof.
  induction tbl as [| [[[i j] k] c] tl IH].
  - simpl. apply (derivable_pt_lim_const 0 x).
  - change (fun s => poly3 ((i, j, k, c) :: tl) s t p) with
      (fun s => (c * s ^ i * t ^ j * p ^ k + poly3 tl s t p)%R).
    destruct i as [| i'].
    + change (ds_gen (fun n c => (INR n * c)%R) ((O, j, k, c) :: tl))
        with (ds_gen (fun n c => (INR n * c)%R) tl).
      apply derivable_pt_lim_val with
        (l := (0 + poly3 (ds_gen (fun n c => (INR n * c)%R) tl) x t p)%R);
        [| ring].
      apply (derivable_pt_lim_plus
               (fct_cte (c * x ^ 0 * t ^ j * p ^ k)%R)
               (fun s => poly3 tl s t p)).
      * apply derivable_pt_lim_const.
      * exact IH.
    + change (poly3 (ds_gen (fun n c => (INR n * c)%R)
                       ((S i', j, k, c) :: tl)) x t p)
        with ((INR (S i') * c) * x ^ i' * t ^ j * p ^ k
              + poly3 (ds_gen (fun n c => (INR n * c)%R) tl) x t p)%R.
      apply (derivable_pt_lim_plus
               (fun s => (c * s ^ S i' * t ^ j * p ^ k)%R)
               (fun s => poly3 tl s t p)); [| exact IH].
      apply derivable_pt_lim_ext with
        (f := mult_real_fct (c * t ^ j * p ^ k)%R (fun s => (s ^ S i')%R)).
      { intros z. unfold mult_real_fct. ring. }
      apply derivable_pt_lim_val with
        (l := ((c * t ^ j * p ^ k) * (INR (S i') * x ^ pred (S i')))%R).
      * apply derivable_pt_lim_scal. apply derivable_pt_lim_pow.
      * simpl pred. ring.
Qed.

Lemma poly3_ds_gen_scale (neg : bool) (tbl : list (nat * nat * nat * R))
    (s t p : R) :
  poly3 (ds_gen (scale_s_R neg) tbl) s t p
  = ((if neg then -1 else 1) / (2 * SAu_R)
     * poly3 (ds_gen (fun n c => (INR n * c)%R) tbl) s t p)%R.
Proof.
  assert (HS := SAu_R_pos).
  induction tbl as [| [[[i j] k] c] tl IH].
  - simpl. destruct neg; field; lra.
  - destruct i as [| i'].
    + exact IH.
    + change (scale_s_R neg (S i') c * s ^ i' * t ^ j * p ^ k
              + poly3 (ds_gen (scale_s_R neg) tl) s t p
              = (if neg then -1 else 1) / (2 * SAu_R)
                * ((INR (S i') * c) * s ^ i' * t ^ j * p ^ k
                   + poly3 (ds_gen (fun n c => (INR n * c)%R) tl) s t p))%R.
      rewrite IH. unfold scale_s_R. destruct neg; field; lra.
Qed.

(** The reduced salinity as a function of SA, for SA > -32. *)
Lemma reduced_salinity_derivative (SA : R) :
  (-32 < SA)%R ->
  let s := R_sqrt.sqrt ((SA + lit 32) / SAu_R) in
  (0 < s)%R /\
  derivable_pt_lim (fun sa => R_sqrt.sqrt ((sa + lit 32) / SAu_R)) SA
    (/ (2 * s) * / SAu_R)%R.
Proof.
  intros H s. assert (HS := SAu_R_pos).
  assert (H32 : (lit 32 : R) = 32%R)
    by (unfold lit, Lit_R, Q2R; simpl; field).
  assert (Hu : (0 < (SA + lit 32) / SAu_R)%R).
  { rewrite H32. apply Rdiv_lt_0_compat; lra. }
  split; [apply sqrt_lt_R0; exact Hu |].
  apply (derivable_pt_lim_comp (fun sa => ((sa + lit 32) / SAu_R)%R)
           R_sqrt.sqrt).
  - apply derivable_pt_lim_ext with
      (f := (mult_real_fct (/ SAu_R) (id + fct_cte (lit 32)))%F).
    { intros z. unfold mult_real_fct, plus_fct, fct_cte, id, Rdiv. ring. }
    apply derivable_pt_lim_val with (l := (/ SAu_R * (1 + 0))%R); [| ring].
    apply derivable_pt_lim_scal. apply derivable_pt_lim_plus.
    + apply derivable_pt_lim_id.
    + apply derivable_pt_lim_const.
  - apply derivable_pt_lim_sqrt. exact Hu.
Qed.

(** The SA-derivative of a table polynomial in the reduced salinity: the
    polynomial of the differentiated table, divided by s. *)
Lemma poly3_derivative_SA (neg : bool) (tbl : list (nat * nat * nat * R))
    (t p SA : R) :
  (-32 < SA)%R ->
  let s := R_sqrt.sqrt ((SA + lit 32) / SAu_R) in
  derivable_pt_lim
    (fun sa => poly3 tbl (R_sqrt.sqrt ((sa + lit 32) / SAu_R)) t p) SA
    ((if neg then -1 else 1)
     * (poly3 (ds_gen (scale_s_R neg) tbl) s t p / s))%R.
Proof.
  intros H s. destruct (reduced_salinity_derivative SA H) as [Hs Hd].
  fold s in Hs, Hd. assert (HS := SAu_R_pos).
  eapply derivable_pt_lim_val.
  - apply (derivable_pt_lim_comp
             (fun sa => R_sqrt.sqrt ((sa + lit 32) / SAu_R))
             (fun s => poly3 tbl s t p)).
    + exact Hd.
    + apply poly3_derivative_s.
  - fold s. rewrite poly3_ds_gen_scale. destruct neg; field; lra.
Qed.

(** ** The evaluators in full polynomial form *)

Lemma bsq_polynomial_form (SA CT p : R) :
  let '(s, t, pt) := reduced SA CT p in
  let '(rho, a, b, r0, r) := Bsq.polyTEOS10_bsq SA CT p in
  rho = (poly1 Bsq.R0_table pt * pt + poly3 Bsq.R_table s t pt)%R /\
  r0 = (poly1 Bsq.R0_table pt * pt)%R /\
  r = poly3 Bsq.R_table s t pt /\
  a = poly3 Bsq.ALP_table s t pt /\
  b = (poly3 Bsq.BET_table s t pt / s)%R.
Proof.
  generalize (bsq_as_polynomials SA CT p). expose_R.
  intros (H0 & Hr & Ha & Hb).
  split; [rewrite <- H0, <- Hr; apply Rplus_comm |].
  split; [exact H0 |]. split; [exact Hr |]. split; assumption.
Qed.

Lemma stif_polynomial_form (SA CT p : R) :
  let '(s, t, pt) := reduced SA CT p in
  let '(rho, a, b, r1, rdot) := Stif.polyTEOS10_stif SA CT p in
  rho = ((poly1 Stif.R1_table pt * pt + 1) * poly3 Stif.R_table s t pt)%R /\
  r1 = (poly1 Stif.R1_table pt * pt + 1)%R /\
  rdot = poly3 Stif.R_table s t pt /\
  a = (r1 * poly3 Stif.ALP_table s t pt)%R /\
  b = (r1 * poly3 Stif.BET_table s t pt / s)%R.
Proof.
  generalize (stif_as_polynomials SA CT p). expose_R.
  intros (H1 & Hr & Ha & Hb).
  split; [rewrite <- H1, <- Hr; reflexivity |].
  split; [exact H1 |]. split; [exact Hr |]. split; [exact Ha |].
  rewrite Hb. unfold Rdiv. ring.
Qed.

Lemma t55_polynomial_form (SA CT p : R) :
  let '(s, t, pt) := reduced SA CT p in
  let '(specvol, alpha, beta, v0, delta) := V55.polyTEOS10_55t SA CT p in
  specvol = (poly1 V55.V0_table pt * pt + poly3 V55.V_table s t pt)%R /\
  v0 = (poly1 V55.V0_table pt * pt)%R /\
  delta = poly3 V55.V_table s t pt /\
  alpha = (poly3 V55.A_table s t pt / specvol)%R /\
  beta = (poly3 V55.B_table s t pt / s / specvol)%R.
Proof.
  generalize (t55_as_polynomials SA CT p). expose_R.
  intros (H0 & Hd & Ha & Hb).
  split; [rewrite <- H0, <- Hd; reflexivity |].
  split; [exact H0 |]. split; [exact Hd |]. split; assumption.
Qed.

Lemma t75_polynomial_form (SA CT p : R) :
  let '(s, t, pt) := reduced SA CT p in
  let '(specvol, alpha, beta, v0, delta) := V75.polyTEOS10_75t SA CT p in
  specvol = (poly1 V75.V0_table pt * pt + poly3 V75.V_table s t pt)%R /\
  v0 = (poly1 V75.V0_table pt * pt)%R /\
  delta = poly3 V75.V_table s t pt /\
  alpha = (poly3 V75.A_table s t pt / specvol)%R /\
  beta = (poly3 V75.B_table s t pt / s / specvol)%R.
Proof.
  generalize (t75_as_polynomials SA CT p). expose_R.
  intros (H0 & Hd & Ha & Hb).
  split; [rewrite <- H0, <- Hd; reflexivity |].
  split; [exact H0 |]. split; [exact Hd |]. split; assumption.
Qed.

(** ** The primary outputs as polynomials *)

(** X1.  Over the reals, with (s, t, p~) the reduced variables,
    [polyTEOS10_bsq] returns r0 = sum over k of R0k * p~^(k+1),
    r = sum over (i, j, k) of Rijk * s^i * t^j * p~^k and rho = r0 + r:
    the nested products of the source compute the polynomial whose
    monomial exponents are the digits of each coefficient's name. *)
Theorem bsq_density_polynomial (SA CT p : R) :
  let '(s, t, pt) := reduced SA CT p in
  let '(rho, a, b, r0, r) := Bsq.polyTEOS10_bsq SA CT p in
  r0 = (poly1 Bsq.R0_table pt * pt)%R /\
  r = poly3 Bsq.R_table s t pt /\
  rho = (poly1 Bsq.R0_table pt * pt + poly3 Bsq.R_table s t pt)%R.
Proof.
  generalize (bsq_polynomial_form SA CT p).
  cbv beta iota delta [reduced].
  destruct (Bsq.polyTEOS10_bsq SA CT p) as [[[[rho a] b] r0] r].
  intros (H & H0 & Hr & _). split; [exact H0 |]. split; [exact Hr | exact H].
Qed.

(** X2.  Over the reals, with (s, t, p~) the reduced variables,
    [polyTEOS10_stif] returns r1 = 1 + sum over k of R1k * p~^(k+1),
    rdot = sum over (i, j, k) of Rijk * s^i * t^j * p~^k and
    rho = r1 * rdot. *)
Theorem stif_density_polynomial (SA CT p : R) :
  let '(s, t, pt) := reduced SA CT p in
  let '(rho, a, b, r1, rdot) := Stif.polyTEOS10_stif SA CT p in
  r1 = (poly1 Stif.R1_table pt * pt + 1)%R /\
  rdot = poly3 Stif.R_table s t pt /\
  rho = ((poly1 Stif.R1_table pt * pt + 1) * poly3 Stif.R_table s t pt)%R.
Proof.
  generalize (stif_polynomial_form SA CT p).
  cbv beta iota delta [reduced].
  destruct (Stif.polyTEOS10_stif SA CT p) as [[[[rho a] b] r1] rdot].
  intros (H & H1 & Hr & _). split; [exact H1 |]. split; [exact Hr | exact H].
Qed.

(** X3.  Over the reals, with (s, t, p~) the reduced variables,
    [polyTEOS10_55t] returns v0 = sum over k of V0k * p~^(k+1),
    delta = sum over (i, j, k) of Vijk * s^i * t^j * p~^k and
    specvol = v0 + delta. *)
Theorem t55_specvol_polynomial (SA CT p : R) :
  let '(s, t, pt) := reduced SA CT p in
  let '(specvol, alpha, beta, v0, delta) := V55.polyTEOS10_55t SA CT p in
  v0 = (poly1 V55.V0_table pt * pt)%R /\
  delta = poly3 V55.V_table s t pt /\
  specvol = (poly1 V55.V0_table pt * pt + poly3 V55.V_table s t pt)%R.
Proof.
  generalize (t55_polynomial_form SA CT p).
  cbv beta iota delta [reduced].
  destruct (V55.polyTEOS10_55t SA CT p) as [[[[specvol alpha] beta] v0] delta].
  intros (H & H0 & Hd & _). split; [exact H0 |]. split; [exact Hd | exact H].
Qed.

(** X4.  Over the reals, with (s, t, p~) the reduced variables,
    [polyTEOS10_75t] returns v0 = sum over k of V0k * p~^(k+1),
    delta = sum over (i, j, k) of Vijk * s^i * t^j * p~^k and
    specvol = v0 + delta. *)
Theorem t75_specvol_polynomial (SA CT p : R) :
  let '(s, t, pt) := reduced SA CT p in
  let '(specvol, alpha, beta, v0, delta) := V75.polyTEOS10_75t SA CT p in
  v0 = (poly1 V75.V0_table pt * pt)%R /\
  delta = poly3 V75.V_table s t pt /\
  specvol = (poly1 V75.V0_table pt * pt + poly3 V75.V_table s t pt)%R.
Proof.
  generalize (t75_polynomial_form SA CT p).
  cbv beta iota delta [reduced].
  destruct (V75.polyTEOS10_75t SA CT p) as [[[[specvol alpha] beta] v0] delta].
  intros (H & H0 & Hd & _). split; [exact H0 |]. split; [exact Hd | exact H].
Qed.

(** ** Closeness of the derivative tables, in rational arithmetic *)

(** Each table of a derivative output lists the powers of the
    differentiated table of the primary output, in the same order, with
    coefficients within 1e-10 (relative) of the exact derivative
    coefficients. *)
Lemma bsq_BET_table_rounded :
  all2 (close_entryQ 1e-10) Bsq.BET_table
    (ds_gen (scale_s_Q false) Bsq.R_table) = true.
Proof. vm_compute. reflexivity. Qed.

Lemma stif_ALP_table_rounded :
  all2 (close_entryQ 1e-10) Stif.ALP_table
    (dCT_gen (scale_t_Q true) Stif.R_table) = true.
Proof. vm_compute. reflexivity. Qed.

Lemma stif_BET_table_rounded :
  all2 (close_entryQ 1e-10) Stif.BET_table
    (ds_gen (scale_s_Q false) Stif.R_table) = true.
Proof. vm_compute. reflexivity. Qed.

Lemma t55_A_table_rounded :
  all2 (close_entryQ 1e-10) V55.A_table
    (dCT_gen (scale_t_Q false) V55.V_table) = true.
Proof. vm_compute. reflexivity. Qed.

Lemma t55_B_table_rounded :
  all2 (close_entryQ 1e-10) V55.B_table
    (ds_gen (scale_s_Q true) V55.V_table) = true.
Proof. vm_compute. reflexivity. Qed.

Lemma t75_A_table_rounded :
  all2 (close_entryQ 1e-10) V75.A_table
    (dCT_gen (scale_t_Q false) V75.V_table) = true.
Proof. vm_compute. reflexivity. Qed.

Lemma t75_B_table_rounded :
  all2 (close_entryQ 1e-10) V75.B_table
    (ds_gen (scale_s_Q true) V75.V_table) = true.
Proof. vm_compute. reflexivity. Qed.

Lemma close_dCT (neg : bool) (A B : list (nat * nat * nat * Q)) :
  all2 (close_entryQ 1e-10) A (dCT_gen (scale_t_Q neg) B) = true ->
  Forall2 (close_entry eps10) (map toR A)
    (dCT_gen (scale_t_R neg) (map toR B)).
Proof.
  intros H. rewrite <- (dCT_gen_toR _ _ _ (Q2R_scale_t neg)).
  apply all2_close_sound. exact H.
Qed.

Lemma close_ds (neg : bool) (A B : list (nat * nat * nat * Q)) :
  all2 (close_entryQ 1e-10) A (ds_gen (scale_s_Q neg) B) = true ->
  Forall2 (close_entry eps10) (map toR A)
    (ds_gen (scale_s_R neg) (map toR B)).
Proof.
  intros H. rewrite <- (ds_gen_toR _ _ _ (Q2R_scale_s neg)).
  apply all2_close_sound. exact H.
Qed.

Lemma derivable_pt_lim_affine (f g : R -> R) (c0 c1 x l : R) :
  (forall z, f z = (c0 + c1 * g z)%R) ->
  derivable_pt_lim g x l -> derivable_pt_lim f x (c1 * l)%R.
Proof.
  intros E H.
  apply derivable_pt_lim_ext with
    (f := (fct_cte c0 + mult_real_fct c1 g)%F).
  { intros z. rewrite E. reflexivity. }
  apply derivable_pt_lim_val with (l := (0 + c1 * l)%R); [| ring].
  apply derivable_pt_lim_plus.
  - apply derivable_pt_lim_const.
  - apply derivable_pt_lim_scal. exact H.
Qed.

Lemma poly3_close_div (eps : R) (A B : list (nat * nat * nat * R))
    (s t p c : R) :
  (0 <= eps)%R -> (0 < s)%R ->
  Forall2 (close_entry eps) A B ->
  (Rabs (c * poly3 A s t p / s - c * poly3 B s t p / s)
   <= eps * Rabs c
      * poly3 (abs_table B) (Rabs s) (Rabs t) (Rabs p) / s)%R.
Proof.
  intros He Hs H.
  replace (c * poly3 A s t p / s - c * poly3 B s t p / s)%R
    with (c * (poly3 A s t p - poly3 B s t p) * / s)%R
    by (field; lra).
  rewrite !Rabs_mult, (Rabs_right (/ s))
    by (left; apply Rinv_0_lt_compat; exact Hs).
  assert (H1 := poly3_close eps A B s t p He H).
  assert (H2 : (0 <= Rabs c)%R) by apply Rabs_pos.
  assert (H3 : (0 < / s)%R) by (apply Rinv_0_lt_compat; exact Hs).
  unfold Rdiv. apply Rmult_le_compat_r; [lra |].
  replace (eps * Rabs c * poly3 (abs_table B) (Rabs s) (Rabs t) (Rabs p))%R
    with (Rabs c * (eps * poly3 (abs_table B) (Rabs s) (Rabs t) (Rabs p)))%R
    by ring.
  apply Rmult_le_compat_l; assumption.
Qed.

Lemma poly3_close_scaled (eps : R) (A B : list (nat * nat * nat * R))
    (s t p c : R) :
  (0 <= eps)%R ->
  Forall2 (close_entry eps) A B ->
  (Rabs (c * poly3 A s t p - c * poly3 B s t p)
   <= eps * Rabs c * poly3 (abs_table B) (Rabs s) (Rabs t) (Rabs p))%R.
Proof.
  intros He H.
  replace (c * poly3 A s t p - c * poly3 B s t p)%R
    with (c * (poly3 A s t p - poly3 B s t p))%R by ring.
  rewrite Rabs_mult.
  assert (H1 := poly3_close eps A B s t p He H).
  assert (H2 : (0 <= Rabs c)%R) by apply Rabs_pos.
  replace (eps * Rabs c * poly3 (abs_table B) (Rabs s) (Rabs t) (Rabs p))%R
    with (Rabs c * (eps * poly3 (abs_table B) (Rabs s) (Rabs t) (Rabs p)))%R
    by ring.
  apply Rmult_le_compat_l; assumption.
Qed.

(** ** Haline contraction of [polyTEOS10_bsq] *)

(** X5.  For SA > -32, over the reals: the density rho of [polyTEOS10_bsq] is
    differentiable in SA, its derivative is d = D(s, t, p~) / s where D is
    the polynomial with coefficients (i+1) / (2 SAu) * R(i+1, j, k), and
    the output b differs from d by at most 1e-10 times the sum of
    |coefficient of D| * |s|^i * |t|^j * |p~|^k, divided by s. *)
Theorem bsq_haline_contraction_is_rounded_derivative (SA CT p : R) :
  (-32 < SA)%R ->
  let '(s, t, pt) := reduced SA CT p in
  let D := ds_gen (scale_s_R false) Bsq.R_table in
  let d := (poly3 D s t pt / s)%R in
  derivable_pt_lim
    (fun sa => let '(rho, a, b, r0, r) := Bsq.polyTEOS10_bsq sa CT p in rho)
    SA d /\
  (let '(rho, a, b, r0, r) := Bsq.polyTEOS10_bsq SA CT p in
   (Rabs (b - d)
    <= eps10 * poly3 (abs_table D) (Rabs s) (Rabs t) (Rabs pt) / s)%R).
Proof.
  intros H.
  destruct (reduced_salinity_derivative SA H) as [Hs _].
  generalize (bsq_polynomial_form SA CT p).
  cbv beta iota delta [reduced]. cbv zeta.
  change (fsqrt ((SA + lit 32) / (lit 40 * lit 35.16504 / lit 35)))
    with (R_sqrt.sqrt ((SA + lit 32) / SAu_R)).
  set (s := R_sqrt.sqrt ((SA + lit 32) / SAu_R)) in *.
  set (t := CT / lit 40). set (pt := p / lit 1e4).
  intros Hform. split.
  - apply derivable_pt_lim_val with
      (l := (1 * (1 * (poly3 (ds_gen (scale_s_R false) Bsq.R_table) s t pt
                       / s)))%R); [| ring].
    apply derivable_pt_lim_affine with
      (c0 := (poly1 Bsq.R0_table pt * pt)%R)
      (g := fun sa => poly3 Bsq.R_table
                        (R_sqrt.sqrt ((sa + lit 32) / SAu_R)) t pt).
    + intros z. generalize (bsq_polynomial_form z CT p).
      cbv beta iota delta [reduced].
      destruct (Bsq.polyTEOS10_bsq z CT p) as [[[[rho a] b] r0] r].
      intros (-> & _). fold t pt.
      unfold fsqrt, fadd, fdiv, fmul, Arith_R, SAu_R. ring.
    + apply (poly3_derivative_SA false Bsq.R_table t pt SA H).
  - destruct (Bsq.polyTEOS10_bsq SA CT p) as [[[[rho a] b] r0] r].
    destruct Hform as (_ & _ & _ & _ & ->).
    assert (Hc := poly3_close_div eps10 Bsq.BET_table
                    (ds_gen (scale_s_R false) Bsq.R_table) s t pt 1
                    eps10_nonneg Hs
                    (close_ds false _ _ bsq_BET_table_rounded)).
    rewrite Rabs_R1, Rmult_1_r in Hc.
    unfold Rdiv in *. rewrite !Rmult_1_l in Hc. exact Hc.
Qed.

Lemma bsq_haline_contraction_is_rounded_derivative_witness :
  (-32 < 30)%R /\
  (let '(s, t, pt) := reduced 30%R 10%R 1000%R in
   let D := ds_gen (scale_s_R false) Bsq.R_table in
   let d := (poly3 D s t pt / s)%R in
   derivable_pt_lim
     (fun sa =>
        let '(rho, a, b, r0, r) :=
          Bsq.polyTEOS10_bsq sa 10%R 1000%R in rho)
     30%R d /\
   (let '(rho, a, b, r0, r) := Bsq.polyTEOS10_bsq 30%R 10%R 1000%R in
    (Rabs (b - d)
     <= eps10 * poly3 (abs_table D) (Rabs s) (Rabs t) (Rabs pt) / s)%R)).
Proof.
  split; [lra |].
  apply (bsq_haline_contraction_is_rounded_derivative 30 10 1000).
  lra.
Defined.

(** Name the reduced variables of the point (SA, CT, p). *)
Ltac name_reduced SA CT p :=
  cbv beta iota delta [reduced]; cbv zeta;
  change (fsqrt ((SA + lit 32) / (lit 40 * lit 35.16504 / lit 35)))
    with (R_sqrt.sqrt ((SA + lit 32) / SAu_R));
  set (s := R_sqrt.sqrt ((SA + lit 32) / SAu_R)) in *;
  set (t := (CT / lit 40)%num); set (pt := (p / lit 1e4)%num).

(** ** Derivative outputs of [polyTEOS10_stif] *)

(** X6.  For SA >= -32, over the reals: the density rho of [polyTEOS10_stif]
    is differentiable in CT with derivative - d, where d = r1 * D(s, t, p~)
    and D is the polynomial with coefficients -(j+1)/40 * R(i, j+1, k);
    the output a differs from d by at most 1e-10 * |r1| times the sum of
    |coefficient of D| * |s|^i * |t|^j * |p~|^k. *)
Theorem stif_thermal_expansion_is_rounded_derivative (SA CT p : R) :
  (-32 <= SA)%R ->
  let '(s, t, pt) := reduced SA CT p in
  let D := dCT_gen (scale_t_R true) Stif.R_table in
  let '(rho, a, b, r1, rdot) := Stif.polyTEOS10_stif SA CT p in
  let d := (r1 * poly3 D s t pt)%R in
  derivable_pt_lim
    (fun ct =>
       let '(rho, a, b, r1, rdot) := Stif.polyTEOS10_stif SA ct p in rho)
    CT (- d)%R /\
  (Rabs (a - d)
   <= eps10 * Rabs r1 * poly3 (abs_table D) (Rabs s) (Rabs t) (Rabs pt))%R.
Proof.
  intros _.
  generalize (stif_polynomial_form SA CT p).
  name_reduced SA CT p.
  destruct (Stif.polyTEOS10_stif SA CT p) as [[[[rho a] b] r1] rdot].
  intros (_ & -> & _ & -> & _). cbv zeta. split.
  - apply derivable_pt_lim_val with
      (l := ((poly1 Stif.R1_table pt * pt + 1)
             * (-1 * poly3 (dCT_gen (scale_t_R true) Stif.R_table) s t pt))%R);
      [| ring].
    apply derivable_pt_lim_affine with (c0 := 0%R)
      (g := fun ct => poly3 Stif.R_table s (ct / lit 40)%R pt).
    + intros z. generalize (stif_polynomial_form SA z p).
      cbv beta iota delta [reduced].
      destruct (Stif.polyTEOS10_stif SA z p) as [[[[rho' a'] b'] r1'] rdot'].
      intros (-> & _). fold pt.
      unfold s, fsqrt, fadd, fdiv, fmul, Arith_R, SAu_R. ring.
    + apply (poly3_derivative_CT true).
  - apply poly3_close_scaled; [exact eps10_nonneg |].
    exact (close_dCT true _ _ stif_ALP_table_rounded).
Qed.

Lemma stif_thermal_expansion_is_rounded_derivative_witness :
  (-32 <= 30)%R /\
  (let '(s, t, pt) := reduced 30%R 10%R 1000%R in
   let D := dCT_gen (scale_t_R true) Stif.R_table in
   let '(rho, a, b, r1, rdot) := Stif.polyTEOS10_stif 30%R 10%R 1000%R in
   let d := (r1 * poly3 D s t pt)%R in
   derivable_pt_lim
     (fun ct =>
        let '(rho, a, b, r1, rdot) :=
          Stif.polyTEOS10_stif 30%R ct 1000%R in rho)
     10%R (- d)%R /\
   (Rabs (a - d)
    <= eps10 * Rabs r1 * poly3 (abs_table D) (Rabs s) (Rabs t) (Rabs pt))%R).
Proof.
  split; [lra |].
  apply (stif_thermal_expansion_is_rounded_derivative 30 10 1000).
  lra.
Defined.

(** X7.  For SA > -32, over the reals: the density rho of [polyTEOS10_stif]
    is differentiable in SA with derivative d = r1 * D(s, t, p~) / s,
    where D is the polynomial with coefficients
    (i+1) / (2 SAu) * R(i+1, j, k); the output b differs from d by at most
    1e-10 * |r1| times the sum of |coefficient of D| * |s|^i * |t|^j *
    |p~|^k, divided by s. *)
Theorem stif_haline_contraction_is_rounded_derivative (SA CT p : R) :
  (-32 < SA)%R ->
  let '(s, t, pt) := reduced SA CT p in
  let D := ds_gen (scale_s_R false) Stif.R_table in
  let '(rho, a, b, r1, rdot) := Stif.polyTEOS10_stif SA CT p in
  let d := (r1 * poly3 D s t pt / s)%R in
  derivable_pt_lim
    (fun sa =>
       let '(rho, a, b, r1, rdot) := Stif.polyTEOS10_stif sa CT p in rho)
    SA d /\
  (Rabs (b - d)
   <= eps10 * Rabs r1 * poly3 (abs_table D) (Rabs s) (Rabs t) (Rabs pt)
      / s)%R.
Proof.
  intros H.
  destruct (reduced_salinity_derivative SA H) as [Hs _].
  generalize (stif_polynomial_form SA CT p).
  name_reduced SA CT p.
  destruct (Stif.polyTEOS10_stif SA CT p) as [[[[rho a] b] r1] rdot].
  intros (_ & -> & _ & _ & ->). cbv zeta. split.
  - apply derivable_pt_lim_val with
      (l := ((poly1 Stif.R1_table pt * pt + 1)
             * (1 * (poly3 (ds_gen (scale_s_R false) Stif.R_table) s t pt
                     / s)))%R);
      [| unfold Rdiv; ring].
    apply derivable_pt_lim_affine with (c0 := 0%R)
      (g := fun sa => poly3 Stif.R_table
                        (R_sqrt.sqrt ((sa + lit 32) / SAu_R)) t pt).
    + intros z. generalize (stif_polynomial_form z CT p).
      cbv beta iota delta [reduced].
      destruct (Stif.polyTEOS10_stif z CT p) as [[[[rho' a'] b'] r1'] rdot'].
      intros (-> & _). fold t pt.
      unfold fsqrt, fadd, fdiv, fmul, Arith_R, SAu_R. ring.
    + apply (poly3_derivative_SA false Stif.R_table t pt SA H).
  - apply poly3_close_div; [exact eps10_nonneg | exact Hs |].
    exact (close_ds false _ _
             stif_BET_table_rounded).
Qed.

Lemma stif_haline_contraction_is_rounded_derivative_witness :
  (-32 < 30)%R /\
  (let '(s, t, pt) := reduced 30%R 10%R 1000%R in
   let D := ds_gen (scale_s_R false) Stif.R_table in
   let '(rho, a, b, r1, rdot) := Stif.polyTEOS10_stif 30%R 10%R 1000%R in
   let d := (r1 * poly3 D s t pt / s)%R in
   derivable_pt_lim
     (fun sa =>
        let '(rho, a, b, r1, rdot) :=
          Stif.polyTEOS10_stif sa 10%R 1000%R in rho)
     30%R d /\
   (Rabs (b - d)
    <= eps10 * Rabs r1 * poly3 (abs_table D) (Rabs s) (Rabs t) (Rabs pt)
       / s)%R).
Proof.
  split; [lra |].
  apply (stif_haline_contraction_is_rounded_derivative 30 10 1000).
  lra.
Defined.

(** ** Derivative outputs of [polyTEOS10_55t] *)

(** X8.  For SA >= -32, over the reals: the specific volume of
    [polyTEOS10_55t] is differentiable in CT with derivative
    d = D(s, t, p~), where D is the polynomial with coefficients
    (j+1)/40 * V(i, j+1, k); the output alpha is a_raw / specvol, where
    a_raw is the polynomial of the A coefficients, and a_raw differs from
    d by at most 1e-10 times the sum of |coefficient of D| * |s|^i *
    |t|^j * |p~|^k. *)
Theorem t55_thermal_expansion_is_rounded_derivative (SA CT p : R) :
  (-32 <= SA)%R ->
  let '(s, t, pt) := reduced SA CT p in
  let D := dCT_gen (scale_t_R false) V55.V_table in
  let d := poly3 D s t pt in
  let a_raw := poly3 V55.A_table s t pt in
  derivable_pt_lim
    (fun ct =>
       let '(specvol, alpha, beta, v0, delta) :=
         V55.polyTEOS10_55t SA ct p in specvol)
    CT d /\
  (let '(specvol, alpha, beta, v0, delta) := V55.polyTEOS10_55t SA CT p in
   alpha = (a_raw / specvol)%R) /\
  (Rabs (a_raw - d)
   <= eps10 * poly3 (abs_table D) (Rabs s) (Rabs t) (Rabs pt))%R.
Proof.
  intros _.
  generalize (t55_polynomial_form SA CT p).
  name_reduced SA CT p.
  destruct (V55.polyTEOS10_55t SA CT p) as [[[[specvol alpha] beta] v0] delta].
  intros (_ & _ & _ & Ha & _).
  split; [| split; [exact Ha |]].
  - apply derivable_pt_lim_val with
      (l := (1 * (1 * poly3 (dCT_gen (scale_t_R false) V55.V_table) s t pt))%R);
      [| ring].
    apply derivable_pt_lim_affine with
      (c0 := (poly1 V55.V0_table pt * pt)%R)
      (g := fun ct => poly3 V55.V_table s (ct / lit 40)%R pt).
    + intros z. generalize (t55_polynomial_form SA z p).
      cbv beta iota delta [reduced].
      destruct (V55.polyTEOS10_55t SA z p) as [[[[v' a'] b'] v0'] d'].
      intros (-> & _). fold pt.
      unfold s, fsqrt, fadd, fdiv, fmul, Arith_R, SAu_R. ring.
    + apply (poly3_derivative_CT false).
  - apply poly3_close; [exact eps10_nonneg |].
    exact (close_dCT false _ _ t55_A_table_rounded).
Qed.

Lemma t55_thermal_expansion_is_rounded_derivative_witness :
  (-32 <= 30)%R /\
  (let '(s, t, pt) := reduced 30%R 10%R 1000%R in
   let D := dCT_gen (scale_t_R false) V55.V_table in
   let d := poly3 D s t pt in
   let a_raw := poly3 V55.A_table s t pt in
   derivable_pt_lim
     (fun ct =>
        let '(specvol, alpha, beta, v0, delta) :=
          V55.polyTEOS10_55t 30%R ct 1000%R in specvol)
     10%R d /\
   (let '(specvol, alpha, beta, v0, delta) :=
      V55.polyTEOS10_55t 30%R 10%R 1000%R in
    alpha = (a_raw / specvol)%R) /\
   (Rabs (a_raw - d)
    <= eps10 * poly3 (abs_table D) (Rabs s) (Rabs t) (Rabs pt))%R).
Proof.
  split; [lra |].
  apply (t55_thermal_expansion_is_rounded_derivative 30 10 1000).
  lra.
Defined.

(** X9.  For SA > -32, over the reals: the specific volume of
    [polyTEOS10_55t] is differentiable in SA with derivative - d, where
    d = D(s, t, p~) / s and D is the polynomial with coefficients
    -(i+1) / (2 SAu) * V(i+1, j, k); the output beta is
    b_raw / s / specvol, where b_raw is the polynomial of the B
    coefficients, and b_raw / s differs from d by at most 1e-10 times the
    sum of |coefficient of D| * |s|^i * |t|^j * |p~|^k, divided by s. *)
Theorem t55_haline_contraction_is_rounded_derivative (SA CT p : R) :
  (-32 < SA)%R ->
  let '(s, t, pt) := reduced SA CT p in
  let D := ds_gen (scale_s_R true) V55.V_table in
  let d := (poly3 D s t pt / s)%R in
  let b_raw := poly3 V55.B_table s t pt in
  derivable_pt_lim
    (fun sa =>
       let '(specvol, alpha, beta, v0, delta) :=
         V55.polyTEOS10_55t sa CT p in specvol)
    SA (- d)%R /\
  (let '(specvol, alpha, beta, v0, delta) := V55.polyTEOS10_55t SA CT p in
   beta = (b_raw / s / specvol)%R) /\
  (Rabs (b_raw / s - d)
   <= eps10 * poly3 (abs_table D) (Rabs s) (Rabs t) (Rabs pt) / s)%R.
Proof.
  intros H.
  destruct (reduced_salinity_derivative SA H) as [Hs _].
  generalize (t55_polynomial_form SA CT p).
  name_reduced SA CT p.
  destruct (V55.polyTEOS10_55t SA CT p) as [[[[specvol alpha] beta] v0] delta].
  intros (_ & _ & _ & _ & Hb).
  split; [| split; [exact Hb |]].
  - apply derivable_pt_lim_val with
      (l := (1 * (-1 * (poly3 (ds_gen (scale_s_R true) V55.V_table) s t pt
                        / s)))%R);
      [| unfold Rdiv; ring].
    apply derivable_pt_lim_affine with
      (c0 := (poly1 V55.V0_table pt * pt)%R)
      (g := fun sa => poly3 V55.V_table
                        (R_sqrt.sqrt ((sa + lit 32) / SAu_R)) t pt).
    + intros z. generalize (t55_polynomial_form z CT p).
      cbv beta iota delta [reduced].
      destruct (V55.polyTEOS10_55t z CT p) as [[[[v' a'] b'] v0'] d'].
      intros (-> & _). fold t pt.
      unfold fsqrt, fadd, fdiv, fmul, Arith_R, SAu_R. ring.
    + apply (poly3_derivative_SA true V55.V_table t pt SA H).
  - assert (Hc := poly3_close_div eps10 V55.B_table
                    (ds_gen (scale_s_R true) V55.V_table) s t pt 1
                    eps10_nonneg Hs (close_ds true _ _ t55_B_table_rounded)).
    rewrite Rabs_R1, Rmult_1_r in Hc.
    unfold Rdiv in *. rewrite !Rmult_1_l in Hc. exact Hc.
Qed.

Lemma t55_haline_contraction_is_rounded_derivative_witness :
  (-32 < 30)%R /\
  (let '(s, t, pt) := reduced 30%R 10%R 1000%R in
   let D := ds_gen (scale_s_R true) V55.V_table in
   let d := (poly3 D s t pt / s)%R in
   let b_raw := poly3 V55.B_table s t pt in
   derivable_pt_lim
     (fun sa =>
        let '(specvol, alpha, beta, v0, delta) :=
          V55.polyTEOS10_55t sa 10%R 1000%R in specvol)
     30%R (- d)%R /\
   (let '(specvol, alpha, beta, v0, delta) :=
      V55.polyTEOS10_55t 30%R 10%R 1000%R in
    beta = (b_raw / s / specvol)%R) /\
   (Rabs (b_raw / s - d)
    <= eps10 * poly3 (abs_table D) (Rabs s) (Rabs t) (Rabs pt) / s)%R).
Proof.
  split; [lra |].
  apply (t55_haline_contraction_is_rounded_derivative 30 10 1000).
  lra.
Defined.

(** ** Derivative outputs of [polyTEOS10_75t] *)

(** X10.  For SA >= -32, over the reals: the specific volume of
    [polyTEOS10_75t] is differentiable in CT with derivative
    d = D(s, t, p~), where D is the polynomial with coefficients
    (j+1)/40 * V(i, j+1, k); the output alpha is a_raw / specvol, where
    a_raw is the polynomial of the A coefficients, and a_raw differs from
    d by at most 1e-10 times the sum of |coefficient of D| * |s|^i *
    |t|^j * |p~|^k. *)
Theorem t75_thermal_expansion_is_rounded_derivative (SA CT p : R) :
  (-32 <= SA)%R ->
  let '(s, t, pt) := reduced SA CT p in
  let D := dCT_gen (scale_t_R false) V75.V_table in
  let d := poly3 D s t pt in
  let a_raw := poly3 V75.A_table s t pt in
  derivable_pt_lim
    (fun ct =>
       let '(specvol, alpha, beta, v0, delta) :=
         V75.polyTEOS10_75t SA ct p in specvol)
    CT d /\
  (let '(specvol, alpha, beta, v0, delta) := V75.polyTEOS10_75t SA CT p in
   alpha = (a_raw / specvol)%R) /\
  (Rabs (a_raw - d)
   <= eps10 * poly3 (abs_table D) (Rabs s) (Rabs t) (Rabs pt))%R.
Proof.
  intros _.
  generalize (t75_polynomial_form SA CT p).
  name_reduced SA CT p.
  destruct (V75.polyTEOS10_75t SA CT p) as [[[[specvol alpha] beta] v0] delta].
  intros (_ & _ & _ & Ha & _).
  split; [| split; [exact Ha |]].
  - apply derivable_pt_lim_val with
      (l := (1 * (1 * poly3 (dCT_gen (scale_t_R false) V75.V_table) s t pt))%R);
      [| ring].
    apply derivable_pt_lim_affine with
      (c0 := (poly1 V75.V0_table pt * pt)%R)
      (g := fun ct => poly3 V75.V_table s (ct / lit 40)%R pt).
    + intros z. generalize (t75_polynomial_form SA z p).
      cbv beta iota delta [reduced].
      destruct (V75.polyTEOS10_75t SA z p) as [[[[v' a'] b'] v0'] d'].
      intros (-> & _). fold pt.
      unfold s, fsqrt, fadd, fdiv, fmul, Arith_R, SAu_R. ring.
    + apply (poly3_derivative_CT false).
  - apply poly3_close; [exact eps10_nonneg |].
    exact (close_dCT false _ _ t75_A_table_rounded).
Qed.

Lemma t75_thermal_expansion_is_rounded_derivative_witness :
  (-32 <= 30)%R /\
  (let '(s, t, pt) := reduced 30%R 10%R 1000%R in
   let D := dCT_gen (scale_t_R false) V75.V_table in
   let d := poly3 D s t pt in
   let a_raw := poly3 V75.A_table s t pt in
   derivable_pt_lim
     (fun ct =>
        let '(specvol, alpha, beta, v0, delta) :=
          V75.polyTEOS10_75t 30%R ct 1000%R in specvol)
     10%R d /\
   (let '(specvol, alpha, beta, v0, delta) :=
      V75.polyTEOS10_75t 30%R 10%R 1000%R in
    alpha = (a_raw / specvol)%R) /\
   (Rabs (a_raw - d)
    <= eps10 * poly3 (abs_table D) (Rabs s) (Rabs t) (Rabs pt))%R).
Proof.
  split; [lra |].
  apply (t75_thermal_expansion_is_rounded_derivative 30 10 1000).
  lra.
Defined.

(** X11.  For SA > -32, over the reals: the specific volume of
    [polyTEOS10_75t] is differentiable in SA with derivative - d, where
    d = D(s, t, p~) / s and D is the polynomial with coefficients
    -(i+1) / (2 SAu) * V(i+1, j, k); the output beta is
    b_raw / s / specvol, where b_raw is the polynomial of the B
    coefficients, and b_raw / s differs from d by at most 1e-10 times the
    sum of |coefficient of D| * |s|^i * |t|^j * |p~|^k, divided by s. *)
Theorem t75_haline_contraction_is_rounded_derivative (SA CT p : R) :
  (-32 < SA)%R ->
  let '(s, t, pt) := reduced SA CT p in
  let D := ds_gen (scale_s_R true) V75.V_table in
  let d := (poly3 D s t pt / s)%R in
  let b_raw := poly3 V75.B_table s t pt in
  derivable_pt_lim
    (fun sa =>
       let '(specvol, alpha, beta, v0, delta) :=
         V75.polyTEOS10_75t sa CT p in specvol)
    SA (- d)%R /\
  (let '(specvol, alpha, beta, v0, delta) := V75.polyTEOS10_75t SA CT p in
   beta = (b_raw / s / specvol)%R) /\
  (Rabs (b_raw / s - d)
   <= eps10 * poly3 (abs_table D) (Rabs s) (Rabs t) (Rabs pt) / s)%R.
Proof.
  intros H.
  destruct (reduced_salinity_derivative SA H) as [Hs _].
  generalize (t75_polynomial_form SA CT p).
  name_reduced SA CT p.
  destruct (V75.polyTEOS10_75t SA CT p) as [[[[specvol alpha] beta] v0] delta].
  intros (_ & _ & _ & _ & Hb).
  split; [| split; [exact Hb |]].
  - apply derivable_pt_lim_val with
      (l := (1 * (-1 * (poly3 (ds_gen (scale_s_R true) V75.V_table) s t pt
                        / s)))%R);
      [| unfold Rdiv; ring].
    apply derivable_pt_lim_affine with
      (c0 := (poly1 V75.V0_table pt * pt)%R)
      (g := fun sa => poly3 V75.V_table
                        (R_sqrt.sqrt ((sa + lit 32) / SAu_R)) t pt).
    + intros z. generalize (t75_polynomial_form z CT p).
      cbv beta iota delta [reduced].
      destruct (V75.polyTEOS10_75t z CT p) as [[[[v' a'] b'] v0'] d'].
      intros (-> & _). fold t pt.
      unfold fsqrt, fadd, fdiv, fmul, Arith_R, SAu_R. ring.
    + apply (poly3_derivative_SA true V75.V_table t pt SA H).
  - assert (Hc := poly3_close_div eps10 V75.B_table
                    (ds_gen (scale_s_R true) V75.V_table) s t pt 1
                    eps10_nonneg Hs (close_ds true _ _ t75_B_table_rounded)).
    rewrite Rabs_R1, Rmult_1_r in Hc.
    unfold Rdiv in *. rewrite !Rmult_1_l in Hc. exact Hc.
Qed.

Lemma t75_haline_contraction_is_rounded_derivative_witness :
  (-32 < 30)%R /\
  (let '(s, t, pt) := reduced 30%R 10%R 1000%R in
   let D := ds_gen (scale_s_R true) V75.V_table in
   let d := (poly3 D s t pt / s)%R in
   let b_raw := poly3 V75.B_table s t pt in
   derivable_pt_lim
     (fun sa =>
        let '(specvol, alpha, beta, v0, delta) :=
          V75.polyTEOS10_75t sa 10%R 1000%R in specvol)
     30%R (- d)%R /\
   (let '(specvol, alpha, beta, v0, delta) :=
      V75.polyTEOS10_75t 30%R 10%R 1000%R in
    beta = (b_raw / s / specvol)%R) /\
   (Rabs (b_raw / s - d)
    <= eps10 * poly3 (abs_table D) (Rabs s) (Rabs t) (Rabs pt) / s)%R).
Proof.
  split; [lra |].
  apply (t75_haline_contraction_is_rounded_derivative 30 10 1000).
  lra.
Defined.

(** ** Missing values *)

Lemma is_nan_inv (x : float) : is_nan x = true -> x = nan.
Proof.
  unfold is_nan. rewrite eqb_spec. intros H. apply SF_nan_inv.
  destruct (Prim2SF x) as [s | s | | s m e]; try reflexivity.
  - destruct s; discriminate H.
  - destruct s; discriminate H.
  - rewrite SFeqb_refl_finite in H. discriminate H.
Qed.

Lemma add_is_nan_l (x y : float) : x = nan -> PrimFloat.add x y = nan.
Proof. intros ->. apply add_nan_l. Qed.
Lemma add_is_nan_r (x y : float) : y = nan -> PrimFloat.add x y = nan.
Proof. intros ->. apply add_nan_r. Qed.
Lemma mul_is_nan_l (x y : float) : x = nan -> PrimFloat.mul x y = nan.
Proof. intros ->. apply mul_nan_l. Qed.
Lemma mul_is_nan_r (x y : float) : y = nan -> PrimFloat.mul x y = nan.
Proof. intros ->. apply mul_nan_r. Qed.
Lemma div_is_nan_l (x y : float) : x = nan -> PrimFloat.div x y = nan.
Proof. intros ->. apply div_nan_l. Qed.
Lemma div_is_nan_r (x y : float) : y = nan -> PrimFloat.div x y = nan.
Proof. intros ->. apply div_nan_r. Qed.
Lemma sqrt_is_nan (x : float) : x = nan -> PrimFloat.sqrt x = nan.
Proof. intros ->. reflexivity. Qed.

(** Find a NaN operand in an expression, by recursion on its syntax. *)
Ltac find_nan :=
  lazymatch goal with
  | |- nan = nan => reflexivity
  | |- PrimFloat.add _ _ = nan =>
      first [apply add_is_nan_l; find_nan | apply add_is_nan_r; find_nan]
  | |- PrimFloat.mul _ _ = nan =>
      first [apply mul_is_nan_l; find_nan | apply mul_is_nan_r; find_nan]
  | |- PrimFloat.div _ _ = nan =>
      first [apply div_is_nan_l; find_nan | apply div_is_nan_r; find_nan]
  | |- PrimFloat.sqrt _ = nan => apply sqrt_is_nan; find_nan
  end.

Ltac nan_cases H :=
  apply orb_true_iff in H as [H | H];
  [apply orb_true_iff in H as [H | H] |];
  apply is_nan_inv in H; subst.

Ltac nan_outputs :=
  expose_float;
  (split; [find_nan |]); (split; [find_nan |]);
  (split; [find_nan |]); (split; [find_nan |]);
  let Hp := fresh "Hp" in
  intros Hp; apply is_nan_inv in Hp; subst; find_nan.

Lemma bsq_nan_input (SA CT p : float) :
  is_nan SA || is_nan CT || is_nan p = true ->
  let '(rho, a, b, r0, r) := Bsq.polyTEOS10_bsq SA CT p in
  rho = nan /\ a = nan /\ b = nan /\ r = nan /\
  (is_nan p = true -> r0 = nan).
Proof. intros H. nan_cases H; nan_outputs. Qed.

Lemma stif_nan_input (SA CT p : float) :
  is_nan SA || is_nan CT || is_nan p = true ->
  let '(rho, a, b, r1, rdot) := Stif.polyTEOS10_stif SA CT p in
  rho = nan /\ a = nan /\ b = nan /\ rdot = nan /\
  (is_nan p = true -> r1 = nan).
Proof. intros H. nan_cases H; nan_outputs. Qed.

Lemma t55_nan_input (SA CT p : float) :
  is_nan SA || is_nan CT || is_nan p = true ->
  let '(specvol, alpha, beta, v0, delta) := V55.polyTEOS10_55t SA CT p in
  specvol = nan /\ alpha = nan /\ beta = nan /\ delta = nan /\
  (is_nan p = true -> v0 = nan).
Proof. intros H. nan_cases H; nan_outputs. Qed.

Lemma t75_nan_input (SA CT p : float) :
  is_nan SA || is_nan CT || is_nan p = true ->
  let '(specvol, alpha, beta, v0, delta) := V75.polyTEOS10_75t SA CT p in
  specvol = nan /\ alpha = nan /\ beta = nan /\ delta = nan /\
  (is_nan p = true -> v0 = nan).
Proof. intros H. nan_cases H; nan_outputs. Qed.

(** X12.  In binary64: if SA, CT or p is NaN, then in each of the four
    evaluators the four outputs other than the reference output (r0, r1,
    v0) are NaN, and the reference output is NaN too when p is NaN. *)
Theorem nan_inputs_propagate (SA CT p : float) :
  is_nan SA || is_nan CT || is_nan p = true ->
  (let '(rho, a, b, r0, r) := Bsq.polyTEOS10_bsq SA CT p in
   rho = nan /\ a = nan /\ b = nan /\ r = nan /\
   (is_nan p = true -> r0 = nan)) /\
  (let '(rho, a, b, r1, rdot) := Stif.polyTEOS10_stif SA CT p in
   rho = nan /\ a = nan /\ b = nan /\ rdot = nan /\
   (is_nan p = true -> r1 = nan)) /\
  (let '(specvol, alpha, beta, v0, delta) := V55.polyTEOS10_55t SA CT p in
   specvol = nan /\ alpha = nan /\ beta = nan /\ delta = nan /\
   (is_nan p = true -> v0 = nan)) /\
  (let '(specvol, alpha, beta, v0, delta) := V75.polyTEOS10_75t SA CT p in
   specvol = nan /\ alpha = nan /\ beta = nan /\ delta = nan /\
   (is_nan p = true -> v0 = nan)).
Proof.
  intros H. split; [| split; [| split]].
  - exact (bsq_nan_input SA CT p H).
  - exact (stif_nan_input SA CT p H).
  - exact (t55_nan_input SA CT p H).
  - exact (t75_nan_input SA CT p H).
Qed.

Lemma nan_inputs_propagate_witness :
  is_nan SA_chk || is_nan CT_chk || is_nan nan = true /\
  (let '(rho, a, b, r0, r) := Bsq.polyTEOS10_bsq SA_chk CT_chk nan in
   rho = nan /\ a = nan /\ b = nan /\ r = nan /\
   (is_nan nan = true -> r0 = nan)) /\
  (let '(rho, a, b, r1, rdot) := Stif.polyTEOS10_stif SA_chk CT_chk nan in
   rho = nan /\ a = nan /\ b = nan /\ rdot = nan /\
   (is_nan nan = true -> r1 = nan)) /\
  (let '(specvol, alpha, beta, v0, delta) :=
     V55.polyTEOS10_55t SA_chk CT_chk nan in
   specvol = nan /\ alpha = nan /\ beta = nan /\ delta = nan /\
   (is_nan nan = true -> v0 = nan)) /\
  (let '(specvol, alpha, beta, v0, delta) :=
     V75.polyTEOS10_75t SA_chk CT_chk nan in
   specvol = nan /\ alpha = nan /\ beta = nan /\ delta = nan /\
   (is_nan nan = true -> v0 = nan)).
Proof.
  split; [vm_compute; reflexivity |].
  apply (nan_inputs_propagate SA_chk CT_chk nan). vm_compute. reflexivity.
Defined.
(** * Binary64 arithmetic: positive numbers between two binades *)

Open Scope Z_scope.

Lemma Zdigits2_ge (m k : Z) : 2 ^ (k - 1) <= m -> 0 < m -> k <= Zdigits2 m.
Proof.
  intros H Hm. assert (Hu := Zdigits2_upper m ltac:(lia)).
  assert (Hd := Zdigits2_pos m Hm).
  destruct (Z_le_gt_dec k (Zdigits2 m)) as [Hle | Hgt]; [exact Hle |].
  exfalso.
  assert (2 ^ Zdigits2 m <= 2 ^ (k - 1)) by (apply Z.pow_le_mono_r; lia).
  lia.
Qed.

Lemma Zdigits2_mono (m m' : Z) : 0 < m -> m <= m' -> Zdigits2 m <= Zdigits2 m'.
Proof.
  intros Hm H. apply Zdigits2_ge; [| lia].
  assert (Hl := Zdigits2_lower m Hm). lia.
Qed.

(** Above the smallest binade, [shr_fexp] keeps the binade of a positive
    mantissa. *)
Lemma shr_fexp_lower (m e : Z) (l : location) :
  0 < m -> SpecFloat.emin prec emax < Zdigits2 m + e ->
  let '(mrs, e') := shr_fexp prec emax m e l in
  0 < shr_m mrs /\ Zdigits2 m + e <= Zdigits2 (shr_m mrs) + e'.
Proof.
  intros Hm Hlo. generalize (shr_fexp_spec m e l ltac:(lia)). cbv zeta.
  destruct (shr_fexp prec emax m e l) as [mrs e'].
  assert (Hl := Zdigits2_lower m Hm). assert (Hd := Zdigits2_pos m Hm).
  set (d := Zdigits2 m) in *. set (f := fexp prec emax (d + e)).
  assert (Hf : f < d + e) by (subst f; unfold_fexp; lia).
  intros [(Hn & -> & ->) | (Hn & -> & ->)].
  - fold d. lia.
  - assert (Hp : 0 < 2 ^ (f - e)) by (apply Z.pow_pos_nonneg; lia).
    assert (Hq : 2 ^ (d - 1 - (f - e)) <= m / 2 ^ (f - e)).
    { apply Z.div_le_lower_bound; [exact Hp |].
      rewrite <- Z.pow_add_r by lia.
      replace (f - e + (d - 1 - (f - e))) with (d - 1) by lia. exact Hl. }
    assert (Hq0 : 0 < m / 2 ^ (f - e)).
    { eapply Z.lt_le_trans; [| exact Hq]. apply Z.pow_pos_nonneg; lia. }
    split; [exact Hq0 |].
    assert (Hg := Zdigits2_ge (m / 2 ^ (f - e)) (d - (f - e))).
    replace (d - (f - e) - 1) with (d - 1 - (f - e)) in Hg by lia.
    specialize (Hg Hq Hq0). lia.
Qed.

(** Rounding a positive mantissa above the smallest binade gives a
    positive number (or +infinity) of at least the binade of the exact
    value. *)
Lemma binary_round_aux_lower (mx ex : Z) (lx : location) :
  0 < mx -> SpecFloat.emin prec emax < Zdigits2 mx + ex ->
  lowerSF (Zdigits2 mx + ex) (binary_round_aux prec emax false mx ex lx).
Proof.
  intros Hm Hlo. unfold binary_round_aux.
  generalize (shr_fexp_facts mx ex lx ltac:(lia))
             (shr_fexp_lower mx ex lx Hm Hlo).
  destruct (shr_fexp prec emax mx ex lx) as [mrs1 e1].
  intros (H1 & _) (Hp1 & Hlo1).
  set (m1 := shr_m mrs1) in *.
  set (m2 := round_nearest_even m1 (loc_of_shr_record mrs1)).
  assert (Hm2 := round_nearest_even_bounds m1 (loc_of_shr_record mrs1)).
  fold m2 in Hm2.
  assert (H2 : 0 < m2) by lia.
  assert (Hd2 := Zdigits2_mono m1 m2 Hp1 ltac:(lia)).
  generalize (shr_fexp_lower m2 e1 loc_Exact H2 ltac:(lia)).
  destruct (shr_fexp prec emax m2 e1 loc_Exact) as [mrs3 e3].
  intros (Hp3 & Hlo3).
  destruct (shr_m mrs3) as [| m3 | m3] eqn:E3; try lia.
  cbn [Zdigits2] in Hlo3.
  destruct (e3 <=? emax - prec); cbn [lowerSF]; [lia | exact I].
Qed.

Lemma binary_round_lower (mx : positive) (ex : Z) :
  SpecFloat.emin prec emax < Zpos (digits2_pos mx) + ex ->
  lowerSF (Zpos (digits2_pos mx) + ex) (binary_round prec emax false mx ex).
Proof.
  intros Hlo. unfold binary_round.
  generalize
    (shl_align_spec mx ex (fexp prec emax (Zpos (digits2_pos mx) + ex))).
  destruct (shl_align mx ex _) as [mz ez]. intros [Hez Hmz].
  assert (E : Zdigits2 (Zpos mz) + ez = Zpos (digits2_pos mx) + ex).
  { rewrite Hmz, Zdigits2_mul_pow2 by lia. simpl Zdigits2. lia. }
  rewrite <- E. apply binary_round_aux_lower; [lia | lia].
Qed.

Lemma lowerSF_weaken (lo lo' : Z) (x : spec_float) :
  lowerSF lo x -> lo' <= lo -> lowerSF lo' x.
Proof.
  destruct x as [s | s | | s m e]; cbn [lowerSF]; try tauto.
  destruct s; [tauto | lia].
Qed.

(** *** A sum with a positive dominant term *)

Lemma SFadd_lower_pos_pos (mx my : positive) (ex ey : Z) :
  SpecFloat.emin prec emax < Zpos (digits2_pos my) + ey ->
  lowerSF (Zpos (digits2_pos my) + ey)
    (SFadd prec emax (S754_finite false mx ex) (S754_finite false my ey)).
Proof.
  intros Hlo. unfold SFadd. set (ez := Z.min ex ey).
  generalize (shl_align_spec mx ex ez) (shl_align_spec my ey ez).
  destruct (shl_align mx ex ez) as [mx' ex'].
  destruct (shl_align my ey ez) as [my' ey'].
  intros [Hex' Hmx'] [Hey' Hmy']. cbn [fst cond_Zopp].
  assert (Ey : ey' = ez) by lia. rewrite Ey in Hmy'.
  assert (Hd : Zdigits2 (Zpos my') = Zpos (digits2_pos my) + (ey - ez)).
  { rewrite Hmy', Zdigits2_mul_pow2 by lia. reflexivity. }
  change (Zpos mx' + Zpos my') with (Zpos (mx' + my')).
  cbn [binary_normalize].
  assert (Hz : Zdigits2 (Zpos my') <= Zdigits2 (Zpos (mx' + my')))
    by (apply Zdigits2_mono; lia).
  cbn [Zdigits2] in Hz, Hd.
  eapply lowerSF_weaken; [apply binary_round_lower |]; lia.
Qed.

Lemma SFadd_lower_neg_pos (mx my : positive) (ex ey : Z) :
  ex < ey -> Zpos (digits2_pos mx) <= Zpos (digits2_pos my) ->
  SpecFloat.emin prec emax < ey ->
  lowerSF ey
    (SFadd prec emax (S754_finite true mx ex) (S754_finite false my ey)).
Proof.
  intros Hex Hd Hlo. unfold SFadd.
  assert (Ez : Z.min ex ey = ex) by lia. rewrite Ez.
  generalize (shl_align_spec mx ex ex) (shl_align_spec my ey ex).
  destruct (shl_align mx ex ex) as [mx' ex'].
  destruct (shl_align my ey ex) as [my' ey'].
  intros [Hex' Hmx'] [Hey' Hmy']. cbn [fst cond_Zopp].
  assert (Hdx := digits2_pos_bounds mx). assert (Hdy := digits2_pos_bounds my).
  replace ex' with ex in Hmx' by lia. replace ey' with ex in Hmy' by lia.
  rewrite Z.sub_diag, Z.pow_0_r, Z.mul_1_r in Hmx'.
  set (n := ey - ex) in *.
  assert (HP : 0 < 2 ^ (n - 1)) by (apply Z.pow_pos_nonneg; lia).
  assert (En : 2 ^ n = 2 * 2 ^ (n - 1)).
  { replace n with (Z.succ (n - 1)) at 1 by lia.
    apply Z.pow_succ_r. lia. }
  assert (Hm2 : Zpos mx < 2 * Zpos my).
  { apply Z.lt_le_trans with (2 ^ Zpos (digits2_pos mx)); [lia |].
    apply Z.le_trans with (2 ^ Zpos (digits2_pos my));
      [apply Z.pow_le_mono_r; lia |].
    replace (Zpos (digits2_pos my))
      with (Z.succ (Zpos (digits2_pos my) - 1)) by lia.
    rewrite Z.pow_succ_r by lia. lia. }
  assert (Hz : 2 ^ (n - 1) <= - Zpos mx' + Zpos my').
  { rewrite Hmx', Hmy', En. nia. }
  destruct (- Zpos mx' + Zpos my') as [| z | z] eqn:E; try lia.
  cbn [binary_normalize].
  assert (Hg := Zdigits2_ge (Zpos z) n Hz ltac:(lia)). cbn [Zdigits2] in Hg.
  eapply lowerSF_weaken; [apply binary_round_lower |]; unfold n in *; lia.
Qed.

(** *** The quotient of a positive number by a positive constant *)

Lemma SFdiv_lower (x : spec_float) (my : positive) (ey lo : Z) :
  lowerSF lo x ->
  SpecFloat.emin prec emax + prec <= lo - (Zpos (digits2_pos my) + ey) ->
  lowerSF (lo - (Zpos (digits2_pos my) + ey))
    (SFdiv prec emax x (S754_finite false my ey)).
Proof.
  intros Hx Hlo.
  destruct x as [s | s | | s mx ex]; cbn [lowerSF] in Hx; try contradiction.
  - destruct s; [contradiction | exact I].
  - destruct s; [contradiction |]. unfold SFdiv.
    generalize (SFdiv_core_spec mx my ex ey).
    destruct (SFdiv_core_binary prec emax (Zpos mx) ex (Zpos my) ey)
      as [[q e'] l].
    intros [He' Hq].
    assert (Hdx := digits2_pos_bounds mx).
    assert (Hdy := digits2_pos_bounds my).
    set (dx := Zpos (digits2_pos mx)) in *.
    set (dy := Zpos (digits2_pos my)) in *.
    assert (Hs : prec - dx + dy <= ex - ey - e') by (unfold_fexp; lia).
    set (s := ex - ey - e') in *.
    assert (Hk : 0 <= dx + s - dy - 1) by (unfold prec in *; lia).
    assert (Hq1 : 2 ^ (dx + s - dy - 1) <= q).
    { rewrite Hq. apply Z.div_le_lower_bound; [lia |].
      apply Z.le_trans with (2 ^ dy * 2 ^ (dx + s - dy - 1)).
      - apply Z.mul_le_mono_nonneg_r; [apply Z.pow_nonneg; lia | lia].
      - rewrite <- Z.pow_add_r by (unfold dy; lia).
        replace (dy + (dx + s - dy - 1)) with (dx - 1 + s) by lia.
        rewrite Z.pow_add_r by (unfold dx, prec in *; lia).
        apply Z.mul_le_mono_nonneg_r; [apply Z.pow_nonneg; lia | lia]. }
    assert (Hq0 : 0 < q).
    { eapply Z.lt_le_trans; [| exact Hq1]. apply Z.pow_pos_nonneg; lia. }
    assert (Hg := Zdigits2_ge q (dx + s - dy) Hq1 Hq0).
    cbn [xorb].
    eapply lowerSF_weaken; [apply binary_round_aux_lower |];
      unfold s in *; unfold_fexp; lia.
Qed.

(** *** Square roots *)

Lemma SFsqrt_core_spec (m : positive) (e : Z) :
  let '(q, e', l) := SFsqrt_core_binary prec emax (Zpos m) e in
  e' = Z.min (fexp prec emax ((Zpos (digits2_pos m) + e + 1) / 2)) (e / 2) /\
  q = Z.sqrt (Zpos m * 2 ^ (e - 2 * e')).
Proof.
  unfold SFsqrt_core_binary. cbn [Zdigits2].
  rewrite !Z.div2_div.
  set (e' := Z.min _ (e / 2)).
  assert (He2 : 2 * (e / 2) <= e).
  { assert (H := Z.mul_div_le e 2 ltac:(lia)). lia. }
  assert (Hs : 0 <= e - 2 * e') by (unfold e'; lia).
  set (m' := match e - 2 * e' with
             | Z0 => Zpos m
             | Zpos _ => Z.shiftl (Zpos m) (e - 2 * e')
             | Zneg _ => 0
             end).
  assert (Hm' : m' = Zpos m * 2 ^ (e - 2 * e')).
  { unfold m'. destruct (e - 2 * e') as [| p | p] eqn:E.
    - simpl. lia.
    - apply Z.shiftl_mul_pow2. lia.
    - lia. }
  assert (Hq : fst (Z.sqrtrem m') = Z.sqrt m') by apply Z.sqrtrem_sqrt.
  destruct (Z.sqrtrem m') as [q r]. cbn [fst] in Hq.
  split; [reflexivity |]. rewrite Hq, Hm'. reflexivity.
Qed.

Lemma SFsqrt_lower (x : spec_float) (lo : Z) :
  lowerSF lo x ->
  SpecFloat.emin prec emax < (lo + 1) / 2 ->
  lowerSF ((lo + 1) / 2) (SFsqrt prec emax x).
Proof.
  intros Hx Hlo.
  destruct x as [s | s | | s mx ex]; cbn [lowerSF] in Hx; try contradiction.
  - destruct s; [contradiction | exact I].
  - destruct s; [contradiction |]. unfold SFsqrt.
    generalize (SFsqrt_core_spec mx ex).
    destruct (SFsqrt_core_binary prec emax (Zpos mx) ex) as [[q e'] l].
    intros [He' Hq].
    assert (Hdx := digits2_pos_bounds mx).
    set (dx := Zpos (digits2_pos mx)) in *.
    assert (He2 : 2 * (ex / 2) <= ex).
    { assert (H := Z.mul_div_le ex 2 ltac:(lia)). lia. }
    assert (Hs : 0 <= ex - 2 * e') by lia.
    set (s := ex - 2 * e') in *.
    set (h := (dx - 1 + s) / 2).
    assert (Hh : 0 <= h) by (apply Z.div_pos; unfold dx; lia).
    assert (Hh2 : 2 * h <= dx - 1 + s).
    { assert (H := Z.mul_div_le (dx - 1 + s) 2 ltac:(lia)). exact H. }
    assert (Hq1 : 2 ^ h <= q).
    { rewrite Hq. apply Z.sqrt_le_square; [lia | apply Z.pow_nonneg; lia |].
      rewrite <- Z.pow_add_r by lia.
      apply Z.le_trans with (2 ^ (dx - 1 + s)).
      - apply Z.pow_le_mono_r; lia.
      - rewrite Z.pow_add_r by (unfold dx; lia).
        apply Z.mul_le_mono_nonneg_r; [apply Z.pow_nonneg; lia | lia]. }
    assert (Hq0 : 0 < q).
    { eapply Z.lt_le_trans; [| exact Hq1]. apply Z.pow_pos_nonneg; lia. }
    assert (Hg := Zdigits2_ge q (h + 1)).
    replace (h + 1 - 1) with h in Hg by lia. specialize (Hg Hq1 Hq0).
    assert (Hhe : (dx + ex + 1) / 2 = h + 1 + e').
    { unfold h, s.
      replace (dx + ex + 1) with (dx - 1 + (ex - 2 * e') + (1 + e') * 2) by lia.
      rewrite Z.div_add by lia. lia. }
    assert (Hmono : (lo + 1) / 2 <= (dx + ex + 1) / 2)
      by (apply Z.div_le_mono; lia).
    eapply lowerSF_weaken; [apply binary_round_aux_lower |]; lia.
Qed.

Lemma SFsqrt_bnd (x : spec_float) (k : Z) :
  lowerSF (SpecFloat.emin prec emax) x -> bndSF k x ->
  SpecFloat.emin prec emax <= (k + 1) / 2 -> (k + 1) / 2 < emax ->
  bndSF ((k + 1) / 2 + 1) (SFsqrt prec emax x).
Proof.
  intros Hx Hk Hlo Hhi.
  destruct x as [s | s | | s mx ex]; cbn [lowerSF bndSF] in Hx, Hk;
    try contradiction.
  destruct s; [contradiction |]. unfold SFsqrt.
  generalize (SFsqrt_core_spec mx ex).
  destruct (SFsqrt_core_binary prec emax (Zpos mx) ex) as [[q e'] l].
  intros [He' Hq].
  assert (Hdx := digits2_pos_bounds mx).
  set (dx := Zpos (digits2_pos mx)) in *.
  assert (He2 : 2 * (ex / 2) <= ex).
  { assert (H := Z.mul_div_le ex 2 ltac:(lia)). lia. }
  assert (Hs : 0 <= ex - 2 * e') by lia.
  set (s := ex - 2 * e') in *.
  set (h := (dx + s + 1) / 2).
  assert (Hh : 0 <= h) by (apply Z.div_pos; unfold dx; lia).
  assert (Hh2 : dx + s < 2 * h + 1).
  { assert (H := Z.mod_pos_bound (dx + s + 1) 2 ltac:(lia)).
    assert (H' := Z.div_mod (dx + s + 1) 2 ltac:(lia)). fold h in H'. lia. }
  assert (Hq0 : 0 <= q) by (rewrite Hq; apply Z.sqrt_nonneg).
  assert (Hq1 : q < 2 ^ h).
  { rewrite Hq. apply Z.sqrt_lt_square;
      [lia | apply Z.pow_nonneg; lia |].
    rewrite <- Z.pow_add_r by lia.
    apply Z.lt_le_trans with (2 ^ (dx + s)).
    - rewrite Z.pow_add_r by (unfold dx; lia).
      apply Z.mul_lt_mono_pos_r; [apply Z.pow_pos_nonneg; lia | lia].
    - apply Z.pow_le_mono_r; lia. }
  assert (Hd := Zdigits2_le q h Hq0 Hh Hq1).
  assert (Hhe : (dx + ex + 1) / 2 = h + e').
  { unfold h, s.
    replace (dx + ex + 1) with (dx + (ex - 2 * e') + 1 + e' * 2) by lia.
    rewrite Z.div_add by lia. lia. }
  assert (Hmono : (dx + ex + 1) / 2 <= (k + 1) / 2)
    by (apply Z.div_le_mono; lia).
  apply binary_round_aux_bnd; try assumption; try lia.
  unfold_fexp. lia.
Qed.

(** *** The reduced salinity of a salinity above -32 *)

Lemma lowerSF_SF_32 : lowerSF 6 SF_32.
Proof.
  cbv beta iota delta [lowerSF SF_32]. apply Z.leb_le. vm_compute. reflexivity.
Qed.

(** Adding 32 to a number above -32 gives a positive number, of at least
    2^-48. *)
Lemma above_m32_plus_32 (x : spec_float) :
  valid_binary x = true ->
  SFltb SF_m32 x = true ->
  lowerSF (-47) (SFadd prec emax x SF_32).
Proof.
  intros V H.
  destruct x as [sx | sx | | sx mx ex].
  - apply lowerSF_weaken with (lo := 6); [| lia].
    destruct sx; exact lowerSF_SF_32.
  - destruct sx; [discriminate H | exact I].
  - discriminate H.
  - destruct sx.
    + apply SFltb_neg_cases in H.
      unfold valid_binary, bounded, canonical_mantissa in V.
      apply andb_true_iff in V as [C B].
      apply Z.eqb_eq in C. apply Z.leb_le in B.
      assert (Hdx := digits2_pos_bounds mx).
      apply (SFadd_lower_neg_pos mx _ ex (-47)).
      * destruct H as [H | [H1 H2]]; [exact H | exfalso].
        assert (Hd : Zpos (digits2_pos mx) = 53) by (unfold_fexp; lia).
        rewrite Hd in Hdx. lia.
      * apply Z.le_trans with prec; [unfold_fexp; lia |].
        apply Z.leb_le. vm_compute. reflexivity.
      * unfold SpecFloat.emin, prec, emax. lia.
    + eapply lowerSF_weaken; [apply SFadd_lower_pos_pos |].
      * unfold SpecFloat.emin, prec, emax. lia.
      * lia.
Qed.

Lemma fbnd_sqrt (k lo : Z) (x : float) :
  lowerSF lo (Prim2SF x) -> SpecFloat.emin prec emax <= lo ->
  fbnd k x -> in_range ((k + 1) / 2) = true ->
  fbnd ((k + 1) / 2 + 1) (PrimFloat.sqrt x).
Proof.
  unfold fbnd. intros Hx Hlo Hk Hr. apply in_range_spec in Hr as [Hr1 Hr2].
  rewrite sqrt_spec. apply SFsqrt_bnd; try assumption.
  eapply lowerSF_weaken; [exact Hx | exact Hlo].
Qed.

(** A quotient by a positive number that is at least [2^(lo-1)]. *)
Lemma fbnd_div_lower (kx lo : Z) (x y : float) :
  fbnd kx x -> lowerSF lo (Prim2SF y) -> is_finite y = true ->
  in_range (kx - lo + 1) = true ->
  fbnd (kx - lo + 2) (PrimFloat.div x y).
Proof.
  unfold fbnd. intros Hx Hy Hf Hr. apply in_range_spec in Hr as [Hlo Hhi].
  rewrite is_finite_SF in Hf. rewrite div_spec.
  destruct (Prim2SF y) as [s | s | | s m e]; cbn [lowerSF] in Hy;
    try contradiction; try discriminate Hf.
  destruct s; [contradiction |].
  set (My := Zpos (digits2_pos m) + e) in *.
  replace (kx - lo + 2) with (kx + (My - lo) - My + 1 + 1) by lia.
  apply SFdiv_bnd.
  - eapply bndSF_weaken; [exact Hx | lia].
  - fold My. lia.
  - fold My. lia.
Qed.

(** For a salinity above -32 of magnitude below 2^74 the reduced salinity
    s is a positive number with 2^-27 <= s < 2^37. *)
Lemma reduced_salinity_bounds (SA CT p : float) :
  PrimFloat.ltb (-32)%float SA = true ->
  fbnd 74 SA ->
  let '(s, t, pt) := reduced SA CT p in
  lowerSF (-26) (Prim2SF s) /\ fbnd 37 s.
Proof.
  intros H HSA. cbv beta iota delta [reduced fadd fmul fdiv fsqrt Arith_float].
  set (q := PrimFloat.div (PrimFloat.add SA (lit 32)) _).
  assert (Hlow : lowerSF (-53) (Prim2SF q)).
  { unfold q. rewrite div_spec, add_spec, Prim2SF_32, Prim2SF_SAu.
    rewrite ltb_spec, Prim2SF_m32 in H.
    eapply lowerSF_weaken.
    - apply SFdiv_lower with (lo := -47).
      + apply above_m32_plus_32; [apply Prim2SF_valid | exact H].
      + apply Z.leb_le. vm_compute. reflexivity.
    - apply Z.leb_le. vm_compute. reflexivity. }
  eassert (Hq : fbnd _ q) by (unfold q; fbnd_solve).
  split.
  - rewrite sqrt_spec.
    eapply lowerSF_weaken; [apply SFsqrt_lower; [exact Hlow |] |];
      apply Z.leb_le || apply Z.ltb_lt; vm_compute; reflexivity.
  - eapply bndSF_weaken.
    + eapply fbnd_sqrt; [exact Hlow | | exact Hq |];
        first [apply Z.leb_le; vm_compute; reflexivity
              | vm_compute; reflexivity].
    + apply Z.leb_le. vm_compute. reflexivity.
Qed.

(** The bounds of [fbnd_add], [fbnd_mul] and [fbnd_div] with the bound of
    the result given, so that it can be a numeral. *)
Lemma fbnd_add_le (kx ky k : Z) (x y : float) :
  fbnd kx x -> fbnd ky y ->
  (in_range (Z.max kx ky + 1) && (Z.max kx ky + 2 <=? k)) = true ->
  fbnd k (PrimFloat.add x y).
Proof.
  intros Hx Hy H. apply andb_true_iff in H as [Hr Hk]. apply Z.leb_le in Hk.
  eapply bndSF_weaken; [apply (fbnd_add kx ky); assumption | exact Hk].
Qed.

Lemma fbnd_mul_le (kx ky k : Z) (x y : float) :
  fbnd kx x -> fbnd ky y ->
  (in_range (kx + ky) && (kx + ky + 1 <=? k)) = true ->
  fbnd k (PrimFloat.mul x y).
Proof.
  intros Hx Hy H. apply andb_true_iff in H as [Hr Hk]. apply Z.leb_le in Hk.
  eapply bndSF_weaken; [apply (fbnd_mul kx ky); assumption | exact Hk].
Qed.

Lemma fbnd_div_le (kx ky k : Z) (x y : float) :
  fbnd kx x ->
  match Prim2SF y with
  | S754_finite _ m e => Some (Zpos (digits2_pos m) + e)
  | _ => None
  end = Some ky ->
  (in_range (kx - ky + 1) && (kx - ky + 2 <=? k)) = true ->
  fbnd k (PrimFloat.div x y).
Proof.
  intros Hx Hy H. apply andb_true_iff in H as [Hr Hk]. apply Z.leb_le in Hk.
  eapply bndSF_weaken; [apply (fbnd_div kx ky); assumption | exact Hk].
Qed.

Lemma fbnd_div_lower_le (kx lo k : Z) (x y : float) :
  fbnd kx x -> lowerSF lo (Prim2SF y) -> is_finite y = true ->
  (in_range (kx - lo + 1) && (kx - lo + 2 <=? k)) = true ->
  fbnd k (PrimFloat.div x y).
Proof.
  intros Hx Hy Hf H. apply andb_true_iff in H as [Hr Hk]. apply Z.leb_le in Hk.
  eapply bndSF_weaken; [apply (fbnd_div_lower kx lo); assumption | exact Hk].
Qed.

(** A number that is at least a negative number [y] is [y] or above. *)
Lemma SFleb_neg_cases (m : positive) (e : Z) (x : spec_float) :
  SFleb (S754_finite true m e) x = true ->
  x = S754_finite true m e \/ SFltb (S754_finite true m e) x = true.
Proof.
  unfold SFleb, SFltb.
  destruct (SFcompare (S754_finite true m e) x) as [[| |] |] eqn:E;
    intros H; try discriminate H; [left | right; reflexivity].
  destruct x as [s | s | | s mx ex]; cbn [SFcompare] in E.
  - discriminate E.
  - destruct s; discriminate E.
  - discriminate E.
  - destruct s; [| discriminate E].
    destruct (Z.compare_spec e ex) as [He | He | He]; try discriminate E.
    rewrite Pos.compare_cont_spec in E. cbn [Pos.switch_Eq] in E.
    destruct (Pos.compare_spec m mx) as [Hm | Hm | Hm]; try discriminate E.
    subst. reflexivity.
Qed.

Lemma leb_m32_cases (SA : float) :
  PrimFloat.leb (-32)%float SA = true ->
  SA = (-32)%float \/ PrimFloat.ltb (-32)%float SA = true.
Proof.
  rewrite leb_spec, ltb_spec, Prim2SF_m32. intros H.
  apply SFleb_neg_cases in H as [H | H]; [left | right; exact H].
  apply Prim2SF_inj. rewrite H, Prim2SF_m32. reflexivity.
Qed.

Close Scope Z_scope.

(** ** No overflow on a box of inputs *)

Ltac box_bounds HSA HCT Hp :=
  eapply fbnd_of_abs_leb in HSA; [| vm_compute; reflexivity];
  eapply fbnd_of_abs_leb in HCT; [| vm_compute; reflexivity];
  eapply fbnd_of_abs_leb in Hp; [| vm_compute; reflexivity].

(** Add to the context a bound [fbnd k e], with [k] a numeral, for the
    expression [e] and for each of its subexpressions, unless it is there
    already. *)
Ltac bound e :=
  lazymatch goal with
  | _ : fbnd _ e |- _ => idtac
  | _ =>
    lazymatch e with
    | PrimFloat.add ?x ?y =>
        bound x; bound y;
        lazymatch goal with
        | Hx : fbnd ?kx x, Hy : fbnd ?ky y |- _ =>
            let k := eval vm_compute in (Z.max kx ky + 2)%Z in
            assert (fbnd k e)
              by (apply (fbnd_add_le kx ky k x y Hx Hy);
                  vm_compute; reflexivity)
        end
    | PrimFloat.mul ?x ?y =>
        bound x; bound y;
        lazymatch goal with
        | Hx : fbnd ?kx x, Hy : fbnd ?ky y |- _ =>
            let k := eval vm_compute in (kx + ky + 1)%Z in
            assert (fbnd k e)
              by (apply (fbnd_mul_le kx ky k x y Hx Hy);
                  vm_compute; reflexivity)
        end
    | PrimFloat.div ?x ?y =>
        bound x;
        lazymatch goal with
        | Hx : fbnd ?kx x, Hy : lowerSF ?lo (Prim2SF y),
          Hf : is_finite y = true |- _ =>
            let k := eval vm_compute in (kx - lo + 2)%Z in
            assert (fbnd k e)
              by (apply (fbnd_div_lower_le kx lo k x y Hx Hy Hf);
                  vm_compute; reflexivity)
        | Hx : fbnd ?kx x |- _ =>
            let m := eval vm_compute in (magSF (Prim2SF y)) in
            lazymatch m with
            | Some ?ky =>
                let k := eval vm_compute in (kx - ky + 2)%Z in
                assert (fbnd k e)
                  by (apply (fbnd_div_le kx ky k x y Hx);
                      vm_compute; reflexivity)
            end
        end
    | _ =>
        let m := eval vm_compute in (magSF (Prim2SF e)) in
        lazymatch m with
        | Some ?k =>
            assert (fbnd k e) by (apply fbnd_const; vm_compute; reflexivity)
        end
    end
  end.

Ltac finite_by_bound :=
  lazymatch goal with
  | |- is_finite ?e = true =>
      bound e;
      lazymatch goal with
      | H : fbnd _ e |- _ => exact (fbnd_finite _ _ H)
      end
  end.

(** X13.  In binary64, for every SA above -32 and every SA, CT and p of absolute
    value at most 1e22, the five outputs rho, a, b, r0, r of
    [polyTEOS10_bsq] are finite numbers: no operation overflows, and the
    division by s that gives b is a division by a positive number. *)
Theorem bsq_finite_on_box (SA CT p : float) :
  PrimFloat.ltb (-32)%float SA = true ->
  PrimFloat.leb (abs SA) max_magnitude = true ->
  PrimFloat.leb (abs CT) max_magnitude = true ->
  PrimFloat.leb (abs p) max_magnitude = true ->
  let '(rho, a, b, r0, r) := Bsq.polyTEOS10_bsq SA CT p in
  is_finite rho = true /\ is_finite a = true /\ is_finite b = true /\
  is_finite r0 = true /\ is_finite r = true.
Proof.
  intros H HSA HCT Hp. box_bounds HSA HCT Hp.
  generalize (reduced_salinity_bounds SA CT p H HSA).
  expose_float. set (ss := PrimFloat.sqrt _). intros [Hlow Hss].
  assert (Hfin := fbnd_finite _ _ Hss).
  split; [finite_by_bound |]. split; [finite_by_bound |].
  split; [finite_by_bound |]. split; finite_by_bound.
Qed.

Lemma bsq_finite_on_box_witness :
  PrimFloat.ltb (-32)%float SA_chk = true /\
  PrimFloat.leb (abs SA_chk) max_magnitude = true /\
  PrimFloat.leb (abs CT_chk) max_magnitude = true /\
  PrimFloat.leb (abs p_chk) max_magnitude = true /\
  (let '(rho, a, b, r0, r) := Bsq.polyTEOS10_bsq SA_chk CT_chk p_chk in
  is_finite rho = true /\ is_finite a = true /\ is_finite b = true /\
  is_finite r0 = true /\ is_finite r = true).
Proof.
  split; [vm_compute; reflexivity |].
  split; [vm_compute; reflexivity |].
  split; [vm_compute; reflexivity |].
  split; [vm_compute; reflexivity |].
  apply (bsq_finite_on_box SA_chk CT_chk p_chk); vm_compute; reflexivity.
Defined.

(** X14.  In binary64, for every SA above -32 and every SA, CT and p of absolute
    value at most 1e22, the five outputs rho, a, b, r1, rdot of
    [polyTEOS10_stif] are finite numbers. *)
Theorem stif_finite_on_box (SA CT p : float) :
  PrimFloat.ltb (-32)%float SA = true ->
  PrimFloat.leb (abs SA) max_magnitude = true ->
  PrimFloat.leb (abs CT) max_magnitude = true ->
  PrimFloat.leb (abs p) max_magnitude = true ->
  let '(rho, a, b, r1, rdot) := Stif.polyTEOS10_stif SA CT p in
  is_finite rho = true /\ is_finite a = true /\ is_finite b = true /\
  is_finite r1 = true /\ is_finite rdot = true.
Proof.
  intros H HSA HCT Hp. box_bounds HSA HCT Hp.
  generalize (reduced_salinity_bounds SA CT p H HSA).
  expose_float. set (ss := PrimFloat.sqrt _). intros [Hlow Hss].
  assert (Hfin := fbnd_finite _ _ Hss).
  split; [finite_by_bound |]. split; [finite_by_bound |].
  split; [finite_by_bound |]. split; finite_by_bound.
Qed.

Lemma stif_finite_on_box_witness :
  PrimFloat.ltb (-32)%float SA_chk = true /\
  PrimFloat.leb (abs SA_chk) max_magnitude = true /\
  PrimFloat.leb (abs CT_chk) max_magnitude = true /\
  PrimFloat.leb (abs p_chk) max_magnitude = true /\
  (let '(rho, a, b, r1, rdot) := Stif.polyTEOS10_stif SA_chk CT_chk p_chk in
  is_finite rho = true /\ is_finite a = true /\ is_finite b = true /\
  is_finite r1 = true /\ is_finite rdot = true).
Proof.
  split; [vm_compute; reflexivity |].
  split; [vm_compute; reflexivity |].
  split; [vm_compute; reflexivity |].
  split; [vm_compute; reflexivity |].
  apply (stif_finite_on_box SA_chk CT_chk p_chk); vm_compute; reflexivity.
Defined.

(** X15.  In binary64, for every SA of at least -32 and every SA, CT and p of
    absolute value at most 1e22, the outputs specvol, v0 and delta of
    [polyTEOS10_55t] are finite numbers. *)
Theorem t55_specvol_finite_on_box (SA CT p : float) :
  PrimFloat.leb (-32)%float SA = true ->
  PrimFloat.leb (abs SA) max_magnitude = true ->
  PrimFloat.leb (abs CT) max_magnitude = true ->
  PrimFloat.leb (abs p) max_magnitude = true ->
  let '(specvol, alpha, beta, v0, delta) := V55.polyTEOS10_55t SA CT p in
  is_finite specvol = true /\ is_finite v0 = true /\ is_finite delta = true.
Proof.
  intros H HSA HCT Hp. box_bounds HSA HCT Hp.
  apply leb_m32_cases in H as [-> | H].
  - reduce_s0.
    split; [finite_by_bound |]. split; finite_by_bound.
  - generalize (reduced_salinity_bounds SA CT p H HSA).
    expose_float. set (ss := PrimFloat.sqrt _). intros [_ Hss].
    split; [finite_by_bound |]. split; finite_by_bound.
Qed.

Lemma t55_specvol_finite_on_box_witness :
  PrimFloat.leb (-32)%float SA_chk = true /\
  PrimFloat.leb (abs SA_chk) max_magnitude = true /\
  PrimFloat.leb (abs CT_chk) max_magnitude = true /\
  PrimFloat.leb (abs p_chk) max_magnitude = true /\
  (let '(specvol, alpha, beta, v0, delta) :=
     V55.polyTEOS10_55t SA_chk CT_chk p_chk in
  is_finite specvol = true /\ is_finite v0 = true /\ is_finite delta = true).
Proof.
  split; [vm_compute; reflexivity |].
  split; [vm_compute; reflexivity |].
  split; [vm_compute; reflexivity |].
  split; [vm_compute; reflexivity |].
  apply (t55_specvol_finite_on_box SA_chk CT_chk p_chk);
    vm_compute; reflexivity.
Defined.

(** X16.  In binary64, for every SA of at least -32 and every SA, CT and p of
    absolute value at most 1e22, the outputs specvol, v0 and delta of
    [polyTEOS10_75t] are finite numbers. *)
Theorem t75_specvol_finite_on_box (SA CT p : float) :
  PrimFloat.leb (-32)%float SA = true ->
  PrimFloat.leb (abs SA) max_magnitude = true ->
  PrimFloat.leb (abs CT) max_magnitude = true ->
  PrimFloat.leb (abs p) max_magnitude = true ->
  let '(specvol, alpha, beta, v0, delta) := V75.polyTEOS10_75t SA CT p in
  is_finite specvol = true /\ is_finite v0 = true /\ is_finite delta = true.
Proof.
  intros H HSA HCT Hp. box_bounds HSA HCT Hp.
  apply leb_m32_cases in H as [-> | H].
  - reduce_s0.
    split; [finite_by_bound |]. split; finite_by_bound.
  - generalize (reduced_salinity_bounds SA CT p H HSA).
    expose_float. set (ss := PrimFloat.sqrt _). intros [_ Hss].
    split; [finite_by_bound |]. split; finite_by_bound.
Qed.

Lemma t75_specvol_finite_on_box_witness :
  PrimFloat.leb (-32)%float SA_chk = true /\
  PrimFloat.leb (abs SA_chk) max_magnitude = true /\
  PrimFloat.leb (abs CT_chk) max_magnitude = true /\
  PrimFloat.leb (abs p_chk) max_magnitude = true /\
  (let '(specvol, alpha, beta, v0, delta) :=
     V75.polyTEOS10_75t SA_chk CT_chk p_chk in
  is_finite specvol = true /\ is_finite v0 = true /\ is_finite delta = true).
Proof.
  split; [vm_compute; reflexivity |].
  split; [vm_compute; reflexivity |].
  split; [vm_compute; reflexivity |].
  split; [vm_compute; reflexivity |].
  apply (t75_specvol_finite_on_box SA_chk CT_chk p_chk);
    vm_compute; reflexivity.
Defined.
